(** * deep-qso: the training-data loader ([src/data/dataloader.py])

    A shallow embedding of the [Dataloader] class and the properties of its
    pipeline: balancing, derived columns, the pivot into a dense tensor,
    class concatenation and the seeded shuffle.

    Modelling conventions.
    - A float64 entry is a [cell]: [Some q] for a number (idealised as an
      exact rational, rounding is not modelled) and [None] for NaN.
    - A [DataFrame] lists its column labels and its rows; the key columns
      (objectId, filter, MJD, ccdVisitId, time_index) are typed record
      fields, every other label is a float column read through [num].  A
      field whose label is not in [columns] carries no information.
    - DataFrames are Python objects: functions that mutate their arguments
      in place work on a [store] of frames addressed by references.
    - Exceptions are the [Raise] results of an error monad; [print] calls
      under [DEBUG] and [gc.collect()] have no functional effect and are
      left out.

    Library behaviour the embedding relies on.
    - [pivot_table] aggregates each group with the mean of its non-null
      entries (NaN for none); with [dropna=False] a two-level row index is
      completed to the product of its levels and no column is dropped; the
      column index is sorted, value label first, then column key.
    - [unique] lists values in order of first appearance, [np.sort] and
      index levels are ascending, strings compare by code point,
      [sort_values] on several keys is stable.
    - [Series.map] with a dict gives NaN for a missing key and
      [astype(int)] raises ValueError on NaN; [np.min] raises ValueError
      on an empty array.
    - [src['d_time'].fillna(0.0, inplace=True)] updates the column of
      [src], as it does in the pandas releases the code was written for.
    - [reshape] reads and writes in row-major order.
    - [np.random] is a parameter: a seeding function and a draw of a
      permutation of [0 .. n-1] from a generator state.
    - [data_utils.e1e2_to_ephi] is not among the sources; it is a
      parameter [ephi], a function of the two shear entries of a row. *)

From Stdlib Require Import List ZArith QArith Qminmax String Ascii Bool Lia Arith.
From Stdlib Require Import Permutation DecimalString Sorted.
Import ListNotations.

Open Scope list_scope.
Open Scope string_scope.

(* ================================================================== *)
(** * Exceptions and the error monad *)

Inductive exn : Type :=
| AssertionError
| KeyError (label : string)
| NameError (label : string)
| ValueError
| TypeError
| IndexError.

Inductive result (A : Type) : Type :=
| Ok (a : A)
| Raise (e : exn).

Arguments Ok {A} a.
Arguments Raise {A} e.

Definition bind {A B : Type} (m : result A) (k : A -> result B) : result B :=
  match m with
  | Ok a => k a
  | Raise e => Raise e
  end.

Notation "x <- m ;; k" := (bind m (fun x => k))
  (at level 61, m at next level, right associativity).
Notation "' pat <- m ;; k" := (bind m (fun x => match x with pat => k end))
  (at level 61, pat pattern, m at next level, right associativity).

(** Python's [assert b]. *)
Definition assert (b : bool) : result unit :=
  if b then Ok tt else Raise AssertionError.

(* ================================================================== *)
(** * Float cells *)

Abbreviation cell := (option Q).

(** The out-of-range value written over nulls (line 186). *)
Definition sentinel : Q := (-9999 # 1)%Q.

Definition isnull (c : cell) : bool :=
  match c with None => true | Some _ => false end.

Fixpoint somes (l : list cell) : list Q :=
  match l with
  | [] => []
  | Some q :: l' => q :: somes l'
  | None :: l' => somes l'
  end.

Definition Qsum (l : list Q) : Q := fold_right Qplus 0%Q l.

Definition Qmean (l : list Q) : Q :=
  (Qsum l / inject_Z (Z.of_nat (List.length l)))%Q.

(** The aggregation of [pivot_table] (default [aggfunc='mean']): the mean
    of the non-null entries of a group, NaN when there is none. *)
Definition nanmean (l : list cell) : cell :=
  match somes l with
  | [] => None
  | q :: qs => Some (Qmean (q :: qs))
  end.

(* ================================================================== *)
(** * Sorting and distinct values *)

(** [np.sort(np.unique(l))], also the sorted levels of a pandas index:
    insertion into a strictly increasing list, equal keys merged. *)
Fixpoint insert_uniq {A : Type} (cmp : A -> A -> comparison) (x : A) (l : list A)
  : list A :=
  match l with
  | [] => [x]
  | y :: l' =>
      match cmp x y with
      | Lt => x :: l
      | Eq => l
      | Gt => y :: insert_uniq cmp x l'
      end
  end.

Definition sort_uniq {A : Type} (cmp : A -> A -> comparison) (l : list A) : list A :=
  fold_right (insert_uniq cmp) [] l.

(** [Series.unique()]: distinct values in order of first appearance. *)
Fixpoint unique {A : Type} (eqb : A -> A -> bool) (l : list A) : list A :=
  match l with
  | [] => []
  | x :: l' => x :: filter (fun y => negb (eqb x y)) (unique eqb l')
  end.

(** [Series.nunique()]. *)
Definition nunique {A : Type} (eqb : A -> A -> bool) (l : list A) : nat :=
  List.length (unique eqb l).

(** A stable sort by a comparison, as [sort_values] on several keys. *)
Fixpoint insert_stable {A : Type} (cmp : A -> A -> comparison) (x : A) (l : list A)
  : list A :=
  match l with
  | [] => [x]
  | y :: l' =>
      match cmp x y with
      | Gt => y :: insert_stable cmp x l'
      | _ => x :: l
      end
  end.

Definition sort_stable {A : Type} (cmp : A -> A -> comparison) (l : list A) : list A :=
  fold_right (insert_stable cmp) [] l.

Definition mem (s : string) (l : list string) : bool :=
  existsb (String.eqb s) l.

Fixpoint list_eqb {A : Type} (eqb : A -> A -> bool) (l1 l2 : list A) : bool :=
  match l1, l2 with
  | [], [] => true
  | x :: l1', y :: l2' => eqb x y && list_eqb eqb l1' l2'
  | _, _ => false
  end.

(** No label occurs twice. *)
Fixpoint nodupb (l : list string) : bool :=
  match l with
  | [] => true
  | x :: l' => negb (mem x l') && nodupb l'
  end.

(** [str(t)] of a Python int. *)
Definition str (t : Z) : string := NilZero.string_of_int (Z.to_int t).

(** First binding of a key in an association list ([dict] lookups, and the
    column of a label in a row of a wide table). *)
Fixpoint assoc {K V : Type} (eqb : K -> K -> bool) (k : K) (l : list (K * V))
  : option V :=
  match l with
  | [] => None
  | (k', v) :: l' => if eqb k k' then Some v else assoc eqb k l'
  end.

(* ================================================================== *)
(** * Data frames *)

Record Row : Type := mkRow {
  objectId : Z;
  filter : string;
  MJD : Q;
  ccdVisitId : Z;
  time_index : Z;
  num : string -> cell
}.

Record DataFrame : Type := mkDF {
  columns : list string;
  rows : list Row
}.

(** [df.shape]. *)
Definition shape (df : DataFrame) : nat * nat :=
  (List.length (rows df), List.length (columns df)).

Definition shape_eqb (s1 s2 : nat * nat) : bool :=
  (fst s1 =? fst s2)%nat && (snd s1 =? snd s2)%nat.

(** [df[label]] as a check: reading a missing column raises [KeyError]. *)
Definition getitem (df : DataFrame) (label : string) : result unit :=
  if mem label (columns df) then Ok tt else Raise (KeyError label).

Fixpoint getitems (df : DataFrame) (labels : list string) : result unit :=
  match labels with
  | [] => Ok tt
  | l :: ls => _ <- getitem df l ;; getitems df ls
  end.

(** [df[labels]]: a new frame with these columns, in this order. *)
Definition select (df : DataFrame) (labels : list string) : result DataFrame :=
  _ <- getitems df labels ;;
  Ok {| columns := labels; rows := rows df |}.

(** The labels after [df[label] = ...]: a new label goes last. *)
Definition add_label (label : string) (cols : list string) : list string :=
  if mem label cols then cols else (cols ++ [label])%list.

Definition set_num (label : string) (v : cell) (r : Row) : Row :=
  {| objectId := objectId r; filter := filter r; MJD := MJD r;
     ccdVisitId := ccdVisitId r; time_index := time_index r;
     num := fun l => if String.eqb l label then v else num r l |}.

Definition set_MJD (m : Q) (r : Row) : Row :=
  {| objectId := objectId r; filter := filter r; MJD := m;
     ccdVisitId := ccdVisitId r; time_index := time_index r; num := num r |}.

Definition set_time_index (t : Z) (r : Row) : Row :=
  {| objectId := objectId r; filter := filter r; MJD := MJD r;
     ccdVisitId := ccdVisitId r; time_index := t; num := num r |}.

(** [df[label] = values] for a float column (values aligned row by row). *)
Definition setitem_num (df : DataFrame) (label : string) (values : list cell)
  : DataFrame :=
  {| columns := add_label label (columns df);
     rows := map (fun rv => set_num label (snd rv) (fst rv))
                 (combine (rows df) values) |}.

(** [df.drop(labels, axis=1, inplace=True)]. *)
Fixpoint drop (df : DataFrame) (labels : list string) : result DataFrame :=
  match labels with
  | [] => Ok df
  | l :: ls =>
      _ <- getitem df l ;;
      drop {| columns := List.filter (fun c => negb (String.eqb c l)) (columns df);
              rows := rows df |} ls
  end.

(* ================================================================== *)
(** * The store of frames *)

Definition loc : Type := nat.

Record store : Type := mkStore {
  heap : loc -> DataFrame;
  next : loc
}.

Definition put (l : loc) (df : DataFrame) (s : store) : store :=
  {| heap := fun l' => if (l' =? l)%nat then df else heap s l'; next := next s |}.

Definition alloc (df : DataFrame) (s : store) : loc * store :=
  (next s,
   {| heap := fun l' => if (l' =? next s)%nat then df else heap s l';
      next := S (next s) |}).

(* ================================================================== *)
(** * The loader object *)

(** The fields assigned in [__init__] that vary between instances.  The
    others are functions of these ([attributes], [filtered_attributes]) or
    constants ([NUM_FILTERS], [seed]). *)
Record Dataloader : Type := mkDataloader {
  NUM_TIMES : option nat;
  NUM_POSITIVES : nat;
  lightcurve_only : bool;
  onehot_filters : bool;
  observation_cutoff : option Q
}.

Definition NUM_FILTERS : nat := 5.
Definition seed : Z := 123.

Definition attributes (self : Dataloader) : list string :=
  if lightcurve_only self then ["apMag"; "apMagErr"; "d_time"]
  else ["psf_fwhm"; "x"; "y"; "apFlux"; "apFluxErr";
        "apMag"; "apMagErr"; "trace"; "e1"; "e2"; "e"; "phi"; "d_time"].

Definition NUM_ATTRIBUTES (self : Dataloader) : nat := List.length (attributes self).

Definition ugriz : list string := ["u"; "g"; "r"; "i"; "z"].

(** Line 39: [f + '_' + a for a, f in product(attributes, 'ugriz')]. *)
Definition filtered_attributes (self : Dataloader) : list string :=
  map (fun af => snd af ++ "_" ++ fst af) (list_prod (attributes self) ugriz).

(** [__init__]: [observation_cutoff] is [None] for [np.inf]. *)
Definition init (lens : DataFrame) (onehot lightcurve : bool) (cutoff : option Q)
  : result Dataloader :=
  _ <- getitem lens "objectId" ;;
  let self := {| NUM_TIMES := None;
                 NUM_POSITIVES := nunique Z.eqb (map objectId (rows lens));
                 lightcurve_only := lightcurve;
                 onehot_filters := onehot;
                 observation_cutoff := cutoff |} in
  _ <- assert (List.length (filtered_attributes self) =? NUM_FILTERS * NUM_ATTRIBUTES self)%nat ;;
  Ok self.

Definition set_NUM_TIMES (n : nat) (self : Dataloader) : Dataloader :=
  {| NUM_TIMES := Some n;
     NUM_POSITIVES := NUM_POSITIVES self;
     lightcurve_only := lightcurve_only self;
     onehot_filters := onehot_filters self;
     observation_cutoff := observation_cutoff self |}.

(* ================================================================== *)
(** * Balancer: [set_balance] (lines 46-66) *)

(** The row test of [query('MJD < @observation_cutoff')]. *)
Definition below (cutoff : option Q) (m : Q) : bool :=
  match cutoff with
  | None => true
  | Some c => negb (Qle_bool c m)
  end.

(** [df.query('MJD < @observation_cutoff', inplace=True)] on the frame at
    [l]; an unknown column name is pandas' UndefinedVariableError. *)
Definition query_inplace (l : loc) (cutoff : option Q) (s : store) : result store :=
  let df := heap s l in
  if mem "MJD" (columns df)
  then Ok (put l {| columns := columns df;
                    rows := List.filter (fun r => below cutoff (MJD r)) (rows df) |} s)
  else Raise (NameError "MJD").

Definition nunique_MJD (df : DataFrame) : result nat :=
  _ <- getitem df "MJD" ;;
  Ok (nunique Qeq_bool (map MJD (rows df))).

Definition isin (ids : list Z) (x : Z) : bool := existsb (Z.eqb x) ids.

Definition set_balance (self : Dataloader) (lens nonlens : loc)
    (cutoff : option Q) (s : store)
  : result (Dataloader * store * (loc * loc)) :=
  (* Get same number of observations, up to the cutoff *)
  s1 <- query_inplace nonlens cutoff s ;;
  s2 <- query_inplace lens cutoff s1 ;;
  n <- nunique_MJD (heap s2 nonlens) ;;
  let self' := set_NUM_TIMES n self in
  n1 <- nunique_MJD (heap s2 nonlens) ;;
  n2 <- nunique_MJD (heap s2 lens) ;;
  _ <- assert (n1 =? n2)%nat ;;
  (* Get same number of lenses as lens sample *)
  _ <- getitem (heap s2 nonlens) "objectId" ;;
  let final_nonlenses :=
    firstn (NUM_POSITIVES self') (unique Z.eqb (map objectId (rows (heap s2 nonlens)))) in
  let kept := {| columns := columns (heap s2 nonlens);
                 rows := List.filter (fun r => isin final_nonlenses (objectId r))
                                     (rows (heap s2 nonlens)) |} in
  let (nonlens', s3) := alloc kept s2 in
  _ <- assert (shape_eqb (shape (heap s3 lens)) (shape (heap s3 nonlens'))) ;;
  Ok (self', s3, (lens, nonlens')).

(* ================================================================== *)
(** * Feature deriver: [set_additional_columns] (lines 68-99) *)

(** [np.min(values)]: an empty array has no minimum. *)
Definition np_min (l : list Q) : result Q :=
  match l with
  | [] => Raise ValueError
  | x :: l' => Ok (fold_left Qmin l' x)
  end.

(** [range(self.NUM_TIMES)]: [NUM_TIMES] is [None] before [set_balance]. *)
Definition range (n : option nat) : result (list nat) :=
  match n with
  | None => Raise TypeError
  | Some k => Ok (seq 0 k)
  end.

(** [Series.astype(int)]: a NaN entry cannot be converted. *)
Fixpoint astype_int (l : list (option nat)) : result (list Z) :=
  match l with
  | [] => Ok []
  | None :: _ => Raise ValueError
  | Some k :: l' => zs <- astype_int l' ;; Ok (Z.of_nat k :: zs)
  end.

(** The lexicographic order of [sort_values(['objectId', 'filter', 'MJD'])]. *)
Definition by_object_filter_MJD (r1 r2 : Row) : comparison :=
  match Z.compare (objectId r1) (objectId r2) with
  | Eq =>
      match String.compare (filter r1) (filter r2) with
      | Eq => Qcompare (MJD r1) (MJD r2)
      | c => c
      end
  | c => c
  end.

(** [Series.shift(+1)]: every entry moves one row down, NaN enters on top. *)
Definition shift1 (l : list cell) : list cell :=
  match l with
  | [] => []
  | _ :: _ => None :: removelast l
  end.

Definition cell_sub (a b : cell) : cell :=
  match a, b with
  | Some x, Some y => Some (x - y)%Q
  | _, _ => None
  end.

Definition fillna (v : Q) (c : cell) : cell :=
  match c with None => Some v | Some _ => c end.

(** [np.clip(x, a_min=lo, a_max=None)] on one entry; NaN stays NaN. *)
Definition clip_min (lo : Q) (c : cell) : cell :=
  match c with
  | None => None
  | Some x => Some (if Qle_bool lo x then x else lo)
  end.

(** The body of the loop [for src in [lens, nonlens]], block by block.
    [ephi] stands for [data_utils.e1e2_to_ephi], whose source is not at
    hand: any function of the two shear entries of a row. *)

(** Add e, phi columns (line 80). *)
Definition add_e_phi (ephi : cell -> cell -> cell * cell) (src : DataFrame)
  : result DataFrame :=
  _ <- getitem src "e1" ;;
  _ <- getitem src "e2" ;;
  let ep := map (fun r => ephi (num r "e1") (num r "e2")) (rows src) in
  let src := setitem_num src "e" (map fst ep) in
  Ok (setitem_num src "phi" (map snd ep)).

(** Set MJD relative to zero (line 82). *)
Definition rebase_MJD (src : DataFrame) : result DataFrame :=
  _ <- getitem src "MJD" ;;
  m <- np_min (map MJD (rows src)) ;;
  Ok {| columns := columns src;
        rows := map (fun r => set_MJD (MJD r - m)%Q r) (rows src) |}.

(** Map ccdVisitId to integers starting from 0 (lines 84-86). *)
Definition add_time_index (self : Dataloader) (src : DataFrame) : result DataFrame :=
  _ <- getitem src "ccdVisitId" ;;
  let sorted_obs_id := sort_uniq Z.compare (map ccdVisitId (rows src)) in
  times <- range (NUM_TIMES self) ;;
  let time_map := combine sorted_obs_id times in
  tis <- astype_int (map (fun r => assoc Z.eqb (ccdVisitId r) time_map) (rows src)) ;;
  Ok {| columns := add_label "time_index" (columns src);
        rows := map (fun rt => set_time_index (snd rt) (fst rt))
                    (combine (rows src) tis) |}.

(** Add a column of d_time, time elapsed since last observation in each
    filter (lines 88-91). *)
Definition add_d_time (src : DataFrame) : result DataFrame :=
  _ <- getitems src ["objectId"; "filter"; "MJD"] ;;
  let src := {| columns := columns src;
                rows := sort_stable by_object_filter_MJD (rows src) |} in
  let mjd := map (fun r => Some (MJD r)) (rows src) in
  let src := setitem_num src "d_time"
               (map (fun ab => cell_sub (fst ab) (snd ab)) (combine mjd (shift1 mjd))) in
  let src := setitem_num src "d_time"
               (map (fun r => fillna 0 (num r "d_time")) (rows src)) in
  Ok (setitem_num src "d_time"
        (map (fun r => clip_min 0 (num r "d_time")) (rows src))).

Definition augment (ephi : cell -> cell -> cell * cell) (self : Dataloader)
    (src : DataFrame) : result DataFrame :=
  src <- add_e_phi ephi src ;;
  src <- rebase_MJD src ;;
  src <- add_time_index self src ;;
  src <- add_d_time src ;;
  drop src ["MJD"; "ccdVisitId"].

(** The loop mutates the frame behind each reference and the function
    returns the references it was given. *)
Fixpoint augment_each (ephi : cell -> cell -> cell * cell) (self : Dataloader)
    (srcs : list loc) (s : store) : result store :=
  match srcs with
  | [] => Ok s
  | l :: ls =>
      df <- augment ephi self (heap s l) ;;
      augment_each ephi self ls (put l df s)
  end.

Definition set_additional_columns (ephi : cell -> cell -> cell * cell)
    (self : Dataloader) (lens nonlens : loc) (s : store)
  : result (store * (loc * loc)) :=
  s' <- augment_each ephi self [lens; nonlens] s ;;
  Ok (s', (lens, nonlens)).

(* ================================================================== *)
(** * Tensor builder: [make_data_array] (lines 101-201) *)

(** The table operations of the builder are logged in call order, so that
    what has run before an abort can be stated. *)
Inductive op : Type :=
| GetDummies
| PivotTable
| FillNull
| Reshape.

Definition M (A : Type) : Type := (list op * result A)%type.

Definition retM {A : Type} (a : A) : M A := ([], Ok a).

Definition bindM {A B : Type} (m : M A) (k : A -> M B) : M B :=
  match m with
  | (log, Ok a) => let (log', r) := k a in ((log ++ log')%list, r)
  | (log, Raise e) => (log, Raise e)
  end.

(** A step that does not touch the table data (a check, a relabelling). *)
Definition lift {A : Type} (r : result A) : M A := ([], r).

(** A logged table operation. *)
Definition call {A : Type} (o : op) (r : result A) : M A := ([o], r).

Notation "x <~ m ;; k" := (bindM m (fun x => k))
  (at level 61, m at next level, right associativity).

(** A table with a row index and flat column labels. *)
Record Indexed (I : Type) : Type := mkIndexed {
  index : list I;
  labels : list string;
  values : list (list cell)
}.

Arguments mkIndexed {I} index labels values.
Arguments index {I} i.
Arguments labels {I} i.
Arguments values {I} i.

(** The result of [pivot_table]: columns are (value label, column key). *)
Record Pivoted (I C : Type) : Type := mkPivoted {
  p_index : list I;
  p_columns : list (string * C);
  p_values : list (list cell)
}.

Arguments mkPivoted {I C} p_index p_columns p_values.
Arguments p_index {I C} p.
Arguments p_columns {I C} p.
Arguments p_values {I C} p.

(** [pivot_table(index=..., columns=..., values=vals, dropna=False)] with
    the default mean aggregation.  The caller gives the row labels [idx]
    and the sorted distinct column keys [keys]; the columns are the
    product of the sorted value labels with the keys (pandas sorts the
    column index), and a cell aggregates the rows of its group. *)
Definition pivot_table {I C : Type} (eqI : I -> I -> bool) (eqC : C -> C -> bool)
    (ikey : Row -> I) (ckey : Row -> C) (idx : list I) (keys : list C)
    (vals : list string) (rws : list Row) : Pivoted I C :=
  let cols := list_prod (sort_uniq String.compare vals) keys in
  {| p_index := idx;
     p_columns := cols;
     p_values :=
       map (fun i =>
              map (fun vc =>
                     nanmean (map (fun r => num r (fst vc))
                                  (List.filter (fun r => eqI (ikey r) i && eqC (ckey r) (snd vc))
                                               rws)))
                  cols)
           idx |}.

(** [src.columns = src.columns.map(fmt)]. *)
Definition map_columns {I C : Type} (fmt : string * C -> string) (p : Pivoted I C)
  : Indexed I :=
  {| index := p_index p; labels := map fmt (p_columns p); values := p_values p |}.

Definition ishape {I : Type} (t : Indexed I) : nat * nat :=
  (List.length (index t), List.length (labels t)).

Definition pair_eqb (a b : Z * Z) : bool :=
  Z.eqb (fst a) (fst b) && Z.eqb (snd a) (snd b).

(** Step 1 of the per-filter layout (lines 146-149): one row per
    (objectId, time_index) over the product of the two index levels, one
    column per (attribute, filter). *)
Definition pivot_filters (src : DataFrame) (vals : list string)
  : result (Pivoted (Z * Z) string) :=
  _ <- getitems src ("objectId" :: "time_index" :: "filter" :: vals) ;;
  let objs := sort_uniq Z.compare (map objectId (rows src)) in
  let times := sort_uniq Z.compare (map time_index (rows src)) in
  let filters := sort_uniq String.compare (map filter (rows src)) in
  Ok (pivot_table pair_eqb String.eqb
        (fun r => (objectId r, time_index r)) filter
        (list_prod objs times) filters vals (rows src)).

(** The pivot of a table on objectId against time_index (lines 130-133
    and 166-169): one row per object, one column per (label, time_index). *)
Definition pivot_times (src : DataFrame) (vals : list string)
  : result (Pivoted Z Z) :=
  _ <- getitems src ("objectId" :: "time_index" :: vals) ;;
  let objs := sort_uniq Z.compare (map objectId (rows src)) in
  let times := sort_uniq Z.compare (map time_index (rows src)) in
  Ok (pivot_table Z.eqb Z.eqb objectId time_index objs times vals (rows src)).

(** [src.reset_index(inplace=True)] on the table of step 1: the two index
    levels become the leading columns. *)
Definition reset_index (t : Indexed (Z * Z)) : DataFrame :=
  {| columns := "objectId" :: "time_index" :: labels t;
     rows := map (fun iv =>
                    {| objectId := fst (fst iv); filter := ""; MJD := 0;
                       ccdVisitId := 0; time_index := snd (fst iv);
                       num := fun l => match assoc String.eqb l (combine (labels t) (snd iv)) with
                                       | Some c => c
                                       | None => None
                                       end |})
                 (combine (index t) (values t)) |}.

(** [np.setdiff1d(a, b)]: the sorted distinct entries of [a] not in [b]. *)
Definition setdiff1d (a b : list string) : list string :=
  sort_uniq String.compare (List.filter (fun x => negb (mem x b)) a).

(** The row of [get_dummies]: one 0/1 column per category [cats] of the
    filter column. *)
Definition add_dummies (cats : list string) (r : Row) : Row :=
  {| objectId := objectId r; filter := filter r; MJD := MJD r;
     ccdVisitId := ccdVisitId r; time_index := time_index r;
     num := fun l => if mem l cats
                     then Some (if String.eqb l (filter r) then 1 else 0)%Q
                     else num r l |}.

(** [pd.get_dummies(data=src, prefix='', prefix_sep='', columns=['filter'])]:
    the filter column is replaced by one 0/1 column per distinct filter
    value, labelled by the value, after the remaining columns.  (A value
    equal to another column label would duplicate that label in pandas;
    here the indicator is the column read under it.) *)
Definition get_dummies (src : DataFrame) : result DataFrame :=
  _ <- getitem src "filter" ;;
  let cats := sort_uniq String.compare (map filter (rows src)) in
  Ok {| columns := (List.filter (fun c => negb (String.eqb c "filter")) (columns src) ++ cats)%list;
        rows := map (add_dummies cats) (rows src) |}.

(** Line 176: [str(t) + '-' + a for a, t in product(filtered_attributes,
    range(NUM_TIMES))]. *)
Definition timed_filtered_attributes (self : Dataloader) (nt : nat) : list string :=
  map (fun a_t => str (Z.of_nat (snd a_t)) ++ "-" ++ fst a_t)
      (list_prod (filtered_attributes self) (seq 0 nt)).

(** The two column formats: ['{0[1]}_{0[0]}'] and ['{0[1]}-{0[0]}']. *)
Definition filter_attribute (c : string * string) : string := snd c ++ "_" ++ fst c.
Definition time_label (c : string * Z) : string := str (snd c) ++ "-" ++ fst c.

(** The one-hot layout (lines 117-142). *)
Definition onehot_layout (self : Dataloader) (nt : nat) (src : DataFrame)
  : M (Indexed Z) :=
  (* 1. One-hot encode the filter column *)
  src <~ call GetDummies (get_dummies src) ;;
  _ <~ lift (assert (shape_eqb (shape src)
                       (NUM_POSITIVES self * nt,
                        NUM_ATTRIBUTES self + NUM_FILTERS + 2)%nat)) ;;
  (* 2. Pivot to get time sequence in each row *)
  let ohfiltered_attributes := (attributes self ++ ["u"; "g"; "r"; "i"; "z"])%list in
  p <~ call PivotTable (pivot_times src ohfiltered_attributes) ;;
  (* 3. Collapse multi-indexed column *)
  let src := map_columns time_label p in
  _ <~ lift (assert (shape_eqb (ishape src)
                       (NUM_POSITIVES self,
                        (NUM_ATTRIBUTES self + NUM_FILTERS) * nt)%nat)) ;;
  retM src.

(** The per-filter-column layout (lines 145-182). *)
Definition per_filter_layout (self : Dataloader) (nt : nat) (src : DataFrame)
  : M (Indexed Z) :=
  (* 1. Pivot to get filters in each row *)
  p <~ call PivotTable (pivot_filters src (attributes self)) ;;
  (* 2. Collapse multi-indexed column using filter_property formatting *)
  let src := map_columns filter_attribute p in
  _ <~ lift (assert (shape_eqb (ishape src)
                       (NUM_POSITIVES self * nt,
                        NUM_ATTRIBUTES self * NUM_FILTERS)%nat)) ;;
  let src := reset_index src in
  _ <~ lift (assert (shape_eqb (shape src)
                       (NUM_POSITIVES self * nt,
                        NUM_ATTRIBUTES self * NUM_FILTERS + 2)%nat)) ;;
  _ <~ lift (assert (list_eqb String.eqb
                       (setdiff1d (columns src) (filtered_attributes self))
                       ["objectId"; "time_index"])) ;;
  (* 3. Pivot to get time sequence in each row *)
  p <~ call PivotTable (pivot_times src (filtered_attributes self)) ;;
  (* 4. Collapse multi-indexed column using time-filter_property formatting *)
  let src := map_columns time_label p in
  _ <~ lift (assert (List.length (timed_filtered_attributes self nt)
                     =? NUM_FILTERS * NUM_ATTRIBUTES self * nt)%nat) ;;
  _ <~ lift (assert (shape_eqb (ishape src)
                       (NUM_POSITIVES self,
                        NUM_ATTRIBUTES self * NUM_FILTERS * nt)%nat)) ;;
  retM src.

(** [src[src.isnull()] = -9999.0]. *)
Definition fill_null (t : Indexed Z) : Indexed Z :=
  {| index := index t; labels := labels t;
     values := map (map (fun c => if isnull c then Some sentinel else c)) (values t) |}.

(** [n] consecutive chunks of [k] entries. *)
Fixpoint chunks {A : Type} (n k : nat) (l : list A) : list (list A) :=
  match n with
  | O => []
  | S n' => firstn k l :: chunks n' k (skipn k l)
  end.

(** [a.reshape(d0, d1, d2)] of a two-dimensional array, in row-major
    order; the sizes must agree. *)
Definition reshape (d0 d1 d2 : nat) (a : list (list cell))
  : result (list (list (list cell))) :=
  let flat := List.concat a in
  if (List.length flat =? d0 * d1 * d2)%nat
  then Ok (map (chunks d1 d2) (chunks d0 (d1 * d2) flat))
  else Raise ValueError.

(** [a.swapaxes(1, 2)] of an array of shape (d0, d1, d2). *)
Definition swapaxes12 (d2 : nat) (a : list (list (list cell))) : list (list (list cell)) :=
  map (fun plane => map (fun j => map (fun line => nth j line None) plane) (seq 0 d2)) a.

(** [np.ones((n,)) * truth_value]. *)
Definition ones_times (n : nat) (truth_value : Q) : list Q :=
  map (fun one => (one * truth_value)%Q) (repeat 1%Q n).

(** A three-dimensional float array: its [shape] and its entries. *)
Record ndarray : Type := mkArray {
  dims : nat * nat * nat;
  items : list (list (list cell))
}.

Definition make_data_array (self : Dataloader) (src : DataFrame) (truth_value : Q)
  : M (ndarray * list Q) :=
  src <~ lift (select src (attributes self ++ ["time_index"; "objectId"; "filter"])%list) ;;
  nt <~ lift (match NUM_TIMES self with Some n => Ok n | None => Raise TypeError end) ;;
  _ <~ lift (assert (List.length (rows src) =? NUM_POSITIVES self * nt)%nat) ;;
  src <~ (if onehot_filters self
          then onehot_layout self nt src
          else per_filter_layout self nt src) ;;
  (* Set null values to some arbitrary out-of-range value *)
  src <~ call FillNull (Ok (fill_null src)) ;;
  let channels := if onehot_filters self
                  then (NUM_ATTRIBUTES self + NUM_FILTERS)%nat
                  else (NUM_FILTERS * NUM_ATTRIBUTES self)%nat in
  X <~ call Reshape (reshape (NUM_POSITIVES self) channels nt (values src)) ;;
  let X := {| dims := (NUM_POSITIVES self, nt, channels); items := swapaxes12 nt X |} in
  let y := ones_times (NUM_POSITIVES self) truth_value in
  retM (X, y).

(* ================================================================== *)
(** * Dataset assembler (lines 203-225) *)

Definition dims_eqb (a b : nat * nat * nat) : bool :=
  (fst (fst a) =? fst (fst b))%nat && (snd (fst a) =? snd (fst b))%nat
  && (snd a =? snd b)%nat.

(** [combine_lens_nonlens] seeds numpy's global generator; [np_seed]
    stands for [np.random.seed] and [G] for the generator state. *)
Definition combine_lens_nonlens {G : Type} (np_seed : Z -> G) (self : Dataloader)
    (lens_data nonlens_data : ndarray * list Q) (g : G)
  : result (G * (ndarray * list Q)) :=
  let (X_lens, y_lens) := lens_data in
  let (X_nonlens, y_nonlens) := nonlens_data in
  let g := np_seed seed in
  _ <- assert (dims_eqb (dims X_lens) (dims X_nonlens)) ;;
  _ <- assert (List.length y_lens =? List.length y_nonlens)%nat ;;
  let X := {| dims := ((fst (fst (dims X_lens)) + fst (fst (dims X_nonlens)))%nat,
                       snd (fst (dims X_lens)), snd (dims X_lens));
              items := (items X_lens ++ items X_nonlens)%list |} in
  let y := (y_lens ++ y_nonlens)%list in
  _ <- assert (fst (fst (dims X)) =? 2 * NUM_POSITIVES self)%nat ;;
  Ok (g, (X, y)).

(** [a[p]]: the entries of [a] at the positions listed in [p]. *)
Fixpoint take {A : Type} (a : list A) (p : list nat) : result (list A) :=
  match p with
  | [] => Ok []
  | i :: p' =>
      match nth_error a i with
      | Some x => xs <- take a p' ;; Ok (x :: xs)
      | None => Raise IndexError
      end
  end.

(** [shuffle_data]; [np_permutation g n] stands for
    [np.random.permutation(n)] drawn in generator state [g]. *)
Definition shuffle_data {G : Type} (np_permutation : G -> nat -> list nat * G)
    (self : Dataloader) (X : ndarray) (y : list Q) (g : G)
  : result (G * (ndarray * list Q)) :=
  let (p, g) := np_permutation g (2 * NUM_POSITIVES self)%nat in
  X' <- take (items X) p ;;
  y' <- take y p ;;
  Ok (g, ({| dims := (List.length p, snd (fst (dims X)), snd (dims X)); items := X' |}, y')).

(** [source_to_data]: the pipeline, up to the two arrays it saves. *)
Definition source_to_data {G : Type} (np_seed : Z -> G)
    (np_permutation : G -> nat -> list nat * G)
    (ephi : cell -> cell -> cell * cell)
    (self : Dataloader) (lens nonlens : loc) (s : store) (g : G)
  : result (ndarray * list Q) :=
  '(self, s, (lens, nonlens)) <- set_balance self lens nonlens (observation_cutoff self) s ;;
  '(s, (lens, nonlens)) <- set_additional_columns ephi self lens nonlens s ;;
  lens_data <- snd (make_data_array self (heap s lens) 1) ;;
  nonlens_data <- snd (make_data_array self (heap s nonlens) 0) ;;
  '(g, (X, y)) <- combine_lens_nonlens np_seed self lens_data nonlens_data g ;;
  '(g, (X, y)) <- shuffle_data np_permutation self X y g ;;
  Ok (X, y).

(* ================================================================== *)
(** * Notions used to state the properties *)

(** A comparison that decides a strict total order. *)
Record total_order {A : Type} (cmp : A -> A -> comparison) : Prop := {
  cmp_eq : forall x y, cmp x y = Eq -> x = y;
  cmp_refl : forall x, cmp x x = Eq;
  cmp_antisym : forall x y, cmp y x = CompOpp (cmp x y);
  cmp_trans : forall x y z, cmp x y = Lt -> cmp y z = Lt -> cmp x z = Lt
}.

Definition lt_by {A : Type} (cmp : A -> A -> comparison) (x y : A) : Prop :=
  cmp x y = Lt.

(** The entries of an array fill its declared shape. *)
Definition well_shaped (X : ndarray) : Prop :=
  let '(d0, d1, d2) := dims X in
  List.length (items X) = d0 /\
  Forall (fun plane => List.length plane = d1 /\
                       Forall (fun line => List.length line = d2) plane) (items X).

(** The channel count of the two layouts. *)
Definition channel_count (self : Dataloader) : nat :=
  if onehot_filters self
  then (NUM_ATTRIBUTES self + NUM_FILTERS)%nat
  else (NUM_ATTRIBUTES self * NUM_FILTERS)%nat.

(** The entry of an array at (object, time slot, channel). *)
Definition entry (X : ndarray) (o t c : nat) : cell :=
  nth c (nth t (nth o (items X) []) []) None.

(** A row of a long table given by its keys and its float columns. *)
Definition obs (o : Z) (f : string) (m : Q) (v : Z) (t : Z) (vals : list (string * cell))
  : Row :=
  {| objectId := o; filter := f; MJD := m; ccdVisitId := v; time_index := t;
     num := fun l => match assoc String.eqb l vals with Some c => c | None => None end |}.

(* ================================================================== *)
(** * Example tables *)

Definition lightcurve_columns : list string :=
  ["objectId"; "filter"; "apMag"; "apMagErr"; "time_index"; "d_time"].

Definition lc (mag err dt : Q) : list (string * cell) :=
  [("apMag", Some mag); ("apMagErr", Some err); ("d_time", Some dt)].

(** One object seen once in each filter, at five visits. *)
Definition one_object : DataFrame :=
  {| columns := lightcurve_columns;
     rows := [obs 7 "u" 0 0 0 (lc 1 (1#10) 0);
              obs 7 "g" 0 0 1 (lc 2 (2#10) 0);
              obs 7 "r" 0 0 2 (lc 3 (3#10) 0);
              obs 7 "i" 0 0 3 (lc 4 (4#10) 0);
              obs 7 "z" 0 0 4 (lc 5 (5#10) 0)] |}.

Definition loader (np nt : nat) (onehot : bool) : Dataloader :=
  {| NUM_TIMES := Some nt; NUM_POSITIVES := np; lightcurve_only := true;
     onehot_filters := onehot; observation_cutoff := None |}.

(** One object, one visit, one filter: the row count is 1 x 1. *)
Definition single_visit : DataFrame :=
  {| columns := lightcurve_columns;
     rows := [obs 7 "g" 0 0 0 (lc 2 (2#10) 0)] |}.

(** A generator for the examples: the state is a counter, a draw of a
    permutation reverses the index range. *)
Definition toy_seed (z : Z) : nat := Z.to_nat z.
Definition toy_permutation (g : nat) (n : nat) : list nat * nat := (rev (seq 0 n), S g).

Definition two_planes : ndarray :=
  {| dims := (2, 1, 1)%nat; items := [[[Some 10%Q]]; [[Some 20%Q]]] |}.

(** Raw tables: the key columns, two light-curve columns and the shear. *)
Definition raw_columns : list string :=
  ["objectId"; "filter"; "MJD"; "ccdVisitId"; "apMag"; "apMagErr"; "e1"; "e2"].

Definition raw (mag e1 e2 : Q) : list (string * cell) :=
  [("apMag", Some mag); ("apMagErr", Some (1#10)); ("e1", Some e1); ("e2", Some e2)].

(** One object seen twice in g (MJD 50, 51) and then twice in r (MJD 55,
    56): the r observations start after the g observations end. *)
Definition g_then_r : DataFrame :=
  {| columns := raw_columns;
     rows := [obs 1 "g" 50 100 0 (raw 20 0 0);
              obs 1 "g" 51 101 0 (raw 21 0 0);
              obs 1 "r" 55 102 0 (raw 22 0 0);
              obs 1 "r" 56 103 0 (raw 23 0 0)] |}.

(** A store with the table above at references 0 and 1. *)
Definition two_tables : store :=
  {| heap := fun _ => g_then_r; next := 2%nat |}.

(** A stand-in for [e1e2_to_ephi] in the examples. *)
Definition ephi_sum (e1 e2 : cell) : cell * cell :=
  match e1, e2 with
  | Some a, Some b => (Some (a * a + b * b)%Q, Some b)
  | _, _ => (None, None)
  end.

(** The columns [set_additional_columns] reads in a table. *)
Definition raw_keys_present (df : DataFrame) : Prop :=
  mem "e1" (columns df) = true /\ mem "e2" (columns df) = true /\
  mem "MJD" (columns df) = true /\ mem "ccdVisitId" (columns df) = true.



(** The columns of a table after the derivation: the four derived columns
    are there, the raw timestamp and visit identifier are gone. *)
Definition augmented_columns (df : DataFrame) : Prop :=
  mem "e" (columns df) = true /\ mem "phi" (columns df) = true /\
  mem "time_index" (columns df) = true /\ mem "d_time" (columns df) = true /\
  mem "MJD" (columns df) = false /\ mem "ccdVisitId" (columns df) = false.

(** Every timestamp of the table is below the cutoff ([None] is [np.inf]). *)
Definition below_cutoff (cutoff : option Q) (df : DataFrame) : Prop :=
  Forall (fun r => match cutoff with
                   | Some c => (MJD r < c)%Q
                   | None => True
                   end) (rows df).

Definition distinct_MJD (df : DataFrame) : nat :=
  nunique Qeq_bool (map MJD (rows df)).

(** Two lenses seen at MJD 1, 2 and 1, 3; three non-lenses, the third one
    the only one seen at MJD 3. *)
Definition lens_table : DataFrame :=
  {| columns := raw_columns;
     rows := [obs 1 "g" 1 100 0 (raw 20 0 0); obs 1 "g" 2 101 0 (raw 20 0 0);
              obs 2 "g" 1 100 0 (raw 20 0 0); obs 2 "g" 3 102 0 (raw 20 0 0)] |}.

Definition nonlens_table : DataFrame :=
  {| columns := raw_columns;
     rows := [obs 10 "g" 1 100 0 (raw 20 0 0); obs 10 "g" 2 101 0 (raw 20 0 0);
              obs 11 "g" 1 100 0 (raw 20 0 0); obs 11 "g" 2 101 0 (raw 20 0 0);
              obs 12 "g" 3 102 0 (raw 20 0 0)] |}.

Definition lens_and_nonlens : store :=
  {| heap := fun l => if (l =? 0)%nat then lens_table else nonlens_table;
     next := 2%nat |}.

(** The value written for a pivot cell: its number, or the sentinel. *)
Definition fill_value (c : cell) : Q :=
  match c with Some q => q | None => sentinel end.

(** The rows of a long table for one object, time index and filter. *)
Definition group (rws : list Row) (o t : Z) (f : string) : list Row :=
  List.filter (fun r => pair_eqb (objectId r, time_index r) (o, t) && String.eqb (filter r) f)
              rws.

(** The (attribute, filter) of every channel of the per-filter layout, in
    channel order: filters in lexicographic order, and the attributes in
    lexicographic order within each filter. *)
Definition channels (self : Dataloader) : list (string * string) :=
  map (fun fa => (snd fa, fst fa))
      (list_prod (sort_uniq String.compare ugriz)
                 (sort_uniq String.compare (attributes self))).

(** The objects and time slots of a table, in tensor order. *)
Definition objects (src : DataFrame) : list Z :=
  sort_uniq Z.compare (map objectId (rows src)).
Definition time_slots (src : DataFrame) : list Z :=
  sort_uniq Z.compare (map time_index (rows src)).

(** What the builder asserts of its input, in either layout. *)
Record balanced_table (self : Dataloader) (nt : nat) (src : DataFrame) : Prop := {
  bt_times : NUM_TIMES self = Some nt;
  bt_columns :
    getitems src (attributes self ++ ["time_index"; "objectId"; "filter"])%list = Ok tt;
  bt_rows : List.length (rows src) = (NUM_POSITIVES self * nt)%nat;
  bt_objects : List.length (objects src) = NUM_POSITIVES self;
  bt_slots : List.length (time_slots src) = nt;
  bt_filters : forall f, In f (map filter (rows src)) <-> In f ugriz
}.

(** The attribute and the filter of channel [c], the rows behind the cell
    (object [o], time slot [t], channel [c]) of the per-filter tensor, and
    the values these rows carry in the attribute of the channel. *)
Definition channel_attribute (self : Dataloader) (c : nat) : string :=
  fst (nth c (channels self) ("", "")).
Definition channel_filter (self : Dataloader) (c : nat) : string :=
  snd (nth c (channels self) ("", "")).
Definition cell_group (self : Dataloader) (src : DataFrame) (o t c : nat) : list Row :=
  group (rows src) (nth o (objects src) 0%Z) (nth t (time_slots src) 0%Z)
        (channel_filter self c).
Definition cell_values (self : Dataloader) (src : DataFrame) (o t c : nat) : list cell :=
  map (fun r => num r (channel_attribute self c)) (cell_group self src o t c).

(** Two objects over five visits, one filter per visit.  Object 1 has two
    rows for visit 0 in u (magnitudes 1 and 3); object 2 has no row for
    visit 4. *)
Definition duplicated_visit : DataFrame :=
  {| columns := lightcurve_columns;
     rows := [obs 1 "u" 0 0 0 (lc 1 (1#10) 0);
              obs 1 "u" 0 0 0 (lc 3 (1#10) 0);
              obs 1 "g" 0 0 1 (lc 2 (1#10) 0);
              obs 1 "r" 0 0 2 (lc 2 (1#10) 0);
              obs 1 "i" 0 0 3 (lc 2 (1#10) 0);
              obs 1 "z" 0 0 4 (lc 2 (1#10) 0);
              obs 2 "u" 0 0 0 (lc 7 (1#10) 0);
              obs 2 "g" 0 0 1 (lc 7 (1#10) 0);
              obs 2 "r" 0 0 2 (lc 7 (1#10) 0);
              obs 2 "i" 0 0 3 (lc 7 (1#10) 0)] |}.

(** The one-hot layout: the label of every channel, in channel order
    (attributes and filter indicators, sorted together), the rows behind
    the cell (object [o], time slot [t]) and the values they carry in
    channel [c]. *)
Definition onehot_channels (self : Dataloader) : list string :=
  sort_uniq String.compare (attributes self ++ ugriz)%list.
Definition onehot_group (src : DataFrame) (o t : nat) : list Row :=
  List.filter (fun r => Z.eqb (objectId r) (nth o (objects src) 0%Z)
                        && Z.eqb (time_index r) (nth t (time_slots src) 0%Z))
              (rows src).
Definition onehot_values (self : Dataloader) (src : DataFrame) (o t c : nat) : list cell :=
  map (fun r => num (add_dummies (sort_uniq String.compare ugriz) r)
                    (nth c (onehot_channels self) ""))
      (onehot_group src o t).

(** The prefix of [s] before the suffix [suf], when [s] ends with it. *)
Fixpoint strip_suffix (suf s : string) : option string :=
  if String.eqb s suf then Some ""
  else match s with
       | EmptyString => None
       | String c s' =>
           match strip_suffix suf s' with
           | Some p => Some (String c p)
           | None => None
           end
       end.

(** The prefixes of the strings of [l] that end with [suf]. *)
Definition prefixes_before (suf : string) (l : list string) : list string :=
  flat_map (fun s => match strip_suffix suf s with Some p => [p] | None => [] end) l.

(** A lens and two non-lenses, each seen once in each filter at five
    visits; the raw tables of a whole run. *)
Definition five_visits (o : Z) (mag : Q) : list Row :=
  [obs o "u" 50 100 0 (raw mag 0 0); obs o "g" 51 101 0 (raw mag 0 0);
   obs o "r" 52 102 0 (raw mag 0 0); obs o "i" 53 103 0 (raw mag 0 0);
   obs o "z" 54 104 0 (raw mag 0 0)].

Definition raw_store : store :=
  {| heap := fun l => if (l =? 0)%nat
                      then {| columns := raw_columns; rows := five_visits 1 20 |}
                      else {| columns := raw_columns;
                              rows := (five_visits 10 21 ++ five_visits 11 22)%list |};
     next := 2%nat |}.


(* ================================================================== *)
(** * Notions used for the further properties *)

(** The exceptions the builder can end with. *)
Definition builder_exception (e : exn) : Prop :=
  e = AssertionError \/ e = TypeError \/ exists l, e = KeyError l.

(** The table left by [query('MJD < @observation_cutoff')]. *)
Definition cut (cutoff : option Q) (df : DataFrame) : DataFrame :=
  {| columns := columns df;
     rows := List.filter (fun r => below cutoff (MJD r)) (rows df) |}.

(** The rows of the first [n] distinct objects of a table. *)
Definition first_objects (n : nat) (df : DataFrame) : DataFrame :=
  {| columns := columns df;
     rows := List.filter
               (fun r => isin (firstn n (unique Z.eqb (map objectId (rows df)))) (objectId r))
               (rows df) |}.

(** An equivalence decided by a boolean test. *)
Record equivalence_test {A : Type} (eqb : A -> A -> bool) : Prop := {
  eqb_refl : forall x, eqb x x = true;
  eqb_sym : forall x y, eqb x y = eqb y x;
  eqb_trans : forall x y z, eqb x y = true -> eqb y z = true -> eqb x z = true
}.

(** What [set_additional_columns] does to one row: [r'] is the row it
    leaves for the raw row [r]. *)
Definition kept_row (r' r : Row) : Prop :=
  objectId r' = objectId r /\ filter r' = filter r /\
  forall l, l <> "e" -> l <> "phi" -> l <> "d_time" -> num r' l = num r l.

(** The raw rows in the order of [sort_values(['objectId', 'filter', 'MJD'])]. *)
Definition sorted_rows (src : DataFrame) : list Row :=
  sort_stable by_object_filter_MJD (rows src).

(** The increasing list of the distinct visit identifiers of a table. *)
Definition visits (src : DataFrame) : list Z :=
  sort_uniq Z.compare (map ccdVisitId (rows src)).

(** A run of the builder that has neither filled nor reshaped, and, if it
    has ended with an exception, with one of the builder's own. *)
Definition clean {A : Type} (m : M A) : Prop :=
  (~ In FillNull (fst m) /\ ~ In Reshape (fst m)) /\
  forall e, snd m = Raise e -> builder_exception e.

(* ================================================================== *)
(** * Properties *)

(** ** The two monads *)

Lemma bind_Ok {A B : Type} (m : result A) (k : A -> result B) (b : B) :
  bind m k = Ok b -> exists a, m = Ok a /\ k a = Ok b.
Proof.
  destruct m as [a | e]; simpl; intros H.
  - exists a. split; [reflexivity | exact H].
  - discriminate H.
Qed.

Lemma assert_Ok (b : bool) (u : unit) : assert b = Ok u -> b = true.
Proof. destruct b; simpl; [reflexivity | discriminate]. Qed.

Lemma bindM_Ok {A B : Type} (m : M A) (k : A -> M B) (log : list op) (b : B) :
  bindM m k = (log, Ok b) ->
  exists l1 a l2, m = (l1, Ok a) /\ k a = (l2, Ok b) /\ log = (l1 ++ l2)%list.
Proof.
  destruct m as [l1 [a | e]]; simpl.
  - destruct (k a) as [l2 r] eqn:Hk. intros H. inversion H; subst.
    exists l1, a, l2. repeat split; auto.
  - intros H; inversion H.
Qed.

Lemma lift_Ok {A : Type} (r : result A) (log : list op) (a : A) :
  lift r = (log, Ok a) -> r = Ok a /\ log = [].
Proof. unfold lift. intros H; inversion H; split; reflexivity. Qed.

Lemma call_Ok {A : Type} (o : op) (r : result A) (log : list op) (a : A) :
  call o r = (log, Ok a) -> r = Ok a /\ log = [o].
Proof. unfold call. intros H; inversion H; split; reflexivity. Qed.

(** ** Shapes: [chunks], [reshape], [swapaxes12] *)

Lemma chunks_length {A : Type} (n k : nat) (l : list A) :
  List.length (chunks n k l) = n.
Proof.
  revert l. induction n as [| n IH]; intros l; simpl; [reflexivity |].
  now rewrite IH.
Qed.

Lemma chunks_Forall_length {A : Type} (n k : nat) (l : list A) :
  List.length l = (n * k)%nat ->
  Forall (fun c => List.length c = k) (chunks n k l).
Proof.
  revert l. induction n as [| n IH]; intros l Hl; simpl; constructor.
  - rewrite length_firstn. simpl in Hl. lia.
  - apply IH. rewrite length_skipn. simpl in Hl. lia.
Qed.

Lemma reshape_shape (d0 d1 d2 : nat) (a : list (list cell)) X :
  reshape d0 d1 d2 a = Ok X ->
  List.length X = d0 /\
  Forall (fun plane => List.length plane = d1 /\
                       Forall (fun line => List.length line = d2) plane) X.
Proof.
  unfold reshape.
  destruct (Nat.eqb_spec (List.length (List.concat a)) (d0 * d1 * d2)) as [Hlen | Hlen];
    [| discriminate].
  intros H; inversion H; subst X; clear H.
  split.
  - now rewrite length_map, chunks_length.
  - apply Forall_map.
    assert (Hc : Forall (fun c : list cell => List.length c = (d1 * d2)%nat)
                        (chunks d0 (d1 * d2) (List.concat a))).
    { apply chunks_Forall_length. lia. }
    eapply Forall_impl; [| exact Hc].
    intros c Hcl. split.
    + apply chunks_length.
    + now apply chunks_Forall_length.
Qed.

Lemma swapaxes12_shape (d0 d1 d2 : nat) (X : list (list (list cell))) :
  List.length X = d0 /\
  Forall (fun plane => List.length plane = d1 /\
                       Forall (fun line => List.length line = d2) plane) X ->
  List.length (swapaxes12 d2 X) = d0 /\
  Forall (fun plane => List.length plane = d2 /\
                       Forall (fun line => List.length line = d1) plane)
         (swapaxes12 d2 X).
Proof.
  intros [H0 H]. unfold swapaxes12. split.
  - now rewrite length_map.
  - apply Forall_map. eapply Forall_impl; [| exact H].
    intros plane [Hp _]. split.
    + now rewrite length_map, length_seq.
    + apply Forall_map. apply Forall_forall. intros j _.
      now rewrite length_map.
Qed.

Lemma Qmult_1_l_eq (q : Q) : (1 * q)%Q = q.
Proof.
  destruct q as [n d]. unfold Qmult; simpl.
  destruct n; reflexivity.
Qed.

Lemma ones_times_spec (n : nat) (tv : Q) : ones_times n tv = repeat tv n.
Proof.
  unfold ones_times. induction n as [| n IH]; simpl; [reflexivity |].
  now rewrite IH, Qmult_1_l_eq.
Qed.

(* ================================================================== *)
(** ** Tensor builder: precondition and shape *)

(** C3. [make_data_array] compares the row count of the table with
    [NUM_POSITIVES * NUM_TIMES] before any table operation: on a mismatch
    it raises with an empty operation log, so no get_dummies, pivot,
    sentinel fill or reshape has run; the exception is the assertion
    failure whenever the column selection of line 109 succeeded and
    [NUM_TIMES] is set. *)
Theorem make_data_array_row_count_abort (self : Dataloader) (src : DataFrame) (tv : Q) :
  (forall nt, NUM_TIMES self = Some nt ->
              List.length (rows src) <> (NUM_POSITIVES self * nt)%nat) ->
  exists e, make_data_array self src tv = ([], Raise e) /\
            (getitems src (attributes self ++ ["time_index"; "objectId"; "filter"])%list = Ok tt ->
             NUM_TIMES self <> None -> e = AssertionError).
Proof.
  intros Hrows. unfold make_data_array, select.
  destruct (getitems src _) as [[] | e] eqn:Hsel; simpl.
  - destruct (NUM_TIMES self) as [nt |] eqn:Hnt; simpl.
    + specialize (Hrows nt eq_refl).
      destruct (Nat.eqb_spec (List.length (rows src)) (NUM_POSITIVES self * nt)) as [E | E];
        [contradiction |].
      simpl. exists AssertionError. split; [reflexivity | intros _ _; reflexivity].
    + exists TypeError. split; [reflexivity | intros _ H; now contradiction H].
  - exists e. split; [reflexivity | intros H; discriminate H].
Qed.

Lemma make_data_array_row_count_abort_witness :
  exists e, make_data_array (loader 1 4 false) one_object 1 = ([], Raise e) /\
            (getitems one_object
               (attributes (loader 1 4 false) ++ ["time_index"; "objectId"; "filter"])%list = Ok tt ->
             NUM_TIMES (loader 1 4 false) <> None -> e = AssertionError).
Proof.
  apply (make_data_array_row_count_abort (loader 1 4 false) one_object 1).
  intros nt H. injection H as <-. simpl. lia.
Defined.

(** What a successful run of the builder went through. *)
Lemma make_data_array_inv (self : Dataloader) (src : DataFrame) (tv : Q) log X y :
  make_data_array self src tv = (log, Ok (X, y)) ->
  exists nt log' T R,
    getitems src (attributes self ++ ["time_index"; "objectId"; "filter"])%list = Ok tt /\
    NUM_TIMES self = Some nt /\
    List.length (rows src) = (NUM_POSITIVES self * nt)%nat /\
    (if onehot_filters self
     then onehot_layout self nt
            {| columns := (attributes self ++ ["time_index"; "objectId"; "filter"])%list;
               rows := rows src |}
     else per_filter_layout self nt
            {| columns := (attributes self ++ ["time_index"; "objectId"; "filter"])%list;
               rows := rows src |}) = (log', Ok T) /\
    reshape (NUM_POSITIVES self)
            (if onehot_filters self
             then (NUM_ATTRIBUTES self + NUM_FILTERS)%nat
             else (NUM_FILTERS * NUM_ATTRIBUTES self)%nat) nt (values (fill_null T)) = Ok R /\
    X = {| dims := (NUM_POSITIVES self, nt,
                    if onehot_filters self
                    then (NUM_ATTRIBUTES self + NUM_FILTERS)%nat
                    else (NUM_FILTERS * NUM_ATTRIBUTES self)%nat);
           items := swapaxes12 nt R |} /\
    y = ones_times (NUM_POSITIVES self) tv.
Proof.
  unfold make_data_array. intros H.
  apply bindM_Ok in H. destruct H as (l1 & src1 & l2 & Hsel & H & _).
  apply lift_Ok in Hsel. destruct Hsel as [Hsel _].
  unfold select in Hsel. apply bind_Ok in Hsel. destruct Hsel as [[] [Hget Hsel]].
  inversion Hsel; subst src1; clear Hsel.
  apply bindM_Ok in H. destruct H as (l3 & nt & l4 & Hnt & H & _).
  apply lift_Ok in Hnt. destruct Hnt as [Hnt _].
  apply bindM_Ok in H. destruct H as (l5 & u & l6 & Hlen & H & _).
  apply lift_Ok in Hlen. destruct Hlen as [Hlen _]. apply assert_Ok in Hlen.
  apply Nat.eqb_eq in Hlen. cbn [rows] in Hlen.
  apply bindM_Ok in H. destruct H as (l7 & t & l8 & Hrun & H & _).
  apply bindM_Ok in H. destruct H as (l9 & t' & l10 & Hfill & H & _).
  apply call_Ok in Hfill. destruct Hfill as [Hfill _]. inversion Hfill; subst t'.
  apply bindM_Ok in H. destruct H as (l11 & R & l12 & Hre & H & _).
  apply call_Ok in Hre. destruct Hre as [Hre _].
  unfold retM in H. inversion H; subst.
  exists nt, l7, t, R.
  destruct (NUM_TIMES self) as [n |]; [| discriminate Hnt].
  inversion Hnt; subst n.
  repeat split; try reflexivity; assumption.
Qed.

(* ================================================================== *)
(** ** Sorted distinct values *)

Lemma Z_total_order : total_order Z.compare.
Proof.
  constructor.
  - intros x y. apply Z.compare_eq.
  - apply Z.compare_refl.
  - intros x y. apply Z.compare_antisym.
  - intros x y z. rewrite !Z.compare_lt_iff. lia.
Qed.

Lemma ascii_compare_refl (a : ascii) : Ascii.compare a a = Eq.
Proof. unfold Ascii.compare. apply N.compare_refl. Qed.

Lemma ascii_compare_trans (a b c : ascii) :
  Ascii.compare a b = Lt -> Ascii.compare b c = Lt -> Ascii.compare a c = Lt.
Proof. unfold Ascii.compare. rewrite !N.compare_lt_iff. lia. Qed.

Lemma string_compare_refl (s : string) : String.compare s s = Eq.
Proof.
  induction s as [| a s IH]; simpl; [reflexivity |].
  now rewrite ascii_compare_refl.
Qed.

Lemma string_compare_trans (s1 s2 s3 : string) :
  String.compare s1 s2 = Lt -> String.compare s2 s3 = Lt -> String.compare s1 s3 = Lt.
Proof.
  revert s2 s3. induction s1 as [| a s1 IH]; intros [| b s2] [| c s3]; simpl;
    try discriminate; try reflexivity.
  destruct (Ascii.compare a b) eqn:Eab; try discriminate;
    destruct (Ascii.compare b c) eqn:Ebc; try discriminate; intros H1 H2.
  - apply Ascii.compare_eq_iff in Eab, Ebc. subst.
    rewrite ascii_compare_refl. eapply IH; eassumption.
  - apply Ascii.compare_eq_iff in Eab. subst. now rewrite Ebc.
  - apply Ascii.compare_eq_iff in Ebc. subst. now rewrite Eab.
  - now rewrite (ascii_compare_trans _ _ _ Eab Ebc).
Qed.

Lemma string_total_order : total_order String.compare.
Proof.
  constructor.
  - apply String.compare_eq_iff.
  - apply string_compare_refl.
  - intros x y. apply String.compare_antisym.
  - apply string_compare_trans.
Qed.

Section SortUniq.
Context {A : Type} (cmp : A -> A -> comparison) (O : total_order cmp).

Lemma lt_by_irrefl (x : A) : ~ lt_by cmp x x.
Proof. unfold lt_by. rewrite (cmp_refl cmp O). discriminate. Qed.

Lemma lt_by_asym (x y : A) : lt_by cmp x y -> ~ lt_by cmp y x.
Proof.
  unfold lt_by. intros H. rewrite (cmp_antisym cmp O), H. discriminate.
Qed.

Lemma cmp_Gt_lt (x y : A) : cmp x y = Gt -> lt_by cmp y x.
Proof. unfold lt_by. intros H. now rewrite (cmp_antisym cmp O), H. Qed.

Lemma insert_uniq_In (x y : A) (l : list A) :
  In y (insert_uniq cmp x l) <-> y = x \/ In y l.
Proof.
  induction l as [| z l IH]; simpl.
  - intuition.
  - destruct (cmp x z) eqn:E; simpl.
    + apply (cmp_eq cmp O) in E. subst z. intuition.
    + intuition.
    + rewrite IH. intuition.
Qed.

Lemma sort_uniq_In (x : A) (l : list A) : In x (sort_uniq cmp l) <-> In x l.
Proof.
  induction l as [| y l IH]; simpl; [reflexivity |].
  rewrite insert_uniq_In, IH. intuition.
Qed.

Lemma insert_uniq_sorted (x : A) (l : list A) :
  StronglySorted (lt_by cmp) l -> StronglySorted (lt_by cmp) (insert_uniq cmp x l).
Proof.
  induction l as [| z l IH]; simpl; intros Hs.
  - constructor; constructor.
  - destruct (cmp x z) eqn:E.
    + exact Hs.
    + constructor; [exact Hs |].
      constructor; [exact E |].
      inversion Hs as [| ? ? _ Hall]; subst.
      eapply Forall_impl; [| exact Hall].
      intros w Hw. exact (cmp_trans cmp O _ _ _ E Hw).
    + inversion Hs as [| ? ? Hs' Hall]; subst.
      constructor; [now apply IH |].
      apply Forall_forall. intros w Hw. apply insert_uniq_In in Hw.
      destruct Hw as [-> | Hw].
      * now apply cmp_Gt_lt.
      * rewrite Forall_forall in Hall. now apply Hall.
Qed.

Lemma sort_uniq_sorted (l : list A) : StronglySorted (lt_by cmp) (sort_uniq cmp l).
Proof.
  induction l as [| x l IH]; simpl; [constructor | now apply insert_uniq_sorted].
Qed.

Lemma sorted_NoDup (l : list A) : StronglySorted (lt_by cmp) l -> NoDup l.
Proof.
  induction 1 as [| x l _ IH Hall]; constructor; [| exact IH].
  intros Hin. rewrite Forall_forall in Hall.
  exact (lt_by_irrefl x (Hall x Hin)).
Qed.

Lemma sort_uniq_NoDup (l : list A) : NoDup (sort_uniq cmp l).
Proof. apply sorted_NoDup, sort_uniq_sorted. Qed.

(** A strictly increasing list is determined by its elements. *)
Lemma sorted_ext (l1 l2 : list A) :
  StronglySorted (lt_by cmp) l1 -> StronglySorted (lt_by cmp) l2 ->
  (forall x, In x l1 <-> In x l2) -> l1 = l2.
Proof.
  intros H1. revert l2. induction H1 as [| x l1 Hs1 IH Hall1]; intros l2 H2 Hext.
  - destruct l2 as [| y l2]; [reflexivity |].
    exfalso. apply (proj2 (Hext y)). now left.
  - destruct H2 as [| y l2 Hs2 Hall2].
    + exfalso. apply (proj1 (Hext x)). now left.
    + rewrite Forall_forall in Hall1, Hall2.
      assert (Hxy : x = y).
      { destruct (proj1 (Hext x) (or_introl eq_refl)) as [E | Hx]; [now symmetry |].
        destruct (proj2 (Hext y) (or_introl eq_refl)) as [E | Hy]; [exact E |].
        exfalso. exact (lt_by_asym _ _ (Hall1 y Hy) (Hall2 x Hx)). }
      subst y. f_equal. apply IH; [exact Hs2 |].
      intros w. split; intros Hw.
      * destruct (proj1 (Hext w) (or_intror Hw)) as [E | Hw2]; [| exact Hw2].
        subst w. exfalso. exact (lt_by_irrefl x (Hall1 x Hw)).
      * destruct (proj2 (Hext w) (or_intror Hw)) as [E | Hw1]; [| exact Hw1].
        subst w. exfalso. exact (lt_by_irrefl x (Hall2 x Hw)).
Qed.

Lemma sort_uniq_ext (l1 l2 : list A) :
  (forall x, In x l1 <-> In x l2) -> sort_uniq cmp l1 = sort_uniq cmp l2.
Proof.
  intros H. apply sorted_ext; try apply sort_uniq_sorted.
  intros x. now rewrite !sort_uniq_In.
Qed.

Lemma sort_uniq_sorted_id (l : list A) :
  StronglySorted (lt_by cmp) l -> sort_uniq cmp l = l.
Proof.
  intros H. apply sorted_ext; [apply sort_uniq_sorted | exact H |].
  intros x. apply sort_uniq_In.
Qed.

Lemma sort_uniq_idem (l : list A) : sort_uniq cmp (sort_uniq cmp l) = sort_uniq cmp l.
Proof. apply sort_uniq_sorted_id, sort_uniq_sorted. Qed.

Lemma sort_uniq_nil_inv (l : list A) : sort_uniq cmp l = [] -> l = [].
Proof.
  destruct l as [| x l]; [reflexivity |]. intros H. exfalso.
  assert (Hin : In x (sort_uniq cmp (x :: l))) by (apply sort_uniq_In; now left).
  rewrite H in Hin. exact Hin.
Qed.
End SortUniq.

(* ================================================================== *)
(** ** The per-filter layout: what a successful run went through *)

Lemma shape_eqb_eq (s1 s2 : nat * nat) : shape_eqb s1 s2 = true -> s1 = s2.
Proof.
  destruct s1, s2. unfold shape_eqb; simpl. intros H.
  apply andb_true_iff in H. destruct H as [H1 H2].
  apply Nat.eqb_eq in H1, H2. now subst.
Qed.

Lemma per_filter_layout_inv (self : Dataloader) (nt : nat) (src : DataFrame) log t :
  per_filter_layout self nt src = (log, Ok t) ->
  exists p1 p2,
    pivot_filters src (attributes self) = Ok p1 /\
    ishape (map_columns filter_attribute p1)
      = (NUM_POSITIVES self * nt, NUM_ATTRIBUTES self * NUM_FILTERS)%nat /\
    pivot_times (reset_index (map_columns filter_attribute p1)) (filtered_attributes self)
      = Ok p2 /\
    t = map_columns time_label p2 /\
    ishape t = (NUM_POSITIVES self, NUM_ATTRIBUTES self * NUM_FILTERS * nt)%nat /\
    log = [PivotTable; PivotTable] /\
    list_eqb String.eqb
      (setdiff1d (columns (reset_index (map_columns filter_attribute p1)))
                 (filtered_attributes self))
      ["objectId"; "time_index"] = true.
Proof.
  unfold per_filter_layout. intros H.
  apply bindM_Ok in H. destruct H as (l1 & p1 & l2 & Hp1 & H & ->).
  apply call_Ok in Hp1. destruct Hp1 as [Hp1 ->].
  apply bindM_Ok in H. destruct H as (l3 & u1 & l4 & Ha1 & H & ->).
  apply lift_Ok in Ha1. destruct Ha1 as [Ha1 ->]. apply assert_Ok, shape_eqb_eq in Ha1.
  apply bindM_Ok in H. destruct H as (l5 & u2 & l6 & Ha2 & H & ->).
  apply lift_Ok in Ha2. destruct Ha2 as [_ ->].
  apply bindM_Ok in H. destruct H as (l7 & u3 & l8 & Ha3 & H & ->).
  apply lift_Ok in Ha3. destruct Ha3 as [Ha3 ->]. apply assert_Ok in Ha3.
  apply bindM_Ok in H. destruct H as (l9 & p2 & l10 & Hp2 & H & ->).
  apply call_Ok in Hp2. destruct Hp2 as [Hp2 ->].
  apply bindM_Ok in H. destruct H as (l11 & u4 & l12 & Ha4 & H & ->).
  apply lift_Ok in Ha4. destruct Ha4 as [_ ->].
  apply bindM_Ok in H. destruct H as (l13 & u5 & l14 & Ha5 & H & ->).
  apply lift_Ok in Ha5. destruct Ha5 as [Ha5 ->]. apply assert_Ok, shape_eqb_eq in Ha5.
  unfold retM in H. inversion H; subst.
  exists p1, p2. repeat split; assumption.
Qed.

Lemma map_fst_combine {A B : Type} (l1 : list A) (l2 : list B) :
  List.length l1 = List.length l2 -> map fst (combine l1 l2) = l1.
Proof.
  revert l2. induction l1 as [| x l1 IH]; intros [| y l2] H; simpl in *;
    try discriminate; [reflexivity |].
  f_equal. apply IH. lia.
Qed.

Lemma reset_index_keys (t : Indexed (Z * Z)) :
  List.length (index t) = List.length (values t) ->
  map objectId (rows (reset_index t)) = map fst (index t) /\
  map time_index (rows (reset_index t)) = map snd (index t).
Proof.
  intros H. unfold reset_index; simpl. rewrite !map_map; simpl.
  rewrite <- (map_fst_combine (index t) (values t) H) at 2 4.
  rewrite !map_map. split; reflexivity.
Qed.

Lemma in_map_fst_prod {A B : Type} (l1 : list A) (l2 : list B) (x : A) :
  In x (map fst (list_prod l1 l2)) <-> In x l1 /\ l2 <> [].
Proof.
  rewrite in_map_iff. split.
  - intros [[a b] [<- Hin]]. apply in_prod_iff in Hin. destruct Hin as [Ha Hb].
    split; [exact Ha |]. intros ->. exact Hb.
  - intros [Ha Hne]. destruct l2 as [| b l2]; [congruence |].
    exists (x, b). split; [reflexivity |]. apply in_prod_iff. split; [exact Ha | now left].
Qed.

Lemma in_map_snd_prod {A B : Type} (l1 : list A) (l2 : list B) (y : B) :
  In y (map snd (list_prod l1 l2)) <-> In y l2 /\ l1 <> [].
Proof.
  rewrite in_map_iff. split.
  - intros [[a b] [<- Hin]]. apply in_prod_iff in Hin. destruct Hin as [Ha Hb].
    split; [exact Hb |]. intros ->. exact Ha.
  - intros [Hb Hne]. destruct l1 as [| a l1]; [congruence |].
    exists (a, y). split; [reflexivity |]. apply in_prod_iff. split; [now left | exact Hb].
Qed.

(** The index levels of the intermediate table are those of the input:
    its rows are the product of the distinct objects and time slots. *)
Lemma levels_of_product (rws : list Row) :
  let objs := sort_uniq Z.compare (map objectId rws) in
  let times := sort_uniq Z.compare (map time_index rws) in
  sort_uniq Z.compare (map fst (list_prod objs times)) = objs /\
  sort_uniq Z.compare (map snd (list_prod objs times)) = times.
Proof.
  intros objs times.
  assert (Hne : objs = [] <-> times = []).
  { unfold objs, times. split; intros H.
    - apply (sort_uniq_nil_inv _ Z_total_order) in H.
      apply map_eq_nil in H. now subst rws.
    - apply (sort_uniq_nil_inv _ Z_total_order) in H.
      apply map_eq_nil in H. now subst rws. }
  split.
  - transitivity (sort_uniq Z.compare objs); [| apply (sort_uniq_idem _ Z_total_order)].
    apply (sort_uniq_ext _ Z_total_order). intros x.
    rewrite in_map_fst_prod. split; [tauto |]. intros Hx. split; [exact Hx |].
    intros Ht. apply Hne in Ht. rewrite Ht in Hx. exact Hx.
  - transitivity (sort_uniq Z.compare times); [| apply (sort_uniq_idem _ Z_total_order)].
    apply (sort_uniq_ext _ Z_total_order). intros x.
    rewrite in_map_snd_prod. split; [tauto |]. intros Hx. split; [exact Hx |].
    intros Ho. apply Hne in Ho. rewrite Ho in Hx. exact Hx.
Qed.

Lemma pivot_filters_Ok (src : DataFrame) (vals : list string) p :
  pivot_filters src vals = Ok p ->
  p = pivot_table pair_eqb String.eqb (fun r => (objectId r, time_index r)) filter
        (list_prod (sort_uniq Z.compare (map objectId (rows src)))
                   (sort_uniq Z.compare (map time_index (rows src))))
        (sort_uniq String.compare (map filter (rows src))) vals (rows src).
Proof.
  unfold pivot_filters. intros H. apply bind_Ok in H. destruct H as [u [_ H]].
  now inversion H.
Qed.

Lemma pivot_times_Ok (src : DataFrame) (vals : list string) p :
  pivot_times src vals = Ok p ->
  p = pivot_table Z.eqb Z.eqb objectId time_index
        (sort_uniq Z.compare (map objectId (rows src)))
        (sort_uniq Z.compare (map time_index (rows src))) vals (rows src).
Proof.
  unfold pivot_times. intros H. apply bind_Ok in H. destruct H as [u [_ H]].
  now inversion H.
Qed.

Lemma sorted_filtered_attributes_length (self : Dataloader) :
  List.length (sort_uniq String.compare (filtered_attributes self))
  = (NUM_ATTRIBUTES self * NUM_FILTERS)%nat.
Proof.
  unfold filtered_attributes, NUM_ATTRIBUTES, attributes.
  destruct (lightcurve_only self); vm_compute; reflexivity.
Qed.

(** The table of a successful per-filter run, in terms of the input. *)
Lemma per_filter_layout_table (self : Dataloader) (nt : nat) (src : DataFrame) log t :
  per_filter_layout self nt src = (log, Ok t) ->
  let objs := sort_uniq Z.compare (map objectId (rows src)) in
  let times := sort_uniq Z.compare (map time_index (rows src)) in
  let filters := sort_uniq String.compare (map filter (rows src)) in
  let p1 := pivot_table pair_eqb String.eqb (fun r => (objectId r, time_index r)) filter
              (list_prod objs times) filters (attributes self) (rows src) in
  t = map_columns time_label
        (pivot_table Z.eqb Z.eqb objectId time_index objs times
           (filtered_attributes self)
           (rows (reset_index (map_columns filter_attribute p1)))) /\
  (List.length objs * List.length times = NUM_POSITIVES self * nt)%nat /\
  List.length objs = NUM_POSITIVES self /\
  (NUM_ATTRIBUTES self * NUM_FILTERS * List.length times
   = NUM_ATTRIBUTES self * NUM_FILTERS * nt)%nat.
Proof.
  intros H objs times filters p1.
  apply per_filter_layout_inv in H.
  destruct H as (q1 & q2 & Hq1 & Hs1 & Hq2 & -> & Hs2 & _ & _).
  apply pivot_filters_Ok in Hq1. fold objs times filters in Hq1. fold p1 in Hq1. subst q1.
  apply pivot_times_Ok in Hq2.
  assert (Hlen : List.length (index (map_columns filter_attribute p1))
                 = List.length (values (map_columns filter_attribute p1))).
  { simpl. now rewrite length_map. }
  destruct (reset_index_keys _ Hlen) as [Ho Ht].
  rewrite Ho, Ht in Hq2. simpl in Hq2.
  destruct (levels_of_product (rows src)) as [Eo Et].
  fold objs times in Eo, Et. rewrite Eo, Et in Hq2. subst q2.
  split; [reflexivity |].
  unfold ishape in Hs1, Hs2. simpl in Hs1, Hs2.
  injection Hs1 as Hr1 Hc1. injection Hs2 as Hr2 Hc2.
  rewrite length_prod in Hr1.
  rewrite length_map, length_prod in Hc2.
  rewrite sorted_filtered_attributes_length in Hc2.
  repeat split; assumption.
Qed.

(* ================================================================== *)
(** ** Column order after the second pivot *)

Lemma sort_uniq_Permutation {A : Type} (cmp : A -> A -> comparison) (O : total_order cmp)
    (l : list A) :
  NoDup l -> Permutation (sort_uniq cmp l) l.
Proof.
  intros H. apply NoDup_Permutation; [apply (sort_uniq_NoDup cmp O) | exact H |].
  intros x. apply (sort_uniq_In cmp O).
Qed.

Lemma list_prod_Permutation_l {A B : Type} (l1 l1' : list A) (l2 : list B) :
  Permutation l1 l1' -> Permutation (list_prod l1 l2) (list_prod l1' l2).
Proof.
  induction 1 as [| x l l' _ IH | x y l | l l' l'' _ IH1 _ IH2]; simpl.
  - constructor.
  - now apply Permutation_app_head.
  - rewrite !app_assoc. apply Permutation_app_tail, Permutation_app_comm.
  - now transitivity (list_prod l' l2).
Qed.

Lemma mem_In (s : string) (l : list string) : mem s l = true <-> In s l.
Proof.
  unfold mem. rewrite existsb_exists. split.
  - intros [x [Hin E]]. apply String.eqb_eq in E. now subst.
  - intros H. exists s. split; [exact H | apply String.eqb_refl].
Qed.

Lemma nodupb_NoDup (l : list string) : nodupb l = true -> NoDup l.
Proof.
  induction l as [| x l IH]; simpl; intros H; constructor.
  - apply andb_true_iff in H. destruct H as [H _].
    intros Hin. apply mem_In in Hin. now rewrite Hin in H.
  - apply IH. apply andb_true_iff in H. tauto.
Qed.

Lemma filtered_attributes_NoDup (self : Dataloader) : NoDup (filtered_attributes self).
Proof.
  apply nodupb_NoDup. unfold filtered_attributes, attributes.
  destruct (lightcurve_only self); vm_compute; reflexivity.
Qed.

Lemma list_prod_map_r {A B C : Type} (g : B -> C) (l1 : list A) (l2 : list B) :
  list_prod l1 (map g l2) = map (fun ab => (fst ab, g (snd ab))) (list_prod l1 l2).
Proof.
  induction l1 as [| a l1 IH]; simpl; [reflexivity |].
  rewrite map_app, IH, !map_map. reflexivity.
Qed.

Lemma timed_filtered_attributes_eq (self : Dataloader) (nt : nat) :
  timed_filtered_attributes self nt
  = map time_label (list_prod (filtered_attributes self) (map Z.of_nat (seq 0 nt))).
Proof.
  unfold timed_filtered_attributes. rewrite list_prod_map_r, map_map. reflexivity.
Qed.

(** C1 (as amended). After the second pivot of a successful per-filter
    run, the column labels are the time labels of the product of the
    lexicographically sorted filter_attribute names with the ascending
    distinct time indices of the table: pandas sorts the column index, the
    declared order of [timed_filtered_attributes] plays no part.  When the
    time indices are 0 .. NUM_TIMES-1 the labels are a rearrangement of the
    declared list. *)
Theorem second_pivot_column_order (self : Dataloader) (nt : nat) (src : DataFrame) log t :
  per_filter_layout self nt src = (log, Ok t) ->
  labels t = map time_label
               (list_prod (sort_uniq String.compare (filtered_attributes self))
                          (sort_uniq Z.compare (map time_index (rows src)))) /\
  (sort_uniq Z.compare (map time_index (rows src)) = map Z.of_nat (seq 0 nt) ->
   Permutation (labels t) (timed_filtered_attributes self nt)).
Proof.
  intros H. apply per_filter_layout_table in H. destruct H as (-> & _).
  simpl. split; [reflexivity |].
  intros ->. rewrite timed_filtered_attributes_eq.
  apply Permutation_map, list_prod_Permutation_l.
  apply (sort_uniq_Permutation _ string_total_order), filtered_attributes_NoDup.
Qed.

Lemma second_pivot_column_order_witness :
  exists log t,
    per_filter_layout (loader 1 5 false) 5 one_object = (log, Ok t) /\
    firstn 6 (labels t)
      = ["0-g_apMag"; "1-g_apMag"; "2-g_apMag"; "3-g_apMag"; "4-g_apMag"; "0-g_apMagErr"] /\
    Permutation (labels t) (timed_filtered_attributes (loader 1 5 false) 5).
Proof.
  destruct (per_filter_layout (loader 1 5 false) 5 one_object) as [log [t | e]] eqn:E.
  - exists log, t. split; [reflexivity |].
    destruct (second_pivot_column_order _ _ _ _ _ E) as [Hl Hp].
    split; [rewrite Hl; vm_compute; reflexivity | apply Hp; vm_compute; reflexivity].
  - vm_compute in E. discriminate E.
Defined.

(** C1, the claim as stated fails: on a table that passes every
    assertion, the first column after the second pivot is "0-g_apMag"
    while the declared list starts with "0-u_apMag". *)
Lemma second_pivot_order_differs_from_declared :
  exists log t,
    per_filter_layout (loader 1 5 false) 5 one_object = (log, Ok t) /\
    hd "" (labels t) = "0-g_apMag" /\
    hd "" (timed_filtered_attributes (loader 1 5 false) 5) = "0-u_apMag" /\
    labels t <> timed_filtered_attributes (loader 1 5 false) 5.
Proof.
  destruct (per_filter_layout (loader 1 5 false) 5 one_object) as [log [t | e]] eqn:E;
    vm_compute in E; [| discriminate E].
  injection E as <- <-.
  eexists _, _. split; [reflexivity |].
  split; [reflexivity |]. split; [reflexivity |].
  intros H. discriminate H.
Qed.

(* ================================================================== *)
(** ** Dataset assembler: the shuffle *)

Lemma take_map {A : Type} (a : list A) (p : list nat) (d : A) :
  Forall (fun j => j < List.length a)%nat p ->
  take a p = Ok (map (fun j => nth j a d) p).
Proof.
  induction 1 as [| j p Hj _ IH]; simpl; [reflexivity |].
  destruct (nth_error a j) as [x |] eqn:E.
  - rewrite IH. simpl. now rewrite (nth_error_nth _ _ d E).
  - apply nth_error_None in E. lia.
Qed.

Lemma map_nth_seq {A : Type} (l : list A) (d : A) :
  map (fun j => nth j l d) (seq 0 (List.length l)) = l.
Proof.
  induction l as [| x l IH]; simpl; [reflexivity |].
  f_equal. rewrite <- seq_shift, map_map. exact IH.
Qed.

Lemma map_nth_combine {A B : Type} (a : list A) (b : list B) (p : list nat) (da : A) (db : B) :
  List.length a = List.length b ->
  combine (map (fun j => nth j a da) p) (map (fun j => nth j b db) p)
  = map (fun j => nth j (combine a b) (da, db)) p.
Proof.
  intros Hlen. induction p as [| j p IH]; simpl; [reflexivity |].
  rewrite IH. f_equal. now rewrite combine_nth.
Qed.

Section Shuffle.
Context {G : Type} (np_seed : Z -> G) (np_permutation : G -> nat -> list nat * G).
Hypothesis np_permutation_spec :
  forall g n, Permutation (fst (np_permutation g n)) (seq 0 n).

(** C5. [shuffle_data] indexes the tensor and the label vector by one
    permutation [p] of the index range: entry [i] of both results is
    entry [p i] of the inputs, so the pairs (object, label) are kept and
    only rearranged; and since [combine_lens_nonlens] re-seeds the
    generator, the assembled and shuffled result does not depend on the
    generator state the run started in. *)
Theorem shuffle_data_index_consistent (self : Dataloader) (X : ndarray) (y : list Q) (g : G) :
  List.length (items X) = (2 * NUM_POSITIVES self)%nat ->
  List.length y = (2 * NUM_POSITIVES self)%nat ->
  exists g' X' y',
    shuffle_data np_permutation self X y g = Ok (g', (X', y')) /\
    List.length (items X') = (2 * NUM_POSITIVES self)%nat /\
    List.length y' = (2 * NUM_POSITIVES self)%nat /\
    (forall i, (i < 2 * NUM_POSITIVES self)%nat ->
       exists j, nth_error (fst (np_permutation g (2 * NUM_POSITIVES self))) i = Some j /\
                 (j < 2 * NUM_POSITIVES self)%nat /\
                 nth_error (items X') i = nth_error (items X) j /\
                 nth_error y' i = nth_error y j) /\
    Permutation (combine (items X') y') (combine (items X) y) /\
    (forall ld nd g1 g2,
       (r <- combine_lens_nonlens np_seed self ld nd g1 ;;
        shuffle_data np_permutation self (fst (snd r)) (snd (snd r)) (fst r))
       = (r <- combine_lens_nonlens np_seed self ld nd g2 ;;
          shuffle_data np_permutation self (fst (snd r)) (snd (snd r)) (fst r))).
Proof.
  intros HX Hy. unfold shuffle_data.
  pose proof (np_permutation_spec g (2 * NUM_POSITIVES self)) as Hp.
  destruct (np_permutation g (2 * NUM_POSITIVES self)) as [p g'] eqn:Eperm.
  simpl in Hp. set (n := (2 * NUM_POSITIVES self)%nat) in *.
  assert (Hlenp : List.length p = n).
  { rewrite (Permutation_length Hp). apply length_seq. }
  assert (Hin : forall j, In j p -> (j < n)%nat).
  { intros j Hj. apply (Permutation_in _ Hp) in Hj. apply in_seq in Hj. lia. }
  assert (HpX : Forall (fun j => j < List.length (items X))%nat p).
  { apply Forall_forall. intros j Hj. rewrite HX. now apply Hin. }
  assert (Hpy : Forall (fun j => j < List.length y)%nat p).
  { apply Forall_forall. intros j Hj. rewrite Hy. now apply Hin. }
  rewrite (take_map (items X) p [] HpX). simpl.
  rewrite (take_map y p 0%Q Hpy). simpl.
  eexists _, _, _. split; [reflexivity |]. simpl.
  split; [now rewrite length_map |]. split; [now rewrite length_map |].
  split; [| split].
  - intros i Hi.
    destruct (nth_error p i) as [j |] eqn:Ej;
      [| apply nth_error_None in Ej; lia].
    exists j. split; [reflexivity |].
    assert (Hj : (j < n)%nat) by (apply Hin; eapply nth_error_In; eassumption).
    split; [exact Hj |].
    rewrite !nth_error_map, Ej; simpl.
    split; symmetry; apply nth_error_nth'; lia.
  - rewrite (map_nth_combine (items X) y p [] 0%Q) by lia.
    transitivity (map (fun j => nth j (combine (items X) y) ([], 0%Q))
                      (seq 0 (List.length (combine (items X) y)))).
    + apply Permutation_map.
      rewrite length_combine, HX, Hy, Nat.min_id. exact Hp.
    + now rewrite map_nth_seq.
  - intros [Xl yl] [Xn yn] g1 g2. reflexivity.
Qed.
End Shuffle.

Lemma shuffle_data_index_consistent_witness :
  exists g' X' y',
    shuffle_data toy_permutation (loader 1 5 false) two_planes [1%Q; 0%Q] 0%nat
    = Ok (g', (X', y')) /\
    items X' = [[[Some 20%Q]]; [[Some 10%Q]]] /\ y' = [0%Q; 1%Q].
Proof.
  destruct (shuffle_data_index_consistent toy_seed toy_permutation
              (fun g n => Permutation_sym (Permutation_rev (seq 0 n)))
              (loader 1 5 false) two_planes [1%Q; 0%Q] 0%nat eq_refl eq_refl)
    as (g' & X' & y' & Hrun & _).
  exists g', X', y'. split; [exact Hrun |].
  vm_compute in Hrun. injection Hrun as _ <- <-. split; reflexivity.
Defined.

(* ================================================================== *)
(** ** Feature deriver *)

Lemma getitem_Ok (df : DataFrame) (l : string) (u : unit) :
  getitem df l = Ok u -> mem l (columns df) = true.
Proof. unfold getitem. destruct (mem l (columns df)); [reflexivity | discriminate]. Qed.

Lemma getitem_mem (df : DataFrame) (l : string) :
  mem l (columns df) = true -> getitem df l = Ok tt.
Proof. unfold getitem. now intros ->. Qed.

Lemma mem_add_label (l l' : string) (cols : list string) :
  mem l cols = true -> mem l (add_label l' cols) = true.
Proof.
  unfold add_label. destruct (mem l' cols); [trivial |].
  intros H. apply mem_In. apply in_or_app. left. now apply mem_In.
Qed.

Lemma mem_add_label_same (l : string) (cols : list string) :
  mem l (add_label l cols) = true.
Proof.
  unfold add_label. destruct (mem l cols) eqn:E; [exact E |].
  apply mem_In. apply in_or_app. right. now left.
Qed.

Lemma setitem_num_map (df : DataFrame) (l : string) (f : Row -> cell) :
  rows (setitem_num df l (map f (rows df))) = map (fun r => set_num l (f r) r) (rows df).
Proof.
  unfold setitem_num; simpl.
  induction (rows df) as [| r rs IH]; simpl; [reflexivity | now rewrite IH].
Qed.

Lemma combine_map_r {A B : Type} (f : A -> B) (l : list A) :
  combine l (map f l) = map (fun x => (x, f x)) l.
Proof. induction l as [| x l IH]; simpl; [reflexivity | now rewrite IH]. Qed.



Lemma insert_stable_In {A : Type} (cmp : A -> A -> comparison) (x y : A) (l : list A) :
  In y (insert_stable cmp x l) <-> y = x \/ In y l.
Proof.
  induction l as [| z l IH]; simpl; [intuition |].
  destruct (cmp x z); simpl; try rewrite IH; intuition.
Qed.

Lemma sort_stable_In {A : Type} (cmp : A -> A -> comparison) (y : A) (l : list A) :
  In y (sort_stable cmp l) <-> In y l.
Proof.
  induction l as [| x l IH]; simpl; [reflexivity |].
  rewrite insert_stable_In, IH. intuition.
Qed.


(** *** The blocks of the loop body *)

Lemma add_e_phi_Ok (ephi : cell -> cell -> cell * cell) (src s1 : DataFrame) :
  add_e_phi ephi src = Ok s1 ->
  columns s1 = add_label "phi" (add_label "e" (columns src)) /\
  rows s1 = map (fun r => set_num "phi" (snd (ephi (num r "e1") (num r "e2")))
                            (set_num "e" (fst (ephi (num r "e1") (num r "e2"))) r))
                (rows src).
Proof.
  unfold add_e_phi. intros H.
  apply bind_Ok in H. destruct H as [u1 [_ H]].
  apply bind_Ok in H. destruct H as [u2 [_ H]].
  cbv zeta in H. inversion H; subst s1; clear H.
  split; [reflexivity |].
  rewrite !map_map. unfold setitem_num at 1. cbn [rows].
  rewrite setitem_num_map.
  induction (rows src) as [| r rs IH]; simpl; [reflexivity | now rewrite IH].
Qed.

Lemma add_e_phi_total (ephi : cell -> cell -> cell * cell) (src : DataFrame) :
  mem "e1" (columns src) = true -> mem "e2" (columns src) = true ->
  exists s1, add_e_phi ephi src = Ok s1.
Proof.
  intros H1 H2. unfold add_e_phi.
  rewrite (getitem_mem _ _ H1), (getitem_mem _ _ H2). simpl. eexists; reflexivity.
Qed.

Lemma rebase_MJD_Ok (src s2 : DataFrame) :
  rebase_MJD src = Ok s2 ->
  exists m, np_min (map MJD (rows src)) = Ok m /\
            columns s2 = columns src /\
            rows s2 = map (fun r => set_MJD (MJD r - m)%Q r) (rows src).
Proof.
  unfold rebase_MJD. intros H.
  apply bind_Ok in H. destruct H as [u [_ H]].
  apply bind_Ok in H. destruct H as [m [Hm H]].
  inversion H; subst s2. exists m. repeat split; assumption.
Qed.

Lemma rebase_MJD_total (src : DataFrame) :
  mem "MJD" (columns src) = true -> rows src <> [] ->
  exists s2, rebase_MJD src = Ok s2.
Proof.
  intros H1 H2. unfold rebase_MJD. rewrite (getitem_mem _ _ H1). simpl.
  destruct (rows src) as [| r rs] eqn:E; [congruence |]. simpl. eexists; reflexivity.
Qed.

Lemma add_time_index_Ok (self : Dataloader) (src s3 : DataFrame) :
  add_time_index self src = Ok s3 ->
  exists nt tis,
    NUM_TIMES self = Some nt /\
    astype_int (map (fun r => assoc Z.eqb (ccdVisitId r)
                                (combine (sort_uniq Z.compare (map ccdVisitId (rows src)))
                                         (seq 0 nt)))
                    (rows src)) = Ok tis /\
    columns s3 = add_label "time_index" (columns src) /\
    rows s3 = map (fun rt => set_time_index (snd rt) (fst rt)) (combine (rows src) tis).
Proof.
  unfold add_time_index. intros H.
  apply bind_Ok in H. destruct H as [u [_ H]].
  cbv zeta in H.
  apply bind_Ok in H. destruct H as [times [Hr H]].
  apply bind_Ok in H. destruct H as [tis [Ha H]].
  unfold range in Hr. destruct (NUM_TIMES self) as [nt |]; [| discriminate Hr].
  inversion Hr; subst times. inversion H; subst s3.
  exists nt, tis. repeat split; assumption.
Qed.

Lemma add_d_time_Ok (src s4 : DataFrame) (sorted : list Row) (mjd diffs : list cell) :
  add_d_time src = Ok s4 ->
  sorted = sort_stable by_object_filter_MJD (rows src) ->
  mjd = map (fun r => Some (MJD r)) sorted ->
  diffs = map (fun ab => cell_sub (fst ab) (snd ab)) (combine mjd (shift1 mjd)) ->
  columns s4 = add_label "d_time" (add_label "d_time" (add_label "d_time" (columns src))) /\
  rows s4 = map (fun rv => set_num "d_time" (clip_min 0 (fillna 0 (snd rv)))
                             (set_num "d_time" (fillna 0 (snd rv))
                                (set_num "d_time" (snd rv) (fst rv))))
                (combine sorted diffs).
Proof.
  unfold add_d_time. intros H Hs Hm Hd.
  apply bind_Ok in H. destruct H as [u [_ H]].
  cbv zeta in H. inversion H; subst s4; clear H.
  split; [reflexivity |].
  subst diffs mjd sorted. unfold setitem_num. cbn [rows].
  rewrite !combine_map_r, !map_map.
  apply map_ext. intros [r v]. cbn [fst snd num set_num].
  rewrite !String.eqb_refl. reflexivity.
Qed.

Lemma drop_rows (labels : list string) (df df' : DataFrame) :
  drop df labels = Ok df' -> rows df' = rows df.
Proof.
  revert df. induction labels as [| l ls IH]; simpl; intros df H.
  - now inversion H.
  - apply bind_Ok in H. destruct H as [u [_ H]]. now apply IH in H.
Qed.

Lemma drop_MJD_ccdVisitId (df df' : DataFrame) :
  drop df ["MJD"; "ccdVisitId"] = Ok df' ->
  columns df' = List.filter (fun c => negb (String.eqb c "ccdVisitId"))
                  (List.filter (fun c => negb (String.eqb c "MJD")) (columns df)).
Proof.
  simpl. intros H.
  apply bind_Ok in H. destruct H as [u1 [_ H]].
  apply bind_Ok in H. destruct H as [u2 [_ H]].
  now inversion H.
Qed.

(** *** The time index *)


Lemma assoc_combine_seq_Some (ks : list Z) (s n : nat) (x : Z) (k : nat) :
  assoc Z.eqb x (combine ks (seq s n)) = Some k -> (s <= k < s + n)%nat.
Proof.
  revert s n. induction ks as [| a ks IH]; intros s n; simpl; [discriminate |].
  destruct n as [| n]; simpl; [discriminate |].
  destruct (Z.eqb x a).
  - intros H; inversion H; subst. lia.
  - intros H. apply IH in H. lia.
Qed.

Lemma Forall_map_combine_fst {A B C : Type} (P : C -> Prop) (f : A * B -> C)
    (l1 : list A) (l2 : list B) :
  (forall a b, In a l1 -> In b l2 -> P (f (a, b))) ->
  Forall P (map f (combine l1 l2)).
Proof.
  intros H. apply Forall_forall. intros c Hc. apply in_map_iff in Hc.
  destruct Hc as [[a b] [<- Hin]].
  apply H; [eapply in_combine_l | eapply in_combine_r]; eassumption.
Qed.




Lemma set_additional_columns_unfold (ephi : cell -> cell -> cell * cell)
    (self : Dataloader) (lens nonlens : loc) (s : store) :
  set_additional_columns ephi self lens nonlens s
  = (df1 <- augment ephi self (heap s lens) ;;
     df2 <- augment ephi self (heap (put lens df1 s) nonlens) ;;
     Ok (put nonlens df2 (put lens df1 s), (lens, nonlens))).
Proof.
  unfold set_additional_columns, augment_each.
  destruct (augment ephi self (heap s lens)) as [df1 | e]; cbn [bind]; [| reflexivity].
  destruct (augment ephi self (heap (put lens df1 s) nonlens)); reflexivity.
Qed.

Lemma set_additional_columns_Ok (ephi : cell -> cell -> cell * cell) (self : Dataloader)
    (lens nonlens : loc) (s s' : store) (r : loc * loc) :
  set_additional_columns ephi self lens nonlens s = Ok (s', r) ->
  exists df1 df2,
    augment ephi self (heap s lens) = Ok df1 /\
    augment ephi self (heap (put lens df1 s) nonlens) = Ok df2 /\
    s' = put nonlens df2 (put lens df1 s) /\ r = (lens, nonlens).
Proof.
  rewrite set_additional_columns_unfold. intros H.
  apply bind_Ok in H. destruct H as [df1 [H1 H]].
  apply bind_Ok in H. destruct H as [df2 [H2 H]].
  inversion H; subst. exists df1, df2. repeat split; assumption.
Qed.



(** *** In-place derivation *)

Lemma mem_add_label_neq (l l' : string) (cols : list string) :
  String.eqb l l' = false -> mem l (add_label l' cols) = mem l cols.
Proof.
  intros H. unfold add_label. destruct (mem l' cols); [reflexivity |].
  unfold mem. rewrite existsb_app. simpl. rewrite H. now rewrite !orb_false_r.
Qed.

Lemma mem_filter_neq (l x : string) (cols : list string) :
  mem l (List.filter (fun c => negb (String.eqb c x)) cols)
  = mem l cols && negb (String.eqb l x).
Proof.
  induction cols as [| c cols IH]; simpl; [reflexivity |].
  destruct (String.eqb_spec c x) as [-> | Hcx]; simpl.
  - rewrite IH. destruct (String.eqb_spec l x) as [-> | _]; simpl.
    + now rewrite !andb_false_r.
    + now rewrite !andb_true_r.
  - rewrite IH. destruct (String.eqb_spec l c) as [-> | _]; simpl; [| reflexivity].
    destruct (String.eqb_spec c x); [contradiction | reflexivity].
Qed.

Lemma rebase_MJD_mem (src s2 : DataFrame) :
  rebase_MJD src = Ok s2 -> mem "MJD" (columns src) = true.
Proof.
  unfold rebase_MJD. intros H. apply bind_Ok in H. destruct H as [u [H _]].
  now apply getitem_Ok in H.
Qed.

Lemma augment_columns (ephi : cell -> cell -> cell * cell) (self : Dataloader)
    (src df' : DataFrame) :
  augment ephi self src = Ok df' ->
  mem "MJD" (columns src) = true /\ augmented_columns df'.
Proof.
  unfold augment. intros H.
  apply bind_Ok in H. destruct H as [s1 [H1 H]].
  apply bind_Ok in H. destruct H as [s2 [H2 H]].
  apply bind_Ok in H. destruct H as [s3 [H3 H]].
  apply bind_Ok in H. destruct H as [s4 [H4 H]].
  apply drop_MJD_ccdVisitId in H.
  destruct (add_e_phi_Ok _ _ _ H1) as [Hc1 _].
  pose proof (rebase_MJD_mem _ _ H2) as Hm.
  destruct (rebase_MJD_Ok _ _ H2) as (m & _ & Hc2 & _).
  destruct (add_time_index_Ok _ _ _ H3) as (nt & tis & _ & _ & Hc3 & _).
  destruct (add_d_time_Ok _ _ _ _ _ H4 eq_refl eq_refl eq_refl) as [Hc4 _].
  split.
  - rewrite Hc1 in Hm. now rewrite !mem_add_label_neq in Hm.
  - unfold augmented_columns. rewrite H, Hc4, Hc3, Hc2, Hc1.
    rewrite !mem_filter_neq. cbn [String.eqb Ascii.eqb Bool.eqb negb andb].
    rewrite !andb_true_r.
    repeat split;
      repeat (first [ reflexivity
                    | apply mem_add_label_same
                    | apply andb_false_r
                    | apply mem_add_label ]).
Qed.




(** *** The time deltas *)

Lemma clip_fillna_nonneg (v : cell) :
  exists q, clip_min 0 (fillna 0 v) = Some q /\ (0 <= q)%Q.
Proof.
  destruct v as [x |]; simpl.
  - destruct (Qle_bool 0 x) eqn:E.
    + exists x. split; [reflexivity | now apply Qle_bool_iff].
    + exists 0%Q. split; [reflexivity | apply Qle_refl].
  - exists 0%Q. split; [reflexivity | apply Qle_refl].
Qed.

(** No derived delta is negative or NaN, whatever the input. *)
Lemma augment_d_time_nonneg (ephi : cell -> cell -> cell * cell) (self : Dataloader)
    (src df' : DataFrame) :
  augment ephi self src = Ok df' ->
  Forall (fun r => exists q, num r "d_time" = Some q /\ (0 <= q)%Q) (rows df').
Proof.
  unfold augment. intros H.
  apply bind_Ok in H. destruct H as [s1 [_ H]].
  apply bind_Ok in H. destruct H as [s2 [_ H]].
  apply bind_Ok in H. destruct H as [s3 [_ H]].
  apply bind_Ok in H. destruct H as [s4 [H4 H]].
  apply drop_rows in H. rewrite H.
  destruct (add_d_time_Ok _ _ _ _ _ H4 eq_refl eq_refl eq_refl) as [_ ->].
  apply Forall_map_combine_fst. intros r v _ _. cbn [num set_num fst snd].
  rewrite String.eqb_refl. apply clip_fillna_nonneg.
Qed.

(** C6, the code at the failing input: the deltas are taken between
    consecutive rows of the whole sorted table, not within a group, so the
    first r observation of object 1 (rebased MJD 5) gets the time elapsed
    since the last g observation (rebased MJD 1), which is 4 and not 0. *)
Theorem d_time_crosses_group_boundary (ephi : cell -> cell -> cell * cell) :
  exists df',
    augment ephi (loader 1 4 false) g_then_r = Ok df' /\
    map (fun r => (objectId r, filter r, num r "d_time")) (rows df')
    = [(1%Z, "g", Some 0%Q); (1%Z, "g", Some 1%Q);
       (1%Z, "r", Some 4%Q); (1%Z, "r", Some 1%Q)].
Proof.
  destruct (augment ephi (loader 1 4 false) g_then_r) as [df' | e] eqn:E;
    vm_compute in E; [| discriminate E].
  injection E as <-. eexists. split; reflexivity.
Qed.

(* ================================================================== *)
(** ** Balancer *)

Lemma below_true (cutoff : option Q) (m : Q) :
  below cutoff m = true ->
  match cutoff with Some c => (m < c)%Q | None => True end.
Proof.
  destruct cutoff as [c |]; simpl; [| trivial].
  intros H. apply negb_true_iff in H.
  apply Qnot_le_lt. intros Hle. apply Qle_bool_iff in Hle. congruence.
Qed.

Lemma query_inplace_Ok (l : loc) (cutoff : option Q) (s s' : store) :
  query_inplace l cutoff s = Ok s' ->
  s' = put l {| columns := columns (heap s l);
                rows := List.filter (fun r => below cutoff (MJD r)) (rows (heap s l)) |} s.
Proof.
  unfold query_inplace. destruct (mem "MJD" (columns (heap s l))); [| discriminate].
  intros H. now inversion H.
Qed.

Lemma filter_below_cutoff (cutoff : option Q) (cols : list string) (rs : list Row) :
  below_cutoff cutoff
    {| columns := cols; rows := List.filter (fun r => below cutoff (MJD r)) rs |}.
Proof.
  unfold below_cutoff; simpl. apply Forall_forall. intros r Hr.
  apply filter_In in Hr. destruct Hr as [_ Hr]. now apply below_true.
Qed.

Lemma below_cutoff_filter (cutoff : option Q) (df : DataFrame) (cols : list string)
    (p : Row -> bool) :
  below_cutoff cutoff df ->
  below_cutoff cutoff {| columns := cols; rows := List.filter p (rows df) |}.
Proof.
  unfold below_cutoff; simpl. rewrite !Forall_forall. intros H r Hr.
  apply filter_In in Hr. now apply H.
Qed.

Lemma nunique_MJD_Ok (df : DataFrame) (n : nat) :
  nunique_MJD df = Ok n -> n = distinct_MJD df.
Proof.
  unfold nunique_MJD. intros H. apply bind_Ok in H. destruct H as [u [_ H]].
  now inversion H.
Qed.

(** C2 (as amended). When [set_balance] returns, it returns the lens
    reference it was given and a fresh reference for the non-lens table;
    in both returned tables every timestamp is below the cutoff and the row
    counts are identical; the counts of distinct MJD values agree, and
    equal NUM_TIMES, for the two cutoff-filtered tables, that is the lens
    table and the non-lens table before its truncation to the first
    NUM_POSITIVES objects (the returned non-lens table is the part of it
    belonging to those objects). *)
Theorem set_balance_balanced (self self' : Dataloader) (lens nonlens : loc)
    (cutoff : option Q) (s s' : store) (rl rn : loc) :
  (lens < next s)%nat -> (nonlens < next s)%nat ->
  set_balance self lens nonlens cutoff s = Ok (self', s', (rl, rn)) ->
  rl = lens /\ rn = next s /\
  below_cutoff cutoff (heap s' rl) /\
  below_cutoff cutoff (heap s' rn) /\
  List.length (rows (heap s' rl)) = List.length (rows (heap s' rn)) /\
  NUM_TIMES self' = Some (distinct_MJD (heap s' lens)) /\
  distinct_MJD (heap s' nonlens) = distinct_MJD (heap s' lens) /\
  rows (heap s' rn)
  = List.filter (fun r => isin (firstn (NUM_POSITIVES self)
                                  (unique Z.eqb (map objectId (rows (heap s' nonlens)))))
                               (objectId r))
                (rows (heap s' nonlens)).
Proof.
  intros Hl Hn. unfold set_balance. intros H.
  apply bind_Ok in H. destruct H as [s1 [Hq1 H]].
  apply bind_Ok in H. destruct H as [s2 [Hq2 H]].
  apply bind_Ok in H. destruct H as [n [Hn0 H]].
  apply bind_Ok in H. destruct H as [n1 [Hn1 H]].
  apply bind_Ok in H. destruct H as [n2 [Hn2 H]].
  apply bind_Ok in H. destruct H as [u1 [Ha1 H]].
  apply bind_Ok in H. destruct H as [u2 [_ H]].
  cbv zeta in H. unfold alloc in H.
  apply bind_Ok in H. destruct H as [u3 [Ha2 H]].
  inversion H; subst self' s' rl rn; clear H.
  apply nunique_MJD_Ok in Hn0, Hn1, Hn2. apply assert_Ok, Nat.eqb_eq in Ha1.
  apply assert_Ok, shape_eqb_eq in Ha2.
  apply query_inplace_Ok in Hq1, Hq2.
  assert (Hnext : next s2 = next s) by (subst s2 s1; reflexivity).
  assert (Hfl : forall l, (l < next s)%nat -> (l =? next s2)%nat = false).
  { intros l Hlt. rewrite Hnext. apply Nat.eqb_neq. lia. }
  cbn [heap] in *. rewrite !Nat.eqb_refl in *. rewrite !(Hfl lens Hl) in *.
  rewrite !(Hfl nonlens Hn).
  assert (Hbl : below_cutoff cutoff (heap s2 lens)).
  { subst s2. cbn [heap put]. rewrite Nat.eqb_refl. apply filter_below_cutoff. }
  assert (Hbn : below_cutoff cutoff (heap s2 nonlens)).
  { subst s2. cbn [heap put]. destruct (nonlens =? lens)%nat.
    - apply filter_below_cutoff.
    - subst s1. cbn [heap put]. rewrite Nat.eqb_refl. apply filter_below_cutoff. }
  split; [reflexivity |]. split; [now rewrite Hnext |].
  split; [exact Hbl |].
  split; [now apply below_cutoff_filter |].
  split.
  { unfold shape in Ha2. cbn [rows columns] in Ha2. now injection Ha2 as Hrows _. }
  split; [cbn [set_NUM_TIMES NUM_TIMES]; congruence |].
  split; [congruence | reflexivity].
Qed.

Lemma set_balance_balanced_witness :
  exists self' s',
    set_balance (loader 2 0 false) 0%nat 1%nat None lens_and_nonlens
    = Ok (self', s', (0%nat, 2%nat)) /\
    List.length (rows (heap s' 0%nat)) = List.length (rows (heap s' 2%nat)) /\
    NUM_TIMES self' = Some 3%nat /\
    distinct_MJD (heap s' 1%nat) = distinct_MJD (heap s' 0%nat).
Proof.
  destruct (set_balance (loader 2 0 false) 0%nat 1%nat None lens_and_nonlens)
    as [[[self' s'] [rl rn]] | e] eqn:E.
  - assert (H0 : (0 < next lens_and_nonlens)%nat) by (simpl; lia).
    assert (H1 : (1 < next lens_and_nonlens)%nat) by (simpl; lia).
    destruct (set_balance_balanced _ _ _ _ _ _ _ _ _ H0 H1 E)
      as (-> & -> & _ & _ & Hlen & Hnt & Hd & _).
    exists self', s'. split; [reflexivity |]. split; [exact Hlen |].
    split; [| exact Hd].
    rewrite Hnt. vm_compute in E. injection E as _ <-. reflexivity.
  - vm_compute in E. discriminate E.
Defined.

(** C2, the claim as stated fails: [set_balance] returns, the returned
    lens table has 3 distinct MJD values, the returned non-lens table
    only 2, because the one object seen at the third MJD was cut off by
    the truncation to NUM_POSITIVES = 2 objects after the count was
    checked. *)
Lemma set_balance_distinct_times_differ :
  exists self' s',
    set_balance (loader 2 0 false) 0%nat 1%nat None lens_and_nonlens
    = Ok (self', s', (0%nat, 2%nat)) /\
    distinct_MJD (heap s' 0%nat) = 3%nat /\
    distinct_MJD (heap s' 2%nat) = 2%nat /\
    List.length (rows (heap s' 0%nat)) = 4%nat /\
    List.length (rows (heap s' 2%nat)) = 4%nat.
Proof.
  destruct (set_balance (loader 2 0 false) 0%nat 1%nat None lens_and_nonlens)
    as [[[self' s'] [rl rn]] | e] eqn:E; vm_compute in E; [| discriminate E].
  injection E as <- <- <- <-.
  eexists _, _. split; [reflexivity |]. repeat split; vm_compute; reflexivity.
Qed.

(* ================================================================== *)
(** ** Tensor builder: the cells *)

(** *** Indexing into products, chunks and reshaped arrays *)

Lemma nth_map_inb {A B : Type} (f : A -> B) (l : list A) (i : nat) (d : B) (d' : A) :
  (i < List.length l)%nat -> nth i (map f l) d = f (nth i l d').
Proof.
  intros H. rewrite (nth_indep _ d (f d')) by (now rewrite length_map).
  apply map_nth.
Qed.

Lemma nth_list_prod {A B : Type} (l1 : list A) (l2 : list B) (i j : nat) (da : A) (db : B) :
  (i < List.length l1)%nat -> (j < List.length l2)%nat ->
  nth (i * List.length l2 + j) (list_prod l1 l2) (da, db) = (nth i l1 da, nth j l2 db).
Proof.
  revert i. induction l1 as [| a l1 IH]; intros i Hi Hj; simpl in Hi; [lia |].
  simpl list_prod. destruct i as [| i].
  - simpl. rewrite app_nth1 by (now rewrite length_map).
    now rewrite (nth_map_inb _ _ _ _ db).
  - rewrite app_nth2 by (rewrite length_map; simpl; lia).
    rewrite length_map.
    replace (S i * List.length l2 + j - List.length l2)%nat
      with (i * List.length l2 + j)%nat by (simpl; lia).
    simpl nth. apply IH; [lia | exact Hj].
Qed.

Lemma chunks_concat {A : Type} (k : nat) (V : list (list A)) :
  Forall (fun row => List.length row = k) V ->
  chunks (List.length V) k (List.concat V) = V.
Proof.
  induction 1 as [| row V Hrow _ IH]; simpl; [reflexivity |].
  subst k.
  rewrite firstn_app, Nat.sub_diag, firstn_O, app_nil_r, firstn_all.
  rewrite skipn_app, Nat.sub_diag, skipn_O, skipn_all. simpl. now rewrite IH.
Qed.

Lemma length_concat_uniform {A : Type} (k : nat) (V : list (list A)) :
  Forall (fun row => List.length row = k) V ->
  List.length (List.concat V) = (List.length V * k)%nat.
Proof.
  induction 1 as [| row V Hrow _ IH]; simpl; [reflexivity |].
  rewrite length_app, IH, Hrow. reflexivity.
Qed.

Lemma reshape_rows (d0 d1 d2 : nat) (V : list (list cell)) :
  List.length V = d0 ->
  Forall (fun row => List.length row = (d1 * d2)%nat) V ->
  reshape d0 d1 d2 V = Ok (map (chunks d1 d2) V).
Proof.
  intros H0 Hrows. unfold reshape.
  rewrite (length_concat_uniform _ _ Hrows), H0.
  replace (d0 * (d1 * d2) =? d0 * d1 * d2)%nat with true
    by (symmetry; apply Nat.eqb_eq; lia).
  subst d0. now rewrite (chunks_concat _ _ Hrows).
Qed.

Lemma nth_chunks {A : Type} (n k : nat) (l : list A) (i j : nat) (d : A) :
  (i < n)%nat -> (j < k)%nat ->
  nth j (nth i (chunks n k l) []) d = nth (i * k + j) l d.
Proof.
  revert l i. induction n as [| n IH]; intros l i Hi Hj; [lia |].
  simpl chunks. destruct i as [| i].
  - simpl. now rewrite nth_firstn, (proj2 (Nat.ltb_lt _ _) Hj).
  - simpl nth. rewrite IH by lia. rewrite nth_skipn. f_equal. simpl. lia.
Qed.

(** The entry of the built tensor is the entry of the wide table at
    column (channel x NUM_TIMES + time slot). *)
Lemma entry_of_wide (d0 d1 d2 : nat) (V : list (list cell)) (o t c : nat) :
  List.length V = d0 ->
  Forall (fun row => List.length row = (d1 * d2)%nat) V ->
  (o < d0)%nat -> (t < d2)%nat -> (c < d1)%nat ->
  entry {| dims := (d0, d2, d1); items := swapaxes12 d2 (map (chunks d1 d2) V) |} o t c
  = nth (c * d2 + t) (nth o V []) None.
Proof.
  intros H0 Hrows Ho Ht Hc. unfold entry, swapaxes12. cbn [items].
  rewrite (nth_map_inb _ _ _ _ []) by (now rewrite length_map, H0).
  rewrite (nth_map_inb _ _ _ _ 0%nat) by (now rewrite length_seq).
  rewrite seq_nth by exact Ht. cbn [Nat.add].
  assert (E : nth o (map (chunks d1 d2) V) [] = chunks d1 d2 (nth o V []))
    by (apply nth_map_inb; now rewrite H0).
  rewrite E.
  rewrite (nth_map_inb _ _ _ _ []) by (now rewrite chunks_length).
  now apply nth_chunks.
Qed.

(** *** The cells of the two pivots *)

Lemma nanmean_singleton_Qmean (v : Q) : Qmean [v] = v.
Proof.
  destruct v as [n d]. unfold Qmean, Qsum, Qdiv, Qmult, Qplus, Qinv; simpl.
  rewrite Z.mul_1_r, Z.add_0_r, Z.mul_1_r, !Pos.mul_1_r. reflexivity.
Qed.

(** Aggregating a single cell gives that cell back. *)
Lemma nanmean_single (c : cell) : nanmean [c] = c.
Proof.
  destruct c as [v |]; unfold nanmean; simpl; [| reflexivity].
  now rewrite nanmean_singleton_Qmean.
Qed.

Lemma filter_map_comm {A B : Type} (p : B -> bool) (g : A -> B) (l : list A) :
  List.filter p (map g l) = map g (List.filter (fun x => p (g x)) l).
Proof.
  induction l as [| x l IH]; simpl; [reflexivity |].
  destruct (p (g x)); simpl; now rewrite IH.
Qed.

Lemma filter_none {A : Type} (p : A -> bool) (l : list A) :
  (forall y, In y l -> p y = false) -> List.filter p l = [].
Proof.
  induction l as [| y l IH]; simpl; intros H; [reflexivity |].
  rewrite (H y (or_introl eq_refl)). apply IH. intros z Hz. apply H. now right.
Qed.

Lemma filter_NoDup_single {A : Type} (p : A -> bool) (x : A) (l : list A) :
  NoDup l -> In x l -> p x = true -> (forall y, p y = true -> y = x) ->
  List.filter p l = [x].
Proof.
  induction 1 as [| y l Hnotin Hnd IH]; intros Hin Hpx Huniq; [contradiction |].
  simpl. destruct Hin as [-> | Hin].
  - rewrite Hpx. f_equal. apply filter_none. intros z Hz.
    destruct (p z) eqn:E; [| reflexivity].
    apply Huniq in E. subst z. contradiction.
  - destruct (p y) eqn:E.
    + apply Huniq in E. subst y. contradiction.
    + now apply IH.
Qed.

Lemma NoDup_list_prod {A B : Type} (l1 : list A) (l2 : list B) :
  NoDup l1 -> NoDup l2 -> NoDup (list_prod l1 l2).
Proof.
  intros H1 H2. induction H1 as [| a l1 Hnotin _ IH]; simpl; [constructor |].
  apply NoDup_app.
  - apply Finite.Injective_map_NoDup; [| exact H2].
    intros x y E. now inversion E.
  - exact IH.
  - intros [a' b] Hin1 Hin2. apply in_map_iff in Hin1. destruct Hin1 as [b' [E _]].
    inversion E; subst. apply in_prod_iff in Hin2. tauto.
Qed.

Lemma assoc_combine_map {A V : Type} (h : A -> string) (g : A -> V) (x : A) (l : list A) :
  NoDup (map h l) -> In x l ->
  assoc String.eqb (h x) (combine (map h l) (map g l)) = Some (g x).
Proof.
  induction l as [| y l IH]; simpl; intros Hnd Hin; [contradiction |].
  inversion Hnd as [| ? ? Hnotin Hnd']; subst.
  destruct Hin as [-> | Hin].
  - now rewrite String.eqb_refl.
  - destruct (String.eqb_spec (h x) (h y)) as [E | _].
    + exfalso. apply Hnotin. rewrite <- E. now apply in_map.
    + now apply IH.
Qed.

(** A cell of the second pivot is the aggregate of the matching group of
    the input: the intermediate table has one row per (object, time index)
    and one column per (attribute, filter). *)
Lemma second_pivot_cell (rws : list Row) (objs times : list Z) (filters vals : list string)
    (o t : Z) (a f : string) :
  NoDup objs -> NoDup times ->
  NoDup (map filter_attribute (list_prod (sort_uniq String.compare vals) filters)) ->
  In o objs -> In t times ->
  In (a, f) (list_prod (sort_uniq String.compare vals) filters) ->
  let p1 := pivot_table pair_eqb String.eqb (fun r => (objectId r, time_index r)) filter
              (list_prod objs times) filters vals rws in
  nanmean (map (fun r => num r (filter_attribute (a, f)))
               (List.filter (fun r => Z.eqb (objectId r) o && Z.eqb (time_index r) t)
                            (rows (reset_index (map_columns filter_attribute p1)))))
  = nanmean (map (fun r => num r a) (group rws o t f)).
Proof.
  intros Hno Hnt Hnl Ho Ht Haf p1.
  unfold reset_index, map_columns, p1, pivot_table. cbn [rows index values labels p_index p_columns p_values].
  rewrite combine_map_r, map_map, filter_map_comm. cbn [objectId time_index fst snd].
  rewrite (filter_NoDup_single _ (o, t)).
  - cbn [map num fst snd]. rewrite nanmean_single.
    rewrite (assoc_combine_map filter_attribute _ (a, f)); [reflexivity | exact Hnl | exact Haf].
  - now apply NoDup_list_prod.
  - apply in_prod_iff. tauto.
  - cbn [fst snd]. now rewrite !Z.eqb_refl.
  - intros [o' t'] H. cbn [fst snd] in H. apply andb_true_iff in H.
    destruct H as [H1 H2]. apply Z.eqb_eq in H1, H2. now subst.
Qed.

(** *** Running the per-filter layout *)

Lemma per_filter_layout_intro (self : Dataloader) (nt : nat) (src : DataFrame) p1 p2 :
  pivot_filters src (attributes self) = Ok p1 ->
  shape_eqb (ishape (map_columns filter_attribute p1))
            (NUM_POSITIVES self * nt, NUM_ATTRIBUTES self * NUM_FILTERS)%nat = true ->
  shape_eqb (shape (reset_index (map_columns filter_attribute p1)))
            (NUM_POSITIVES self * nt, NUM_ATTRIBUTES self * NUM_FILTERS + 2)%nat = true ->
  list_eqb String.eqb
    (setdiff1d (columns (reset_index (map_columns filter_attribute p1)))
               (filtered_attributes self))
    ["objectId"; "time_index"] = true ->
  pivot_times (reset_index (map_columns filter_attribute p1)) (filtered_attributes self)
  = Ok p2 ->
  (List.length (timed_filtered_attributes self nt)
   =? NUM_FILTERS * NUM_ATTRIBUTES self * nt)%nat = true ->
  shape_eqb (ishape (map_columns time_label p2))
            (NUM_POSITIVES self, NUM_ATTRIBUTES self * NUM_FILTERS * nt)%nat = true ->
  per_filter_layout self nt src = ([PivotTable; PivotTable], Ok (map_columns time_label p2)).
Proof.
  intros H1 H2 H3 H4 H5 H6 H7. unfold per_filter_layout.
  rewrite H1. cbv beta iota zeta delta [bindM call lift retM].
  rewrite H2. cbv beta iota zeta delta [assert].
  rewrite H3. cbv beta iota zeta delta [assert].
  rewrite H4. cbv beta iota zeta delta [assert].
  rewrite H5. cbv beta iota zeta.
  rewrite H6. cbv beta iota zeta delta [assert].
  rewrite H7. reflexivity.
Qed.

Lemma shape_eqb_refl (s : nat * nat) : shape_eqb s s = true.
Proof. unfold shape_eqb. now rewrite !Nat.eqb_refl. Qed.

Lemma getitems_columns (df df' : DataFrame) (ls : list string) :
  columns df = columns df' -> getitems df ls = getitems df' ls.
Proof.
  intros E. induction ls as [| l ls IH]; simpl; [reflexivity |].
  unfold getitem. rewrite E, IH. reflexivity.
Qed.

(** The labels of the intermediate table when the five filters occur. *)
Lemma intermediate_labels (self : Dataloader) :
  let labels1 := map filter_attribute
                     (list_prod (sort_uniq String.compare (attributes self))
                                (sort_uniq String.compare ugriz)) in
  List.length labels1 = (NUM_ATTRIBUTES self * NUM_FILTERS)%nat /\
  nodupb labels1 = true /\
  list_eqb String.eqb
    (setdiff1d ("objectId" :: "time_index" :: labels1) (filtered_attributes self))
    ["objectId"; "time_index"] = true /\
  getitems {| columns := "objectId" :: "time_index" :: labels1; rows := [] |}
           ("objectId" :: "time_index" :: filtered_attributes self) = Ok tt /\
  getitems {| columns := (attributes self ++ ["time_index"; "objectId"; "filter"])%list;
              rows := [] |}
           ("objectId" :: "time_index" :: "filter" :: attributes self) = Ok tt /\
  sort_uniq String.compare (filtered_attributes self)
  = map filter_attribute (channels self).
Proof.
  unfold channels, filtered_attributes, NUM_ATTRIBUTES, attributes.
  destruct (lightcurve_only self); vm_compute; repeat split; reflexivity.
Qed.

Lemma timed_filtered_attributes_length (self : Dataloader) (nt : nat) :
  (List.length (timed_filtered_attributes self nt)
   =? NUM_FILTERS * NUM_ATTRIBUTES self * nt)%nat = true.
Proof.
  apply Nat.eqb_eq. unfold timed_filtered_attributes.
  rewrite length_map, length_prod, length_seq. f_equal.
  unfold filtered_attributes, NUM_ATTRIBUTES, attributes.
  destruct (lightcurve_only self); reflexivity.
Qed.

Lemma select_Ok (src : DataFrame) (ls : list string) :
  getitems src ls = Ok tt -> select src ls = Ok {| columns := ls; rows := rows src |}.
Proof. unfold select. now intros ->. Qed.

(** On a balanced table the per-filter layout runs to the end. *)
Lemma per_filter_layout_run (self : Dataloader) (nt : nat) (src : DataFrame) :
  balanced_table self nt src ->
  let src' := {| columns := (attributes self ++ ["time_index"; "objectId"; "filter"])%list;
                 rows := rows src |} in
  let p1 := pivot_table pair_eqb String.eqb (fun r => (objectId r, time_index r)) filter
              (list_prod (objects src) (time_slots src))
              (sort_uniq String.compare ugriz) (attributes self) (rows src) in
  per_filter_layout self nt src'
  = ([PivotTable; PivotTable],
     Ok (map_columns time_label
           (pivot_table Z.eqb Z.eqb objectId time_index (objects src) (time_slots src)
              (filtered_attributes self)
              (rows (reset_index (map_columns filter_attribute p1)))))).
Proof.
  intros B src' p1.
  destruct (intermediate_labels self) as (Hlen & _ & Hdiff & Hget2 & Hget1 & _).
  assert (Hf : sort_uniq String.compare (map filter (rows src))
               = sort_uniq String.compare ugriz).
  { apply (sort_uniq_ext _ string_total_order). apply (bt_filters _ _ _ B). }
  assert (Hp1 : pivot_filters src' (attributes self) = Ok p1).
  { unfold pivot_filters.
    rewrite (getitems_columns src'
               (mkDF (attributes self ++ ["time_index"; "objectId"; "filter"])%list [])
               _ eq_refl), Hget1.
    cbn [bind rows src']. rewrite Hf. reflexivity. }
  assert (Hidx : List.length (index (map_columns filter_attribute p1))
                 = List.length (values (map_columns filter_attribute p1))).
  { cbn. now rewrite length_map. }
  destruct (reset_index_keys _ Hidx) as [Ho Ht].
  destruct (levels_of_product (rows src)) as [Eo Et].
  apply per_filter_layout_intro with (p1 := p1).
  - exact Hp1.
  - unfold ishape. cbn [index labels map_columns p_index p_columns p1 pivot_table].
    rewrite length_prod, Hlen.
    rewrite (bt_objects _ _ _ B), (bt_slots _ _ _ B). apply shape_eqb_refl.
  - unfold shape, reset_index. cbn [rows columns]. rewrite length_map, length_combine.
    rewrite <- Hidx, Nat.min_id.
    cbn [index labels map_columns p_index p_columns p1 pivot_table List.length].
    rewrite length_prod, Hlen.
    rewrite (bt_objects _ _ _ B), (bt_slots _ _ _ B).
    replace (S (S (NUM_ATTRIBUTES self * NUM_FILTERS)))
      with (NUM_ATTRIBUTES self * NUM_FILTERS + 2)%nat by lia.
    apply shape_eqb_refl.
  - exact Hdiff.
  - unfold pivot_times.
    rewrite (getitems_columns (reset_index (map_columns filter_attribute p1))
               (mkDF ("objectId" :: "time_index" ::
               map filter_attribute
                 (list_prod (sort_uniq String.compare (attributes self))
                            (sort_uniq String.compare ugriz))) []) _ eq_refl), Hget2.
    cbn [bind]. rewrite Ho, Ht.
    cbn [index map_columns p_index p1 pivot_table].
    unfold objects, time_slots. rewrite Eo, Et. reflexivity.
  - apply timed_filtered_attributes_length.
  - unfold ishape. cbn [index labels map_columns p_index p_columns pivot_table].
    rewrite length_map, length_prod, sorted_filtered_attributes_length.
    rewrite (bt_objects _ _ _ B), (bt_slots _ _ _ B). apply shape_eqb_refl.
Qed.

Lemma make_data_array_intro (self : Dataloader) (src src' : DataFrame) (tv : Q)
    (nt : nat) (log : list op) (T : Indexed Z) R :
  select src (attributes self ++ ["time_index"; "objectId"; "filter"])%list = Ok src' ->
  NUM_TIMES self = Some nt ->
  (List.length (rows src') =? NUM_POSITIVES self * nt)%nat = true ->
  (if onehot_filters self
   then onehot_layout self nt src'
   else per_filter_layout self nt src') = (log, Ok T) ->
  reshape (NUM_POSITIVES self)
          (if onehot_filters self
           then (NUM_ATTRIBUTES self + NUM_FILTERS)%nat
           else (NUM_FILTERS * NUM_ATTRIBUTES self)%nat)
          nt (values (fill_null T)) = Ok R ->
  make_data_array self src tv
  = ((log ++ [FillNull; Reshape])%list,
     Ok ({| dims := (NUM_POSITIVES self, nt,
                     if onehot_filters self
                     then (NUM_ATTRIBUTES self + NUM_FILTERS)%nat
                     else (NUM_FILTERS * NUM_ATTRIBUTES self)%nat);
            items := swapaxes12 nt R |},
         ones_times (NUM_POSITIVES self) tv)).
Proof.
  intros Hsel Hnt Hrows Hrun Hre. unfold make_data_array.
  rewrite Hsel, Hnt. cbv beta iota zeta delta [bindM call lift retM].
  rewrite Hrows. cbv beta iota zeta delta [assert].
  rewrite Hrun. cbv beta iota zeta.
  rewrite Hre. reflexivity.
Qed.

Lemma fill_null_cell (c : cell) :
  (if isnull c then Some sentinel else c) = Some (fill_value c).
Proof. destruct c; reflexivity. Qed.

(** The builder on a balanced table, per-filter layout: it returns, and
    the entry at (object, time slot, channel) is the aggregate of the rows
    of that object, time index and filter in the attribute of the
    channel, or the sentinel when this aggregate is null. *)
Lemma make_data_array_cells (self : Dataloader) (nt : nat) (src : DataFrame) (tv : Q) :
  onehot_filters self = false ->
  balanced_table self nt src ->
  exists X,
    make_data_array self src tv
    = ([PivotTable; PivotTable; FillNull; Reshape],
       Ok (X, ones_times (NUM_POSITIVES self) tv)) /\
    dims X = (NUM_POSITIVES self, nt, (NUM_FILTERS * NUM_ATTRIBUTES self)%nat) /\
    forall o t c,
      (o < NUM_POSITIVES self)%nat -> (t < nt)%nat ->
      (c < NUM_FILTERS * NUM_ATTRIBUTES self)%nat ->
      entry X o t c
      = Some (fill_value
                (nanmean (map (fun r => num r (fst (nth c (channels self) ("", ""))))
                              (group (rows src)
                                     (nth o (objects src) 0%Z)
                                     (nth t (time_slots src) 0%Z)
                                     (snd (nth c (channels self) ("", ""))))))).
Proof.
  intros Hoh B.
  pose proof (per_filter_layout_run self nt src B) as Hrun. cbv zeta in Hrun.
  set (p1 := pivot_table pair_eqb String.eqb (fun r => (objectId r, time_index r)) filter
               (list_prod (objects src) (time_slots src))
               (sort_uniq String.compare ugriz) (attributes self) (rows src)) in *.
  set (rows2 := rows (reset_index (map_columns filter_attribute p1))) in *.
  set (T := map_columns time_label
              (pivot_table Z.eqb Z.eqb objectId time_index (objects src) (time_slots src)
                 (filtered_attributes self) rows2)) in *.
  destruct (intermediate_labels self) as (Hlen1 & Hnd1 & _ & _ & _ & Hch).
  apply nodupb_NoDup in Hnd1.
  set (V := values (fill_null T)).
  assert (HV0 : List.length V = NUM_POSITIVES self).
  { unfold V, fill_null, T, map_columns, pivot_table. cbn [values p_values].
    rewrite !length_map. apply (bt_objects _ _ _ B). }
  assert (Hchlen : List.length (channels self) = (NUM_FILTERS * NUM_ATTRIBUTES self)%nat).
  { rewrite <- (length_map filter_attribute), <- Hch, sorted_filtered_attributes_length. lia. }
  assert (HVrows : Forall (fun row => List.length row
                                      = (NUM_FILTERS * NUM_ATTRIBUTES self * nt)%nat) V).
  { unfold V, fill_null, T, map_columns, pivot_table. cbn [values p_values].
    apply Forall_map, Forall_map, Forall_forall. intros o _.
    rewrite !length_map, length_prod, Hch, length_map, Hchlen, (bt_slots _ _ _ B).
    reflexivity. }
  pose proof (reshape_rows _ _ _ V HV0 HVrows) as Hre.
  pose proof (make_data_array_intro self src _ tv nt [PivotTable; PivotTable] T
                (map (chunks (NUM_FILTERS * NUM_ATTRIBUTES self) nt) V)
                (select_Ok _ _ (bt_columns _ _ _ B)) (bt_times _ _ _ B)
                (proj2 (Nat.eqb_eq _ _) (bt_rows _ _ _ B))) as Hmk.
  rewrite Hoh in Hmk. specialize (Hmk Hrun Hre).
  eexists. split; [| split].
  - exact Hmk.
  - reflexivity.
  - intros o t c Ho Ht Hc.
    rewrite (entry_of_wide _ _ _ V o t c HV0 HVrows Ho Ht Hc).
    unfold V, fill_null, T, map_columns, pivot_table. cbn [values p_values].
    rewrite (nth_map_inb _ _ _ _ []) by (rewrite length_map; now rewrite (bt_objects _ _ _ B)).
    rewrite (nth_map_inb _ _ _ _ 0%Z) by (now rewrite (bt_objects _ _ _ B)).
    rewrite map_map.
    rewrite (nth_map_inb _ _ _ _ ("", 0%Z))
      by (rewrite length_prod, Hch, length_map, Hchlen, (bt_slots _ _ _ B); nia).
    rewrite fill_null_cell. do 2 f_equal.
    assert (Enth : nth (c * nt + t)
                       (list_prod (sort_uniq String.compare (filtered_attributes self))
                                  (time_slots src)) ("", 0%Z)
                   = (filter_attribute (nth c (channels self) ("", "")),
                      nth t (time_slots src) 0%Z)).
    { rewrite <- (bt_slots _ _ _ B) at 1.
      rewrite nth_list_prod
        by (rewrite ?Hch, ?length_map, ?Hchlen, ?(bt_slots _ _ _ B); assumption).
      rewrite Hch. now rewrite (nth_map_inb _ _ _ _ ("", "")) by (now rewrite Hchlen). }
    rewrite Enth. cbn [fst snd].
    destruct (nth c (channels self) ("", "")) as [a f] eqn:Ec.
    assert (Hin : In (a, f) (channels self)).
    { rewrite <- Ec. apply nth_In. now rewrite Hchlen. }
    cbn [fst snd]. unfold rows2, p1.
    apply second_pivot_cell.
    + apply (sort_uniq_NoDup _ Z_total_order).
    + apply (sort_uniq_NoDup _ Z_total_order).
    + exact Hnd1.
    + apply nth_In. now rewrite (bt_objects _ _ _ B).
    + apply nth_In. now rewrite (bt_slots _ _ _ B).
    + unfold channels in Hin. apply in_map_iff in Hin.
      destruct Hin as [[f' a'] [E Hin]]. inversion E; subst a' f'.
      apply in_prod_iff in Hin. apply in_prod_iff. tauto.
Qed.


Lemma duplicated_visit_balanced : balanced_table (loader 2 5 false) 5 duplicated_visit.
Proof.
  constructor; try reflexivity.
  intros f. simpl. intuition.
Qed.



(** *** Running the one-hot layout *)

Lemma onehot_layout_intro (self : Dataloader) (nt : nat) (src d : DataFrame) p :
  get_dummies src = Ok d ->
  shape_eqb (shape d)
            (NUM_POSITIVES self * nt, NUM_ATTRIBUTES self + NUM_FILTERS + 2)%nat = true ->
  pivot_times d (attributes self ++ ["u"; "g"; "r"; "i"; "z"])%list = Ok p ->
  shape_eqb (ishape (map_columns time_label p))
            (NUM_POSITIVES self, (NUM_ATTRIBUTES self + NUM_FILTERS) * nt)%nat = true ->
  onehot_layout self nt src = ([GetDummies; PivotTable], Ok (map_columns time_label p)).
Proof.
  intros H1 H2 H3 H4. unfold onehot_layout.
  rewrite H1. cbv beta iota zeta delta [bindM call lift retM].
  rewrite H2. cbv beta iota zeta delta [assert].
  rewrite H3. cbv beta iota zeta.
  rewrite H4. reflexivity.
Qed.

(** The labels of the one-hot table when the five filters occur. *)
Lemma onehot_labels (self : Dataloader) :
  let selected := (attributes self ++ ["time_index"; "objectId"; "filter"])%list in
  let encoded := (List.filter (fun c => negb (String.eqb c "filter")) selected
                  ++ sort_uniq String.compare ugriz)%list in
  getitem {| columns := selected; rows := [] |} "filter" = Ok tt /\
  List.length encoded = (NUM_ATTRIBUTES self + NUM_FILTERS + 2)%nat /\
  getitems {| columns := encoded; rows := [] |}
           ("objectId" :: "time_index" :: attributes self ++ ["u"; "g"; "r"; "i"; "z"])%list
  = Ok tt /\
  List.length (onehot_channels self) = (NUM_ATTRIBUTES self + NUM_FILTERS)%nat.
Proof.
  unfold onehot_channels, NUM_ATTRIBUTES, attributes.
  destruct (lightcurve_only self); vm_compute; repeat split; reflexivity.
Qed.

Lemma getitem_columns (df df' : DataFrame) (l : string) :
  columns df = columns df' -> getitem df l = getitem df' l.
Proof. intros E. unfold getitem. now rewrite E. Qed.

Lemma onehot_layout_run (self : Dataloader) (nt : nat) (src : DataFrame) :
  balanced_table self nt src ->
  onehot_layout self nt
    {| columns := (attributes self ++ ["time_index"; "objectId"; "filter"])%list;
       rows := rows src |}
  = ([GetDummies; PivotTable],
     Ok (map_columns time_label
           (pivot_table Z.eqb Z.eqb objectId time_index (objects src) (time_slots src)
              (attributes self ++ ["u"; "g"; "r"; "i"; "z"])%list
              (map (add_dummies (sort_uniq String.compare ugriz)) (rows src))))).
Proof.
  intros B.
  destruct (onehot_labels self) as (Hget0 & Hlen & Hget & Hch). cbv zeta in *.
  assert (Hf : sort_uniq String.compare (map filter (rows src))
               = sort_uniq String.compare ugriz).
  { apply (sort_uniq_ext _ string_total_order). apply (bt_filters _ _ _ B). }
  set (src' := {| columns := (attributes self ++ ["time_index"; "objectId"; "filter"])%list;
                  rows := rows src |}).
  set (d := {| columns := (List.filter (fun c => negb (String.eqb c "filter")) (columns src')
                           ++ sort_uniq String.compare ugriz)%list;
               rows := map (add_dummies (sort_uniq String.compare ugriz)) (rows src) |}).
  assert (Hd : get_dummies src' = Ok d).
  { unfold get_dummies.
    rewrite (getitem_columns src'
               (mkDF (attributes self ++ ["time_index"; "objectId"; "filter"])%list [])
               _ eq_refl), Hget0.
    cbn [bind rows src']. rewrite Hf. reflexivity. }
  assert (Hkeys : map objectId (rows d) = map objectId (rows src) /\
                  map time_index (rows d) = map time_index (rows src)).
  { unfold d. cbn [rows]. rewrite !map_map. split; reflexivity. }
  destruct Hkeys as [Ho Ht].
  apply onehot_layout_intro with (d := d).
  - exact Hd.
  - unfold shape, d. cbn [rows columns src']. rewrite length_map, Hlen, (bt_rows _ _ _ B).
    apply shape_eqb_refl.
  - unfold pivot_times.
    rewrite (getitems_columns d
               (mkDF (List.filter (fun c => negb (String.eqb c "filter"))
                        (attributes self ++ ["time_index"; "objectId"; "filter"])
                      ++ sort_uniq String.compare ugriz)%list []) _ eq_refl), Hget.
    cbn [bind]. rewrite Ho, Ht. reflexivity.
  - unfold ishape. cbn [index labels map_columns p_index p_columns pivot_table].
    rewrite length_map, length_prod.
    fold ugriz. fold (onehot_channels self). rewrite Hch.
    rewrite (bt_objects _ _ _ B), (bt_slots _ _ _ B). apply shape_eqb_refl.
Qed.

(** The builder on a balanced table, one-hot layout: it returns, and the
    entry at (object, time slot, channel) is the aggregate, over the rows
    of that object and time index, of the attribute or filter indicator of
    the channel, or the sentinel when this aggregate is null. *)
Lemma make_data_array_onehot_cells (self : Dataloader) (nt : nat) (src : DataFrame)
    (tv : Q) :
  onehot_filters self = true ->
  balanced_table self nt src ->
  exists X,
    make_data_array self src tv
    = ([GetDummies; PivotTable; FillNull; Reshape],
       Ok (X, ones_times (NUM_POSITIVES self) tv)) /\
    dims X = (NUM_POSITIVES self, nt, (NUM_ATTRIBUTES self + NUM_FILTERS)%nat) /\
    forall o t c,
      (o < NUM_POSITIVES self)%nat -> (t < nt)%nat ->
      (c < NUM_ATTRIBUTES self + NUM_FILTERS)%nat ->
      entry X o t c = Some (fill_value (nanmean (onehot_values self src o t c))).
Proof.
  intros Hoh B.
  pose proof (onehot_layout_run self nt src B) as Hrun.
  set (T := map_columns time_label
              (pivot_table Z.eqb Z.eqb objectId time_index (objects src) (time_slots src)
                 (attributes self ++ ["u"; "g"; "r"; "i"; "z"])%list
                 (map (add_dummies (sort_uniq String.compare ugriz)) (rows src)))) in *.
  destruct (onehot_labels self) as (_ & _ & _ & Hch). cbv zeta in Hch.
  set (V := values (fill_null T)).
  assert (HV0 : List.length V = NUM_POSITIVES self).
  { unfold V, fill_null, T, map_columns, pivot_table. cbn [values p_values].
    rewrite !length_map. apply (bt_objects _ _ _ B). }
  assert (HVrows : Forall (fun row => List.length row
                                      = ((NUM_ATTRIBUTES self + NUM_FILTERS) * nt)%nat) V).
  { unfold V, fill_null, T, map_columns, pivot_table. cbn [values p_values].
    apply Forall_map, Forall_map, Forall_forall. intros o _.
    rewrite !length_map, length_prod. fold ugriz. fold (onehot_channels self).
    rewrite Hch, (bt_slots _ _ _ B). reflexivity. }
  pose proof (reshape_rows _ _ _ V HV0 HVrows) as Hre.
  pose proof (make_data_array_intro self src _ tv nt [GetDummies; PivotTable] T
                (map (chunks (NUM_ATTRIBUTES self + NUM_FILTERS) nt) V)
                (select_Ok _ _ (bt_columns _ _ _ B)) (bt_times _ _ _ B)
                (proj2 (Nat.eqb_eq _ _) (bt_rows _ _ _ B))) as Hmk.
  rewrite Hoh in Hmk. specialize (Hmk Hrun Hre).
  eexists. split; [| split].
  - exact Hmk.
  - reflexivity.
  - intros o t c Ho Ht Hc.
    rewrite (entry_of_wide _ _ _ V o t c HV0 HVrows Ho Ht Hc).
    unfold V, fill_null, T, map_columns, pivot_table. cbn [values p_values].
    rewrite (nth_map_inb _ _ _ _ []) by (rewrite length_map; now rewrite (bt_objects _ _ _ B)).
    rewrite (nth_map_inb _ _ _ _ 0%Z) by (now rewrite (bt_objects _ _ _ B)).
    rewrite map_map. fold ugriz. fold (onehot_channels self).
    rewrite (nth_map_inb _ _ _ _ ("", 0%Z))
      by (rewrite length_prod, Hch, (bt_slots _ _ _ B); nia).
    rewrite fill_null_cell. do 2 f_equal.
    assert (Enth : nth (c * nt + t) (list_prod (onehot_channels self) (time_slots src))
                       ("", 0%Z)
                   = (nth c (onehot_channels self) "", nth t (time_slots src) 0%Z)).
    { rewrite <- (bt_slots _ _ _ B) at 1.
      apply nth_list_prod; rewrite ?Hch, ?(bt_slots _ _ _ B); assumption. }
    rewrite Enth. cbn [fst snd].
    rewrite filter_map_comm, map_map. reflexivity.
Qed.

Lemma duplicated_visit_balanced_onehot :
  balanced_table (loader 2 5 true) 5 duplicated_visit.
Proof.
  constructor; try reflexivity.
  intros f. simpl. intuition.
Qed.

(** C4 (as amended). On a table that meets what the builder asserts,
    [make_data_array] returns and every cell of the tensor is a number,
    never NaN: the mean of the numbers that the rows behind the cell carry
    in its channel, and the sentinel when there is no such number.  The
    rows behind a cell are those of its object, time index and filter in
    the per-filter layout, and those of its object and time index in the
    one-hot layout.  In particular a cell with no row behind it holds the
    sentinel, and a cell with exactly one row behind it, carrying a
    number, holds that number unchanged. *)
Theorem sentinel_marks_missing_cells (self : Dataloader) (nt : nat) (src : DataFrame)
    (tv : Q) :
  balanced_table self nt src ->
  exists X y,
    snd (make_data_array self src tv) = Ok (X, y) /\
    (onehot_filters self = false ->
     forall o t c,
       (o < NUM_POSITIVES self)%nat -> (t < nt)%nat ->
       (c < NUM_FILTERS * NUM_ATTRIBUTES self)%nat ->
       entry X o t c = Some (fill_value (nanmean (cell_values self src o t c))) /\
       (cell_group self src o t c = [] -> entry X o t c = Some sentinel) /\
       (forall r v, cell_group self src o t c = [r] ->
                    num r (channel_attribute self c) = Some v ->
                    entry X o t c = Some v)) /\
    (onehot_filters self = true ->
     forall o t c,
       (o < NUM_POSITIVES self)%nat -> (t < nt)%nat ->
       (c < NUM_ATTRIBUTES self + NUM_FILTERS)%nat ->
       entry X o t c = Some (fill_value (nanmean (onehot_values self src o t c))) /\
       (onehot_group src o t = [] -> entry X o t c = Some sentinel) /\
       (forall r v, onehot_group src o t = [r] ->
                    num (add_dummies (sort_uniq String.compare ugriz) r)
                        (nth c (onehot_channels self) "") = Some v ->
                    entry X o t c = Some v)).
Proof.
  intros B. destruct (onehot_filters self) eqn:Hoh.
  - destruct (make_data_array_onehot_cells self nt src tv Hoh B) as (X & Hrun & _ & Hcell).
    exists X, (ones_times (NUM_POSITIVES self) tv). rewrite Hrun.
    split; [reflexivity |]. split; [discriminate |].
    intros _ o t c Ho Ht Hc.
    assert (E : entry X o t c = Some (fill_value (nanmean (onehot_values self src o t c))))
      by (exact (Hcell o t c Ho Ht Hc)).
    split; [exact E |]. split.
    + intros Hg. rewrite E. unfold onehot_values. rewrite Hg. reflexivity.
    + intros r v Hg Hv. rewrite E. unfold onehot_values. rewrite Hg. cbn [map].
      rewrite Hv, nanmean_single. reflexivity.
  - destruct (make_data_array_cells self nt src tv Hoh B) as (X & Hrun & _ & Hcell).
    exists X, (ones_times (NUM_POSITIVES self) tv). rewrite Hrun.
    split; [reflexivity |]. split; [| discriminate].
    intros _ o t c Ho Ht Hc.
    assert (E : entry X o t c = Some (fill_value (nanmean (cell_values self src o t c))))
      by (exact (Hcell o t c Ho Ht Hc)).
    split; [exact E |]. split.
    + intros Hg. rewrite E. unfold cell_values. rewrite Hg. reflexivity.
    + intros r v Hg Hv. rewrite E. unfold cell_values. rewrite Hg. cbn [map].
      rewrite Hv, nanmean_single. reflexivity.
Qed.

Lemma sentinel_marks_missing_cells_witness :
  (exists X y,
     snd (make_data_array (loader 2 5 false) duplicated_visit 1) = Ok (X, y) /\
     entry X 1 4 12 = Some sentinel /\ entry X 1 0 9 = Some 7%Q) /\
  (exists X y,
     snd (make_data_array (loader 2 5 true) duplicated_visit 1) = Ok (X, y) /\
     entry X 1 4 0 = Some sentinel /\ entry X 1 0 0 = Some 7%Q /\
     entry X 1 0 6 = Some 1%Q).
Proof.
  split.
  - destruct (sentinel_marks_missing_cells (loader 2 5 false) 5 duplicated_visit 1
                duplicated_visit_balanced) as (X & y & Hrun & Hcell & _).
    specialize (Hcell eq_refl).
    exists X, y. split; [exact Hrun |]. split.
    + destruct (Hcell 1 4 12)%nat as (_ & H & _); [simpl; lia | lia | unfold NUM_FILTERS; simpl; lia |].
      apply H. reflexivity.
    + destruct (Hcell 1 0 9)%nat as (_ & _ & H); [simpl; lia | lia | unfold NUM_FILTERS; simpl; lia |].
      apply (H (obs 2 "u" 0 0 0 (lc 7 (1#10) 0)) 7%Q); reflexivity.
  - destruct (sentinel_marks_missing_cells (loader 2 5 true) 5 duplicated_visit 1
                duplicated_visit_balanced_onehot) as (X & y & Hrun & _ & Hcell).
    specialize (Hcell eq_refl).
    exists X, y. split; [exact Hrun |]. split; [| split].
    + destruct (Hcell 1 4 0)%nat as (_ & H & _); [simpl; lia | lia | unfold NUM_FILTERS; simpl; lia |].
      apply H. reflexivity.
    + destruct (Hcell 1 0 0)%nat as (_ & _ & H); [simpl; lia | lia | unfold NUM_FILTERS; simpl; lia |].
      apply (H (obs 2 "u" 0 0 0 (lc 7 (1#10) 0)) 7%Q); reflexivity.
    + destruct (Hcell 1 0 6)%nat as (_ & _ & H); [simpl; lia | lia | unfold NUM_FILTERS; simpl; lia |].
      apply (H (obs 2 "u" 0 0 0 (lc 7 (1#10) 0)) 1%Q); reflexivity.
Defined.

(** C4, the claim as stated fails: the combination (object 1, visit 0,
    filter u) is present in the table, in two rows with magnitudes 1 and
    3, and the cell of the returned tensor holds 2, which is neither of
    the input values nor the sentinel. *)
Lemma present_cell_not_an_input_value :
  nth 9 (channels (loader 2 5 false)) ("", "") = ("apMag", "u") /\
  map (fun r => num r "apMag") (cell_group (loader 2 5 false) duplicated_visit 0 0 9)
  = [Some 1%Q; Some 3%Q] /\
  exists X y q,
    snd (make_data_array (loader 2 5 false) duplicated_visit 1) = Ok (X, y) /\
    entry X 0 0 9 = Some q /\ (q == 2)%Q /\ ~ (q == 1)%Q /\ ~ (q == 3)%Q.
Proof.
  split; [reflexivity |]. split; [reflexivity |].
  destruct (snd (make_data_array (loader 2 5 false) duplicated_visit 1))
    as [[X y] | e] eqn:E; vm_compute in E; [| discriminate E].
  injection E as <- <-. eexists _, _, _. split; [reflexivity |].
  split; [reflexivity |]. repeat split; intros H; discriminate H.
Qed.

(* ================================================================== *)
(** ** Tensor builder: a run that returns was given a balanced table *)

Lemma string_length_append (s1 s2 : string) :
  String.length (s1 ++ s2) = (String.length s1 + String.length s2)%nat.
Proof. induction s1 as [| c s1 IH]; simpl; [reflexivity | now rewrite IH]. Qed.

Lemma strip_suffix_app (f suf : string) : strip_suffix suf (f ++ suf) = Some f.
Proof.
  induction f as [| c f IH].
  - simpl. destruct suf; simpl.
    + reflexivity.
    + now rewrite Ascii.eqb_refl, String.eqb_refl.
  - cbn [append strip_suffix].
    destruct (String.eqb_spec (String c (f ++ suf)) suf) as [E | _].
    + exfalso. apply (f_equal String.length) in E. simpl in E.
      rewrite string_length_append in E. lia.
    + now rewrite IH.
Qed.

Lemma prefixes_before_In (f suf : string) (l : list string) :
  In (f ++ suf) l -> In f (prefixes_before suf l).
Proof.
  intros H. unfold prefixes_before. apply in_flat_map.
  exists (f ++ suf). split; [exact H |].
  rewrite strip_suffix_app. now left.
Qed.

Lemma list_eqb_eq (l1 l2 : list string) : list_eqb String.eqb l1 l2 = true -> l1 = l2.
Proof.
  revert l2. induction l1 as [| x l1 IH]; intros [| y l2]; simpl; try discriminate.
  - reflexivity.
  - intros H. apply andb_true_iff in H. destruct H as [H1 H2].
    apply String.eqb_eq in H1. apply IH in H2. now subst.
Qed.

Lemma setdiff1d_In (a b : list string) (x : string) :
  In x (setdiff1d a b) <-> In x a /\ mem x b = false.
Proof.
  unfold setdiff1d. rewrite (sort_uniq_In _ string_total_order), filter_In.
  now rewrite negb_true_iff.
Qed.

Lemma getitems_Ok_In (df : DataFrame) (ls : list string) (l : string) :
  getitems df ls = Ok tt -> In l ls -> mem l (columns df) = true.
Proof.
  induction ls as [| l' ls IH]; simpl; intros H Hin; [contradiction |].
  apply bind_Ok in H. destruct H as [[] [H1 H2]].
  destruct Hin as [-> | Hin]; [now apply getitem_Ok in H1 | now apply IH].
Qed.

(** The concrete facts about the two attribute vocabularies used below. *)
Lemma vocabulary_facts (self : Dataloader) :
  (0 < NUM_ATTRIBUTES self)%nat /\
  List.length (sort_uniq String.compare (attributes self)) = NUM_ATTRIBUTES self /\
  In "apMag" (sort_uniq String.compare (attributes self)) /\
  prefixes_before "_apMag" (filtered_attributes self ++ ["objectId"; "time_index"])%list
  = ugriz /\
  List.length (List.filter (fun c => negb (String.eqb c "filter"))
                 (attributes self ++ ["time_index"; "objectId"; "filter"])%list)
  = (NUM_ATTRIBUTES self + 2)%nat /\
  forallb (fun l => negb (mem l (List.filter (fun c => negb (String.eqb c "filter"))
                                   (attributes self ++ ["time_index"; "objectId"; "filter"])%list)))
          ugriz = true.
Proof.
  unfold filtered_attributes, NUM_ATTRIBUTES, attributes.
  destruct (lightcurve_only self); vm_compute; repeat split; try reflexivity;
    repeat (first [left; reflexivity | right]).
Qed.

Lemma same_elements_of_incl (l1 l2 : list string) :
  NoDup l1 -> incl l1 l2 -> (List.length l2 <= List.length l1)%nat ->
  forall x, In x l1 <-> In x l2.
Proof.
  intros Hnd Hincl Hlen x. split; [apply Hincl |].
  apply (NoDup_length_incl Hnd Hlen Hincl).
Qed.

Lemma per_filter_returns_balanced (self : Dataloader) (nt : nat) (rs : list Row) log T :
  per_filter_layout self nt
    {| columns := (attributes self ++ ["time_index"; "objectId"; "filter"])%list;
       rows := rs |} = (log, Ok T) ->
  List.length (sort_uniq Z.compare (map objectId rs)) = NUM_POSITIVES self /\
  List.length (sort_uniq Z.compare (map time_index rs)) = nt /\
  (forall f, In f (map filter rs) <-> In f ugriz).
Proof.
  intros H.
  destruct (vocabulary_facts self) as (Hpos & Hsa & Hap & Hpre & _ & _).
  pose proof (per_filter_layout_table _ _ _ _ _ H) as Ht. cbv zeta in Ht. cbn [rows] in Ht.
  destruct Ht as (_ & _ & Hobjs & Htimes).
  apply per_filter_layout_inv in H.
  destruct H as (p1 & p2 & Hp1 & Hs1 & _ & _ & _ & _ & Hdiff).
  apply pivot_filters_Ok in Hp1. cbn [rows] in Hp1. subst p1.
  set (filters := sort_uniq String.compare (map filter rs)) in *.
  unfold ishape in Hs1. cbn [index labels map_columns p_index p_columns pivot_table] in Hs1.
  injection Hs1 as _ Hcols. rewrite length_map, length_prod, Hsa in Hcols.
  assert (H5 : List.length filters = 5%nat).
  { unfold NUM_FILTERS in Hcols. nia. }
  split; [exact Hobjs |]. split.
  { unfold NUM_FILTERS in Htimes. nia. }
  assert (Hincl : incl filters ugriz).
  { intros f Hf. rewrite <- Hpre. apply prefixes_before_In.
    assert (Hlab : In (f ++ "_apMag")
                      (map filter_attribute
                         (list_prod (sort_uniq String.compare (attributes self)) filters))).
    { apply in_map_iff. exists ("apMag", f). split; [reflexivity |].
      apply in_prod_iff. tauto. }
    apply list_eqb_eq in Hdiff.
    cbn [columns reset_index labels map_columns p_columns pivot_table] in Hdiff.
    destruct (mem (f ++ "_apMag") (filtered_attributes self)) eqn:Em.
    - apply in_or_app. left. now apply mem_In.
    - apply in_or_app. right. rewrite <- Hdiff. apply setdiff1d_In.
      split; [| exact Em]. right. right. exact Hlab. }
  intros f. unfold filters in *.
  rewrite <- (sort_uniq_In _ string_total_order).
  apply same_elements_of_incl.
  - apply (sort_uniq_NoDup _ string_total_order).
  - exact Hincl.
  - rewrite H5. simpl. lia.
Qed.

Lemma onehot_layout_inv (self : Dataloader) (nt : nat) (src : DataFrame) log T :
  onehot_layout self nt src = (log, Ok T) ->
  exists d p,
    get_dummies src = Ok d /\
    shape d = (NUM_POSITIVES self * nt, NUM_ATTRIBUTES self + NUM_FILTERS + 2)%nat /\
    pivot_times d (attributes self ++ ["u"; "g"; "r"; "i"; "z"])%list = Ok p /\
    getitems d ("objectId" :: "time_index" :: attributes self ++ ["u"; "g"; "r"; "i"; "z"])%list
    = Ok tt /\
    T = map_columns time_label p /\
    ishape T = (NUM_POSITIVES self, (NUM_ATTRIBUTES self + NUM_FILTERS) * nt)%nat.
Proof.
  unfold onehot_layout. intros H.
  apply bindM_Ok in H. destruct H as (l1 & d & l2 & Hd & H & _).
  apply call_Ok in Hd. destruct Hd as [Hd _].
  apply bindM_Ok in H. destruct H as (l3 & u1 & l4 & Ha1 & H & _).
  apply lift_Ok in Ha1. destruct Ha1 as [Ha1 _]. apply assert_Ok, shape_eqb_eq in Ha1.
  apply bindM_Ok in H. destruct H as (l5 & p & l6 & Hp & H & _).
  apply call_Ok in Hp. destruct Hp as [Hp _].
  apply bindM_Ok in H. destruct H as (l7 & u2 & l8 & Ha2 & H & _).
  apply lift_Ok in Ha2. destruct Ha2 as [Ha2 _]. apply assert_Ok, shape_eqb_eq in Ha2.
  unfold retM in H. inversion H; subst.
  exists d, p. repeat split; try assumption.
  unfold pivot_times in Hp. destruct (getitems d _) as [[] | e]; [reflexivity | discriminate Hp].
Qed.

Lemma onehot_returns_balanced (self : Dataloader) (nt : nat) (rs : list Row) log T :
  onehot_layout self nt
    {| columns := (attributes self ++ ["time_index"; "objectId"; "filter"])%list;
       rows := rs |} = (log, Ok T) ->
  List.length (sort_uniq Z.compare (map objectId rs)) = NUM_POSITIVES self /\
  List.length (sort_uniq Z.compare (map time_index rs)) = nt /\
  (forall f, In f (map filter rs) <-> In f ugriz).
Proof.
  intros H.
  destruct (vocabulary_facts self) as (Hpos & _ & _ & _ & Hsel & Hfresh).
  destruct (onehot_labels self) as (_ & _ & _ & Hch). cbv zeta in Hch.
  apply onehot_layout_inv in H.
  destruct H as (d & p & Hd & Hsd & Hp & Hget & -> & Hst).
  unfold get_dummies in Hd. apply bind_Ok in Hd. destruct Hd as [u [_ Hd]].
  cbv zeta in Hd. cbn [rows columns] in Hd. inversion Hd; subst d; clear Hd.
  set (cats := sort_uniq String.compare (map filter rs)) in *.
  apply pivot_times_Ok in Hp. cbn [rows] in Hp.
  assert (Eo : map objectId (map (add_dummies cats) rs) = map objectId rs)
    by (now rewrite map_map).
  assert (Et : map time_index (map (add_dummies cats) rs) = map time_index rs)
    by (now rewrite map_map).
  rewrite Eo, Et in Hp. subst p.
  unfold ishape in Hst. cbn [index labels map_columns p_index p_columns pivot_table] in Hst.
  injection Hst as Hobjs Hcols.
  rewrite length_map, length_prod in Hcols. fold ugriz in Hcols.
  fold (onehot_channels self) in Hcols. rewrite Hch in Hcols.
  unfold shape in Hsd. cbn [rows columns] in Hsd. injection Hsd as _ Hc.
  rewrite length_app, Hsel in Hc.
  assert (H5 : List.length cats = 5%nat) by (unfold NUM_FILTERS in Hc; lia).
  split; [exact Hobjs |]. split.
  { unfold NUM_FILTERS in Hcols. nia. }
  assert (Hincl : incl ugriz cats).
  { intros f Hf.
    assert (Hm : mem f (List.filter (fun c => negb (String.eqb c "filter"))
                          (attributes self ++ ["time_index"; "objectId"; "filter"])
                        ++ cats)%list = true).
    { apply (getitems_Ok_In _ _ f Hget). right. right. apply in_or_app. right. exact Hf. }
    apply mem_In in Hm. apply in_app_or in Hm. destruct Hm as [Hm | Hm]; [| exact Hm].
    exfalso. rewrite forallb_forall in Hfresh. specialize (Hfresh f Hf).
    apply mem_In in Hm. rewrite Hm in Hfresh. discriminate Hfresh. }
  intros f. unfold cats in *. rewrite <- (sort_uniq_In _ string_total_order).
  symmetry. apply same_elements_of_incl.
  - repeat constructor; simpl; intuition discriminate.
  - exact Hincl.
  - rewrite H5. simpl. lia.
Qed.

(** A run of the builder that returns was given a balanced table. *)
Lemma make_data_array_returns_balanced (self : Dataloader) (src : DataFrame) (tv : Q)
    log X y :
  make_data_array self src tv = (log, Ok (X, y)) ->
  exists nt, balanced_table self nt src.
Proof.
  intros H. apply make_data_array_inv in H.
  destruct H as (nt & log' & T & R & Hget & Hnt & Hrows & Hrun & _).
  exists nt.
  assert (Hb : List.length (sort_uniq Z.compare (map objectId (rows src)))
               = NUM_POSITIVES self /\
               List.length (sort_uniq Z.compare (map time_index (rows src))) = nt /\
               (forall f, In f (map filter (rows src)) <-> In f ugriz)).
  { destruct (onehot_filters self).
    - eapply onehot_returns_balanced; eassumption.
    - eapply per_filter_returns_balanced; eassumption. }
  destruct Hb as (Ho & Ht & Hf).
  constructor; assumption.
Qed.

(** C7 (as amended). [make_data_array] returns exactly on the balanced
    tables: NUM_POSITIVES x NUM_TIMES rows over NUM_POSITIVES distinct
    objects, NUM_TIMES distinct time indices and the five filters (the row
    count alone is not enough).  Whenever it returns, the tensor has shape
    (NUM_POSITIVES, NUM_TIMES, channel count), its entries fill that shape,
    the channel count is attributes x filters in the per-filter layout and
    attributes + filters in the one-hot layout, and the label vector has
    NUM_POSITIVES entries, all the truth value. *)
Theorem make_data_array_shape (self : Dataloader) (src : DataFrame) (tv : Q) :
  (forall nt, balanced_table self nt src ->
              exists X y, snd (make_data_array self src tv) = Ok (X, y)) /\
  (forall log X y,
     make_data_array self src tv = (log, Ok (X, y)) ->
     exists nt,
       balanced_table self nt src /\
       dims X = (NUM_POSITIVES self, nt, channel_count self) /\
       well_shaped X /\
       List.length y = NUM_POSITIVES self /\
       Forall (fun l => l = tv) y).
Proof.
  split.
  - intros nt B. destruct (onehot_filters self) eqn:Hoh.
    + destruct (make_data_array_onehot_cells self nt src tv Hoh B) as (X & Hrun & _).
      exists X, (ones_times (NUM_POSITIVES self) tv). now rewrite Hrun.
    + destruct (make_data_array_cells self nt src tv Hoh B) as (X & Hrun & _).
      exists X, (ones_times (NUM_POSITIVES self) tv). now rewrite Hrun.
  - intros log X y H.
    destruct (make_data_array_returns_balanced _ _ _ _ _ _ H) as [nt B].
    apply make_data_array_inv in H.
    destruct H as (nt' & log' & T & R & _ & Hnt & _ & _ & Hre & -> & ->).
    rewrite (bt_times _ _ _ B) in Hnt. injection Hnt as <-.
    exists nt. split; [exact B |].
    assert (Hch : (if onehot_filters self
                   then (NUM_ATTRIBUTES self + NUM_FILTERS)%nat
                   else (NUM_FILTERS * NUM_ATTRIBUTES self)%nat) = channel_count self).
    { unfold channel_count. destruct (onehot_filters self); [reflexivity | apply Nat.mul_comm]. }
    rewrite Hch in *.
    split; [reflexivity |]. split.
    + unfold well_shaped; simpl.
      apply swapaxes12_shape. eapply reshape_shape; eassumption.
    + rewrite ones_times_spec. split.
      * apply repeat_length.
      * apply Forall_forall. intros l Hl. exact (repeat_spec _ _ _ Hl).
Qed.

Lemma make_data_array_shape_witness :
  exists log X y,
    make_data_array (loader 2 5 false) duplicated_visit 1 = (log, Ok (X, y)) /\
    dims X = (2, 5, 15)%nat /\ well_shaped X /\ y = [1%Q; 1%Q].
Proof.
  destruct (make_data_array (loader 2 5 false) duplicated_visit 1) as [log [[X y] | e]] eqn:E.
  - exists log, X, y. split; [reflexivity |].
    destruct (proj2 (make_data_array_shape (loader 2 5 false) duplicated_visit 1) _ _ _ E)
      as (nt & B & Hd & Hw & Hl & Hy).
    pose proof (bt_times _ _ _ B) as Hnt. injection Hnt as <-.
    split; [exact Hd |]. split; [exact Hw |].
    destruct y as [| a [| b [| c y]]]; simpl in Hl; try discriminate Hl.
    inversion Hy as [| ? ? Ha Hy']; subst. inversion Hy' as [| ? ? Hb _]; subst.
    reflexivity.
  - destruct (proj1 (make_data_array_shape (loader 2 5 false) duplicated_visit 1) 5%nat
                duplicated_visit_balanced) as (X & y & Hrun).
    rewrite E in Hrun. discriminate Hrun.
Defined.

(** C7, the claim as stated fails: the row count is NUM_POSITIVES x
    NUM_TIMES (1 x 1), yet the builder aborts on the column-count
    assertion of line 153 (line 123 in the one-hot layout), since only one
    of the five filters occurs. *)
Lemma make_data_array_precondition_not_sufficient :
  List.length (rows single_visit) = (NUM_POSITIVES (loader 1 1 false) * 1)%nat /\
  NUM_TIMES (loader 1 1 false) = Some 1%nat /\
  make_data_array (loader 1 1 false) single_visit 1 = ([PivotTable], Raise AssertionError) /\
  make_data_array (loader 1 1 true) single_visit 1 = ([GetDummies], Raise AssertionError).
Proof. repeat split; vm_compute; reflexivity. Qed.

(* ================================================================== *)
(** ** The whole pipeline on a small input *)

(** [__init__] counts the lenses; [source_to_data] then cuts the
    non-lenses to that count, builds one (1, 5, 15) tensor per class and
    returns the two classes shuffled together with their labels. *)
Example source_to_data_example :
  exists self X y,
    init (heap raw_store 0%nat) false true None = Ok self /\
    NUM_POSITIVES self = 1%nat /\
    source_to_data toy_seed toy_permutation ephi_sum self 0%nat 1%nat raw_store 0%nat
    = Ok (X, y) /\
    dims X = (2, 5, 15)%nat /\ well_shaped X /\ y = [0%Q; 1%Q] /\
    entry X 0 0 9 = Some 21%Q /\ entry X 1 0 9 = Some 20%Q.
Proof.
  exists {| NUM_TIMES := None; NUM_POSITIVES := 1; lightcurve_only := true;
            onehot_filters := false; observation_cutoff := None |}.
  destruct (source_to_data toy_seed toy_permutation ephi_sum
              {| NUM_TIMES := None; NUM_POSITIVES := 1; lightcurve_only := true;
                 onehot_filters := false; observation_cutoff := None |}
              0%nat 1%nat raw_store 0%nat)
    as [[X y] | e] eqn:E; vm_compute in E; [| discriminate E].
  injection E as <- <-.
  eexists _, _. split; [reflexivity |]. split; [reflexivity |].
  split; [reflexivity |]. split; [reflexivity |].
  split; [| repeat split; reflexivity].
  unfold well_shaped; simpl. split; [reflexivity |].
  repeat constructor.
Qed.


(* ================================================================== *)
(** * Further properties of the loader *)

(** ** Construction and call order *)



Lemma getitems_raises_KeyError (df : DataFrame) (ls : list string) (e : exn) :
  getitems df ls = Raise e -> exists l, e = KeyError l /\ In l ls /\ mem l (columns df) = false.
Proof.
  induction ls as [| l ls IH]; simpl; [discriminate |].
  unfold getitem at 1. destruct (mem l (columns df)) eqn:E; cbn [bind].
  - intros H. destruct (IH H) as (l' & -> & Hin & Hm). exists l'. tauto.
  - intros H. inversion H. exists l. tauto.
Qed.

(** X2. NUM_TIMES is undefined until [set_balance] has run: with it
    undefined, [make_data_array] raises before any table operation and
    [set_additional_columns] raises too; the exception is the TypeError of
    the arithmetic on None whenever the columns read before it are there
    (and, for the derivation, the lens table has a row). *)
Theorem undefined_NUM_TIMES_raises (self : Dataloader) :
  NUM_TIMES self = None ->
  (forall src tv,
     exists e, make_data_array self src tv = ([], Raise e) /\
               (getitems src (attributes self ++ ["time_index"; "objectId"; "filter"])%list
                = Ok tt -> e = TypeError)) /\
  (forall ephi lens nonlens s,
     exists e, set_additional_columns ephi self lens nonlens s = Raise e /\
               (raw_keys_present (heap s lens) -> rows (heap s lens) <> [] ->
                e = TypeError)).
Proof.
  intros Hnt. split.
  - intros src tv. unfold make_data_array, select.
    destruct (getitems src _) as [[] | e] eqn:Hsel; cbn.
    + rewrite Hnt. cbn. exists TypeError. split; [reflexivity | trivial].
    + exists e. split; [reflexivity | discriminate].
  - intros ephi lens nonlens s. rewrite set_additional_columns_unfold.
    assert (H : exists e, augment ephi self (heap s lens) = Raise e /\
                          (raw_keys_present (heap s lens) -> rows (heap s lens) <> [] ->
                           e = TypeError)).
    { unfold augment.
      destruct (add_e_phi ephi (heap s lens)) as [s1 | e] eqn:E1; cbn [bind].
      2:{ exists e. split; [reflexivity |]. intros (H1 & H2 & _) _.
          destruct (add_e_phi_total ephi _ H1 H2) as [s1 Hs1]. congruence. }
      destruct (add_e_phi_Ok _ _ _ E1) as [Hc1 Hr1].
      destruct (rebase_MJD s1) as [s2 | e] eqn:E2; cbn [bind].
      2:{ exists e. split; [reflexivity |]. intros (_ & _ & H3 & _) Hne.
          assert (Hm : mem "MJD" (columns s1) = true)
            by (rewrite Hc1; now do 2 apply mem_add_label).
          assert (Hn1 : rows s1 <> []).
          { rewrite Hr1. intros E. apply map_eq_nil in E. contradiction. }
          destruct (rebase_MJD_total s1 Hm Hn1) as [s2 Hs2]. congruence. }
      destruct (rebase_MJD_Ok _ _ E2) as (m & _ & Hc2 & _).
      unfold add_time_index. rewrite Hnt.
      destruct (getitem s2 "ccdVisitId") as [u | e] eqn:E3; cbn.
      - exists TypeError. split; [reflexivity | trivial].
      - exists e. split; [reflexivity |]. intros (_ & _ & _ & H4) _.
        unfold getitem in E3. rewrite Hc2, Hc1 in E3.
        rewrite (mem_add_label _ _ _ (mem_add_label _ _ _ H4)) in E3. discriminate E3. }
    destruct H as (e & He & Hty). rewrite He. exists e. split; [reflexivity | exact Hty].
Qed.

Lemma undefined_NUM_TIMES_raises_witness :
  make_data_array (mkDataloader None 1 true false None) one_object 1 = ([], Raise TypeError) /\
  set_additional_columns ephi_sum (mkDataloader None 1 true false None) 0%nat 1%nat two_tables
  = Raise TypeError.
Proof.
  destruct (undefined_NUM_TIMES_raises (mkDataloader None 1 true false None) eq_refl)
    as [H1 H2].
  split.
  - destruct (H1 one_object 1%Q) as (e & He & Hty). rewrite He.
    rewrite (Hty eq_refl). reflexivity.
  - destruct (H2 ephi_sum 0%nat 1%nat two_tables) as (e & He & Hty). rewrite He.
    rewrite Hty; [reflexivity | repeat split; reflexivity | discriminate].
Defined.

(* ================================================================== *)
(** ** Distinct values *)

Lemma filter_filter_comm {A : Type} (p q : A -> bool) (l : list A) :
  List.filter p (List.filter q l) = List.filter q (List.filter p l).
Proof.
  induction l as [| x l IH]; simpl; [reflexivity |].
  destruct (p x) eqn:Ep, (q x) eqn:Eq; simpl; rewrite ?Ep, ?Eq, IH; reflexivity.
Qed.

Lemma filter_idem {A : Type} (p : A -> bool) (l : list A) :
  List.filter p (List.filter p l) = List.filter p l.
Proof.
  induction l as [| x l IH]; simpl; [reflexivity |].
  destruct (p x) eqn:Ep; simpl; rewrite ?Ep, IH; reflexivity.
Qed.

Lemma filter_all {A : Type} (p : A -> bool) (l : list A) :
  (forall x, In x l -> p x = true) -> List.filter p l = l.
Proof.
  induction l as [| x l IH]; simpl; intros H; [reflexivity |].
  rewrite (H x (or_introl eq_refl)). f_equal. apply IH. intros y Hy. apply H. now right.
Qed.

Section Distinct.
Context {A : Type} (eqb : A -> A -> bool) (E : equivalence_test eqb).

Lemma eqb_congr (x a b : A) : eqb a b = true -> eqb x a = eqb x b.
Proof.
  intros Hab. destruct (eqb x a) eqn:Ea, (eqb x b) eqn:Eb; try reflexivity.
  - rewrite (eqb_trans eqb E _ _ _ Ea Hab) in Eb. discriminate.
  - rewrite (eqb_sym eqb E) in Hab. rewrite (eqb_trans eqb E _ _ _ Eb Hab) in Ea.
    discriminate.
Qed.

(** Filtering by a test that cannot tell equivalent values apart commutes
    with taking the distinct values. *)
Lemma unique_filter (q : A -> bool) (l : list A) :
  (forall a b, eqb a b = true -> q a = q b) ->
  unique eqb (List.filter q l) = List.filter q (unique eqb l).
Proof.
  intros Hq. induction l as [| a l IH]; simpl; [reflexivity |].
  destruct (q a) eqn:Ea; simpl; rewrite ?Ea, IH.
  - f_equal. apply filter_filter_comm.
  - rewrite filter_filter_comm. symmetry. apply filter_all.
    intros b Hb. apply filter_In in Hb. destruct Hb as [_ Hb].
    destruct (eqb a b) eqn:Eab; [| reflexivity].
    rewrite (Hq a b Eab) in Ea. congruence.
Qed.

Lemma nunique_cons (x : A) (l : list A) :
  nunique eqb (x :: l)
  = S (nunique eqb (List.filter (fun y => negb (eqb x y)) l)).
Proof.
  unfold nunique. simpl. f_equal. rewrite unique_filter; [reflexivity |].
  intros a b Hab. f_equal. now apply eqb_congr.
Qed.

Lemma filter_neq_congr (x a : A) (l : list A) :
  eqb x a = true ->
  List.filter (fun y => negb (eqb x y)) l = List.filter (fun y => negb (eqb a y)) l.
Proof.
  intros Hxa. apply filter_ext. intros y. f_equal.
  rewrite (eqb_sym eqb E x y), (eqb_sym eqb E a y). now apply eqb_congr.
Qed.

(** Removing the class of a value that occurs lowers the count by one. *)
Lemma nunique_remove_class (n : nat) (x : A) (l : list A) :
  (List.length l <= n)%nat -> (exists y, In y l /\ eqb x y = true) ->
  nunique eqb l = S (nunique eqb (List.filter (fun y => negb (eqb x y)) l)).
Proof.
  revert l. induction n as [| n IH]; intros l Hlen [y [Hy Hxy]].
  - destruct l; [contradiction | simpl in Hlen; lia].
  - destruct l as [| a l]; [contradiction |].
    rewrite nunique_cons. simpl List.filter.
    destruct (eqb x a) eqn:Exa; simpl.
    + now rewrite (filter_neq_congr x a l Exa).
    + rewrite nunique_cons. f_equal.
      rewrite filter_filter_comm. apply IH.
      * pose proof (filter_length_le (fun y0 => negb (eqb a y0)) l). simpl in Hlen. lia.
      * exists y. split; [| exact Hxy]. apply filter_In. split.
        -- destruct Hy as [-> | Hy]; [congruence | exact Hy].
        -- destruct (eqb a y) eqn:Eay; [| reflexivity].
           rewrite (eqb_sym eqb E) in Eay.
           rewrite (eqb_trans eqb E _ _ _ Hxy Eay) in Exa. discriminate.
Qed.

(** A list whose values all occur, up to equivalence, in another list has
    at most as many distinct values. *)
Lemma nunique_le (n : nat) (l1 l2 : list A) :
  (List.length l1 <= n)%nat ->
  (forall x, In x l1 -> exists y, In y l2 /\ eqb x y = true) ->
  (nunique eqb l1 <= nunique eqb l2)%nat.
Proof.
  revert l1 l2. induction n as [| n IH]; intros l1 l2 Hlen Hsub.
  - destruct l1; [unfold nunique; simpl; lia | simpl in Hlen; lia].
  - destruct l1 as [| x l1]; [unfold nunique; simpl; lia |].
    rewrite nunique_cons.
    rewrite (nunique_remove_class (List.length l2) x l2 (le_n _) (Hsub x (or_introl eq_refl))).
    apply le_n_S. apply IH.
    + pose proof (filter_length_le (fun y => negb (eqb x y)) l1). simpl in Hlen. lia.
    + intros z Hz. apply filter_In in Hz. destruct Hz as [Hz Hxz].
      destruct (Hsub z (or_intror Hz)) as [y [Hy Hzy]].
      exists y. split; [| exact Hzy]. apply filter_In. split; [exact Hy |].
      rewrite <- (eqb_congr x z y Hzy). exact Hxz.
Qed.
End Distinct.

Lemma Z_equivalence_test : equivalence_test Z.eqb.
Proof.
  constructor.
  - apply Z.eqb_refl.
  - apply Z.eqb_sym.
  - intros x y z Hxy Hyz. apply Z.eqb_eq in Hxy, Hyz. subst. apply Z.eqb_refl.
Qed.

Lemma Q_equivalence_test : equivalence_test Qeq_bool.
Proof.
  constructor.
  - intros x. apply Qeq_bool_iff. reflexivity.
  - intros x y. destruct (Qeq_bool x y) eqn:E1, (Qeq_bool y x) eqn:E2; try reflexivity.
    + apply Qeq_bool_iff in E1. symmetry in E1. apply Qeq_bool_iff in E1. congruence.
    + apply Qeq_bool_iff in E2. symmetry in E2. apply Qeq_bool_iff in E2. congruence.
  - intros x y z Hxy Hyz. apply Qeq_bool_iff in Hxy, Hyz. apply Qeq_bool_iff.
    now rewrite Hxy.
Qed.

Lemma unique_In (l : list Z) (x : Z) : In x (unique Z.eqb l) <-> In x l.
Proof.
  induction l as [| a l IH]; simpl; [reflexivity |].
  rewrite filter_In, IH, negb_true_iff, Z.eqb_neq.
  destruct (Z.eq_dec a x); intuition.
Qed.

Lemma unique_NoDup (l : list Z) : NoDup (unique Z.eqb l).
Proof.
  induction l as [| a l IH]; simpl; constructor.
  - intros H. apply filter_In in H. destruct H as [_ H].
    now rewrite Z.eqb_refl in H.
  - now apply NoDup_filter.
Qed.

Lemma isin_In (ids : list Z) (x : Z) : isin ids x = true <-> In x ids.
Proof.
  unfold isin. rewrite existsb_exists. split.
  - intros [y [Hy E]]. apply Z.eqb_eq in E. now subst.
  - intros H. exists x. split; [exact H | apply Z.eqb_refl].
Qed.

Lemma filter_isin_firstn (k : nat) (U : list Z) :
  NoDup U -> List.filter (isin (firstn k U)) U = firstn k U.
Proof.
  intros Hnd. rewrite <- (firstn_skipn k U) at 2.
  rewrite <- (firstn_skipn k U) in Hnd.
  rewrite filter_app, filter_all, filter_none.
  - apply app_nil_r.
  - intros y Hy. destruct (isin (firstn k U) y) eqn:Ei; [| reflexivity].
    apply isin_In in Ei. exfalso.
    apply NoDup_app_remove_l in Hnd as Hnd2.
    revert Ei Hy. generalize (firstn k U) (skipn k U) Hnd. clear.
    intros l1 l2 Hnd H1 H2. induction l1 as [| a l1 IH]; [contradiction |].
    simpl in Hnd. inversion Hnd as [| ? ? Hnotin Hnd']; subst.
    destruct H1 as [-> | H1]; [| now apply IH].
    apply Hnotin. apply in_or_app. now right.
  - intros y Hy. now apply isin_In.
Qed.

(* ================================================================== *)
(** ** Balancer: when it returns, and what it leaves in the store *)

Lemma cut_idem (cutoff : option Q) (df : DataFrame) :
  cut cutoff (cut cutoff df) = cut cutoff df.
Proof. unfold cut. cbn [columns rows]. now rewrite filter_idem. Qed.

(** The two in-place queries: both tables are cut, whether or not the two
    references are the same object. *)
Lemma queries_Ok (lens nonlens : loc) (cutoff : option Q) (s : store) :
  mem "MJD" (columns (heap s nonlens)) = true ->
  mem "MJD" (columns (heap s lens)) = true ->
  exists s2,
    (s1 <- query_inplace nonlens cutoff s ;; query_inplace lens cutoff s1) = Ok s2 /\
    heap s2 lens = cut cutoff (heap s lens) /\
    heap s2 nonlens = cut cutoff (heap s nonlens) /\
    next s2 = next s /\
    (forall l, l <> lens -> l <> nonlens -> heap s2 l = heap s l).
Proof.
  intros HN HL. unfold query_inplace. cbv zeta. rewrite HN. cbn [bind heap put].
  destruct (Nat.eqb_spec lens nonlens) as [-> | Hneq].
  - cbn [columns]. rewrite HN. eexists. split; [reflexivity |].
    cbn [heap put next]. rewrite Nat.eqb_refl.
    fold (cut cutoff (heap s nonlens)).
    change {| columns := columns (heap s nonlens);
              rows := List.filter (fun r => below cutoff (MJD r))
                        (rows (cut cutoff (heap s nonlens))) |}
      with (cut cutoff (cut cutoff (heap s nonlens))).
    rewrite cut_idem. do 3 (split; [reflexivity |]).
    intros l Hl _. destruct (Nat.eqb_spec l nonlens); [contradiction | reflexivity].
  - rewrite HL. eexists. split; [reflexivity |].
    cbn [heap put next]. rewrite Nat.eqb_refl.
    destruct (Nat.eqb_spec nonlens lens) as [E | _]; [congruence |].
    rewrite ?Nat.eqb_refl.
    do 3 (split; [reflexivity |]).
    intros l Hl1 Hl2.
    destruct (Nat.eqb_spec l lens); [contradiction |].
    destruct (Nat.eqb_spec l nonlens); [contradiction | reflexivity].
Qed.

Lemma queries_raise (lens nonlens : loc) (cutoff : option Q) (s : store) :
  mem "MJD" (columns (heap s nonlens)) = false \/ mem "MJD" (columns (heap s lens)) = false ->
  (s1 <- query_inplace nonlens cutoff s ;; query_inplace lens cutoff s1)
  = Raise (NameError "MJD").
Proof.
  intros H. unfold query_inplace. cbv zeta.
  destruct (mem "MJD" (columns (heap s nonlens))) eqn:HN; cbn [bind heap put]; [| reflexivity].
  destruct H as [H | HL]; [discriminate |].
  destruct (Nat.eqb_spec lens nonlens) as [-> | _]; [congruence |].
  now rewrite HL.
Qed.

Lemma set_balance_unfold (self : Dataloader) (lens nonlens : loc) (cutoff : option Q)
    (s : store) :
  set_balance self lens nonlens cutoff s
  = (s2 <- (s1 <- query_inplace nonlens cutoff s ;; query_inplace lens cutoff s1) ;;
     n <- nunique_MJD (heap s2 nonlens) ;;
     n1 <- nunique_MJD (heap s2 nonlens) ;;
     n2 <- nunique_MJD (heap s2 lens) ;;
     _ <- assert (n1 =? n2)%nat ;;
     _ <- getitem (heap s2 nonlens) "objectId" ;;
     let kept := first_objects (NUM_POSITIVES self) (heap s2 nonlens) in
     _ <- assert (shape_eqb (shape (heap (snd (alloc kept s2)) lens))
                            (shape (heap (snd (alloc kept s2)) (next s2)))) ;;
     Ok (set_NUM_TIMES n self, snd (alloc kept s2), (lens, next s2))).
Proof.
  unfold set_balance.
  destruct (query_inplace nonlens cutoff s) as [s1 | e]; cbn [bind]; [| reflexivity].
  destruct (query_inplace lens cutoff s1) as [s2 | e]; cbn [bind]; reflexivity.
Qed.

(** X3. [set_balance] returns exactly when both tables have an MJD
    column, the non-lens table has an objectId column, the two tables cut
    at the cutoff have the same number of distinct MJD values, and the cut
    lens table has the shape of the non-lens table cut and reduced to its
    first NUM_POSITIVES objects. *)
Theorem set_balance_returns_iff (self : Dataloader) (lens nonlens : loc)
    (cutoff : option Q) (s : store) :
  (lens < next s)%nat ->
  ((exists r, set_balance self lens nonlens cutoff s = Ok r) <->
   mem "MJD" (columns (heap s nonlens)) = true /\
   mem "MJD" (columns (heap s lens)) = true /\
   mem "objectId" (columns (heap s nonlens)) = true /\
   distinct_MJD (cut cutoff (heap s nonlens)) = distinct_MJD (cut cutoff (heap s lens)) /\
   shape (cut cutoff (heap s lens))
   = shape (first_objects (NUM_POSITIVES self) (cut cutoff (heap s nonlens)))).
Proof.
  intros Hl. rewrite set_balance_unfold.
  destruct (mem "MJD" (columns (heap s nonlens))) eqn:HN.
  2:{ rewrite queries_raise by (now left). cbn [bind].
      split; [intros [r H]; discriminate H | intros [H _]; discriminate H]. }
  destruct (mem "MJD" (columns (heap s lens))) eqn:HL.
  2:{ rewrite queries_raise by (now right). cbn [bind].
      split; [intros [r H]; discriminate H | intros (_ & H & _); discriminate H]. }
  destruct (queries_Ok lens nonlens cutoff s HN HL) as (s2 & -> & H2l & H2n & Hnx & _).
  cbn [bind]. unfold nunique_MJD, getitem. rewrite H2l, H2n. cbn [columns cut].
  rewrite HN, HL. cbn [bind]. fold (cut cutoff (heap s nonlens)) (cut cutoff (heap s lens)).
  fold (distinct_MJD (cut cutoff (heap s nonlens))) (distinct_MJD (cut cutoff (heap s lens))).
  destruct (Nat.eqb_spec (distinct_MJD (cut cutoff (heap s nonlens)))
                         (distinct_MJD (cut cutoff (heap s lens)))) as [Ed | Ed]; cbn [assert bind].
  2:{ split; [intros [r H]; discriminate H | intros (_ & _ & _ & H & _); contradiction]. }
  destruct (mem "objectId" (columns (heap s nonlens))) eqn:HO; cbn [bind].
  2:{ split; [intros [r H]; discriminate H | intros (_ & _ & H & _); discriminate H]. }
  cbv zeta. cbn [alloc snd heap]. rewrite Nat.eqb_refl.
  replace (lens =? next s2)%nat with false by (symmetry; apply Nat.eqb_neq; lia).
  rewrite H2l.
  destruct (shape_eqb (shape (cut cutoff (heap s lens)))
              (shape (first_objects (NUM_POSITIVES self) (cut cutoff (heap s nonlens)))))
    eqn:Es; cbn [assert bind].
  - apply shape_eqb_eq in Es. split; [intros _; tauto | intros _; eexists; reflexivity].
  - split; [intros [r H]; discriminate H |].
    intros (_ & _ & _ & _ & H). rewrite H, shape_eqb_refl in Es. discriminate Es.
Qed.

Lemma set_balance_returns_iff_witness :
  exists r, set_balance (loader 2 0 false) 0%nat 1%nat None lens_and_nonlens = Ok r.
Proof.
  apply (set_balance_returns_iff (loader 2 0 false) 0%nat 1%nat None lens_and_nonlens).
  - simpl; lia.
  - repeat split; reflexivity.
Defined.

(** What a returning [set_balance] leaves behind. *)
Lemma set_balance_Ok (self self' : Dataloader) (lens nonlens rl rn : loc)
    (cutoff : option Q) (s s' : store) :
  (lens < next s)%nat ->
  set_balance self lens nonlens cutoff s = Ok (self', s', (rl, rn)) ->
  self' = set_NUM_TIMES (distinct_MJD (cut cutoff (heap s nonlens))) self /\
  distinct_MJD (cut cutoff (heap s lens)) = distinct_MJD (cut cutoff (heap s nonlens)) /\
  rl = lens /\ rn = next s /\ next s' = S (next s) /\
  heap s' lens = cut cutoff (heap s lens) /\
  heap s' (next s) = first_objects (NUM_POSITIVES self) (cut cutoff (heap s nonlens)) /\
  (forall l, l <> next s -> l <> lens ->
     heap s' l = if (l =? nonlens)%nat then cut cutoff (heap s nonlens) else heap s l).
Proof.
  intros Hl. rewrite set_balance_unfold.
  destruct (mem "MJD" (columns (heap s nonlens))) eqn:HN.
  2:{ rewrite queries_raise by (now left). discriminate. }
  destruct (mem "MJD" (columns (heap s lens))) eqn:HL.
  2:{ rewrite queries_raise by (now right). discriminate. }
  destruct (queries_Ok lens nonlens cutoff s HN HL) as (s2 & -> & H2l & H2n & Hnx & Hfr).
  cbn [bind]. unfold nunique_MJD, getitem. rewrite H2l, H2n. cbn [columns cut].
  rewrite HN, HL. cbn [bind]. fold (cut cutoff (heap s nonlens)) (cut cutoff (heap s lens)).
  fold (distinct_MJD (cut cutoff (heap s nonlens))) (distinct_MJD (cut cutoff (heap s lens))).
  destruct (Nat.eqb_spec (distinct_MJD (cut cutoff (heap s nonlens)))
                         (distinct_MJD (cut cutoff (heap s lens)))) as [Ed | Ed];
    cbn [assert bind]; [| discriminate].
  destruct (mem "objectId" (columns (heap s nonlens))); cbn [bind]; [| discriminate].
  cbv zeta.
  destruct (shape_eqb _ _); cbn [assert bind]; [| discriminate].
  intros H. injection H as <- <- <- <-.
  cbn [alloc snd heap next]. rewrite Hnx, Nat.eqb_refl.
  replace (lens =? next s)%nat with false by (symmetry; apply Nat.eqb_neq; lia).
  do 5 (split; [now auto |]). split; [exact H2l |]. split; [reflexivity |].
  intros l Hl1 Hl2.
  destruct (Nat.eqb_spec l (next s)) as [E | _]; [contradiction |].
  destruct (Nat.eqb_spec l nonlens) as [-> | Hl3]; [exact H2n | now apply Hfr].
Qed.

Lemma set_balance_MJD (self : Dataloader) (lens nonlens : loc) (cutoff : option Q)
    (s : store) r :
  set_balance self lens nonlens cutoff s = Ok r ->
  mem "MJD" (columns (heap s lens)) = true /\
  mem "MJD" (columns (heap s nonlens)) = true.
Proof.
  rewrite set_balance_unfold.
  destruct (mem "MJD" (columns (heap s nonlens))) eqn:HN.
  2:{ rewrite queries_raise by (now left). discriminate. }
  destruct (mem "MJD" (columns (heap s lens))) eqn:HL.
  2:{ rewrite queries_raise by (now right). discriminate. }
  now split.
Qed.

(** X4. The table [set_balance] returns for the non-lenses holds the first
    NUM_POSITIVES distinct objects of the cut non-lens table, in their
    order of first appearance, and no other object. *)
Theorem set_balance_keeps_first_objects (self self' : Dataloader)
    (lens nonlens rl rn : loc) (cutoff : option Q) (s s' : store) :
  (lens < next s)%nat ->
  set_balance self lens nonlens cutoff s = Ok (self', s', (rl, rn)) ->
  unique Z.eqb (map objectId (rows (heap s' rn)))
  = firstn (NUM_POSITIVES self)
      (unique Z.eqb (map objectId (rows (cut cutoff (heap s nonlens))))).
Proof.
  intros Hl H.
  destruct (set_balance_Ok _ _ _ _ _ _ _ _ _ Hl H) as (_ & _ & _ & -> & _ & _ & -> & _).
  unfold first_objects. cbn [rows].
  rewrite <- (filter_map_comm
    (isin (firstn (NUM_POSITIVES self)
       (unique Z.eqb (map objectId (rows (cut cutoff (heap s nonlens)))))))
    objectId).
  rewrite (unique_filter Z.eqb).
  - apply filter_isin_firstn, unique_NoDup.
  - intros a b Hab. apply Z.eqb_eq in Hab. now subst.
Qed.

Lemma set_balance_keeps_first_objects_witness :
  exists self' s' rl rn,
    set_balance (loader 2 0 false) 0%nat 1%nat None lens_and_nonlens
    = Ok (self', s', (rl, rn)) /\
    unique Z.eqb (map objectId (rows (heap s' rn)))
    = firstn 2 (unique Z.eqb (map objectId (rows (cut None (heap lens_and_nonlens 1%nat))))).
Proof.
  destruct (set_balance (loader 2 0 false) 0%nat 1%nat None lens_and_nonlens)
    as [[[self' s'] [rl rn]] | e] eqn:E; [| discriminate E].
  exists self', s', rl, rn. split; [reflexivity |].
  apply (set_balance_keeps_first_objects (loader 2 0 false) self' 0%nat 1%nat rl rn
           None lens_and_nonlens s').
  - simpl; lia.
  - exact E.
Defined.

(** X5. A returning [set_balance] cuts both input tables in place at the
    cutoff, stores the reduced non-lens table under a fresh reference,
    which it returns next to the lens reference it was given, and leaves
    every other table of the store as it was. *)
Theorem set_balance_store (self self' : Dataloader) (lens nonlens rl rn : loc)
    (cutoff : option Q) (s s' : store) :
  (lens < next s)%nat -> (nonlens < next s)%nat ->
  set_balance self lens nonlens cutoff s = Ok (self', s', (rl, rn)) ->
  rl = lens /\ rn = next s /\ next s' = S (next s) /\
  heap s' lens = cut cutoff (heap s lens) /\
  heap s' nonlens = cut cutoff (heap s nonlens) /\
  heap s' rn = first_objects (NUM_POSITIVES self) (cut cutoff (heap s nonlens)) /\
  (forall l, l <> lens -> l <> nonlens -> l <> rn -> heap s' l = heap s l).
Proof.
  intros Hl Hn H.
  destruct (set_balance_Ok _ _ _ _ _ _ _ _ _ Hl H)
    as (_ & _ & -> & -> & Hnx & HL & HK & Hfr).
  do 4 (split; [now auto |]). split; [| split; [exact HK |]].
  - destruct (Nat.eq_dec nonlens lens) as [-> | Hneq]; [exact HL |].
    rewrite Hfr by (try lia; assumption). now rewrite Nat.eqb_refl.
  - intros l H1 H2 H3. rewrite Hfr by assumption.
    destruct (Nat.eqb_spec l nonlens); [contradiction | reflexivity].
Qed.

Lemma set_balance_store_witness :
  exists s', next s' = 3%nat /\
    heap s' 0%nat = cut None (heap lens_and_nonlens 0%nat) /\
    heap s' 2%nat = first_objects 2 (cut None (heap lens_and_nonlens 1%nat)).
Proof.
  destruct (set_balance (loader 2 0 false) 0%nat 1%nat None lens_and_nonlens)
    as [[[self' s'] [rl rn]] | e] eqn:E; [| discriminate E].
  exists s'.
  destruct (set_balance_store (loader 2 0 false) self' 0%nat 1%nat rl rn None
              lens_and_nonlens s') as (_ & Hrn & Hnx & HL & _ & HK & _).
  - simpl; lia.
  - simpl; lia.
  - exact E.
  - rewrite Hrn in HK. auto.
Defined.

(** X6. After [set_balance] the lens table has exactly NUM_TIMES distinct
    MJD values, and the returned non-lens table has at most NUM_TIMES of
    them. *)
Theorem set_balance_distinct_times_bound (self self' : Dataloader)
    (lens nonlens rl rn : loc) (cutoff : option Q) (s s' : store) :
  (lens < next s)%nat ->
  set_balance self lens nonlens cutoff s = Ok (self', s', (rl, rn)) ->
  exists nt, NUM_TIMES self' = Some nt /\
    distinct_MJD (heap s' rl) = nt /\
    (distinct_MJD (heap s' rn) <= nt)%nat.
Proof.
  intros Hl H.
  destruct (set_balance_Ok _ _ _ _ _ _ _ _ _ Hl H)
    as (-> & Ed & -> & -> & _ & HL & HK & _).
  eexists. split; [reflexivity |]. rewrite HL, HK. split; [exact Ed |].
  unfold distinct_MJD, first_objects. cbn [rows].
  apply (nunique_le Qeq_bool Q_equivalence_test
           (List.length (map MJD (List.filter
              (fun r => isin (firstn (NUM_POSITIVES self)
                  (unique Z.eqb (map objectId (rows (cut cutoff (heap s nonlens))))))
                  (objectId r))
              (rows (cut cutoff (heap s nonlens))))))); [lia |].
  intros x Hx. exists x. split.
  - apply in_map_iff in Hx. destruct Hx as (r & <- & Hr).
    apply filter_In in Hr. apply in_map, Hr.
  - apply Q_equivalence_test.
Qed.

Lemma set_balance_distinct_times_bound_witness :
  exists self' s' rl rn nt,
    set_balance (loader 2 0 false) 0%nat 1%nat None lens_and_nonlens
    = Ok (self', s', (rl, rn)) /\
    NUM_TIMES self' = Some nt /\
    distinct_MJD (heap s' rl) = nt /\ (distinct_MJD (heap s' rn) <= nt)%nat.
Proof.
  destruct (set_balance (loader 2 0 false) 0%nat 1%nat None lens_and_nonlens)
    as [[[self' s'] [rl rn]] | e] eqn:E; [| discriminate E].
  destruct (set_balance_distinct_times_bound (loader 2 0 false) self' 0%nat 1%nat rl rn
              None lens_and_nonlens s') as (nt & H1 & H2 & H3).
  - simpl; lia.
  - exact E.
  - exists self', s', rl, rn, nt. auto.
Defined.

(* ================================================================== *)
(** ** Stable sorting *)

Lemma insert_stable_map {A B : Type} (f : A -> B) (cmp : B -> B -> comparison)
    (cmp' : A -> A -> comparison) (x : A) (l : list A) :
  (forall a b, cmp (f a) (f b) = cmp' a b) ->
  insert_stable cmp (f x) (map f l) = map f (insert_stable cmp' x l).
Proof.
  intros H. induction l as [| y l IH]; simpl; [reflexivity |].
  rewrite H. destruct (cmp' x y); simpl; try reflexivity. now rewrite IH.
Qed.

Lemma sort_stable_map {A B : Type} (f : A -> B) (cmp : B -> B -> comparison)
    (cmp' : A -> A -> comparison) (l : list A) :
  (forall a b, cmp (f a) (f b) = cmp' a b) ->
  sort_stable cmp (map f l) = map f (sort_stable cmp' l).
Proof.
  intros H. unfold sort_stable. induction l as [| x l IH]; simpl; [reflexivity |].
  rewrite IH. now apply insert_stable_map.
Qed.

Lemma insert_stable_Permutation {A : Type} (cmp : A -> A -> comparison) (x : A)
    (l : list A) :
  Permutation (insert_stable cmp x l) (x :: l).
Proof.
  induction l as [| y l IH]; simpl; [reflexivity |].
  destruct (cmp x y); try reflexivity.
  rewrite IH. apply perm_swap.
Qed.

Lemma sort_stable_Permutation {A : Type} (cmp : A -> A -> comparison) (l : list A) :
  Permutation (sort_stable cmp l) l.
Proof.
  unfold sort_stable. induction l as [| x l IH]; simpl; [reflexivity |].
  rewrite insert_stable_Permutation. now constructor.
Qed.

Lemma insert_stable_sorted {A : Type} (cmp : A -> A -> comparison) (x : A) (l : list A) :
  (forall a b, cmp a b = Gt -> cmp b a <> Gt) ->
  Sorted (fun a b => cmp a b <> Gt) l ->
  Sorted (fun a b => cmp a b <> Gt) (insert_stable cmp x l).
Proof.
  intros Hanti Hs. induction l as [| y l IH]; simpl.
  - repeat constructor.
  - destruct (cmp x y) eqn:E.
    + constructor; [exact Hs |]. constructor. congruence.
    + constructor; [exact Hs |]. constructor. congruence.
    + inversion Hs as [| ? ? Hs' Hhd]; subst. constructor; [now apply IH |].
      destruct l as [| z l]; simpl.
      * constructor. now apply Hanti.
      * inversion Hhd; subst. destruct (cmp x z); constructor; auto.
Qed.

Lemma sort_stable_sorted {A : Type} (cmp : A -> A -> comparison) (l : list A) :
  (forall a b, cmp a b = Gt -> cmp b a <> Gt) ->
  Sorted (fun a b => cmp a b <> Gt) (sort_stable cmp l).
Proof.
  intros Hanti. unfold sort_stable. induction l as [| x l IH]; simpl.
  - constructor.
  - now apply insert_stable_sorted.
Qed.

Lemma Sorted_consecutive {A : Type} (R : A -> A -> Prop) (l : list A) (i : nat) (a b : A) :
  Sorted R l -> nth_error l i = Some a -> nth_error l (S i) = Some b -> R a b.
Proof.
  intros Hs. revert i. induction Hs as [| x l Hs IH Hhd]; intros i Ha Hb.
  - destruct i; discriminate Ha.
  - destruct i as [| i]; simpl in Ha, Hb.
    + inversion Ha; subst. destruct l; [discriminate Hb |].
      simpl in Hb. inversion Hb; subst. now inversion Hhd.
    + eapply IH; eassumption.
Qed.

Lemma Qcompare_minus (a b m : Q) : (a - m ?= b - m)%Q = (a ?= b)%Q.
Proof.
  destruct (Qcompare_spec a b) as [E | E | E].
  - apply Qeq_alt. now rewrite E.
  - apply Qlt_alt. unfold Qminus. now apply Qplus_lt_l.
  - apply Qgt_alt. unfold Qminus. now apply Qplus_lt_l.
Qed.

Lemma by_object_filter_MJD_antisym (a b : Row) :
  by_object_filter_MJD a b = Gt -> by_object_filter_MJD b a <> Gt.
Proof.
  unfold by_object_filter_MJD.
  rewrite (Z.compare_antisym (objectId a) (objectId b)).
  rewrite (String.compare_antisym (filter b) (filter a)).
  rewrite <- (Qcompare_antisym (MJD a) (MJD b)).
  destruct (objectId a ?= objectId b)%Z; simpl; try congruence.
  destruct (String.compare (filter a) (filter b)); simpl; try congruence.
  destruct (MJD a ?= MJD b)%Q; simpl; congruence.
Qed.

(** Consecutive rows of one (objectId, filter) group are in time order. *)
Lemma sorted_rows_time_order (src : DataFrame) (i : nat) (r1 r2 : Row) :
  nth_error (sorted_rows src) i = Some r1 ->
  nth_error (sorted_rows src) (S i) = Some r2 ->
  objectId r1 = objectId r2 -> filter r1 = filter r2 ->
  (MJD r1 <= MJD r2)%Q.
Proof.
  intros H1 H2 Ho Hf.
  pose proof (Sorted_consecutive _ _ _ _ _
                (sort_stable_sorted by_object_filter_MJD (rows src)
                   by_object_filter_MJD_antisym) H1 H2) as H.
  cbv beta in H. unfold by_object_filter_MJD in H.
  rewrite Ho, Z.compare_refl, Hf, string_compare_refl in H.
  now apply Qle_alt.
Qed.

(* ================================================================== *)
(** ** Deriver: the rows it leaves *)

Lemma astype_int_rows (a : Row -> option nat) (l : list Row) (tis : list Z) :
  astype_int (map a l) = Ok tis ->
  map (fun rt => set_time_index (snd rt) (fst rt)) (combine l tis)
  = map (fun r => set_time_index
                    (Z.of_nat (match a r with Some k => k | None => 0%nat end)) r) l /\
  Forall (fun r => a r <> None) l.
Proof.
  revert tis. induction l as [| r l IH]; simpl; intros tis H.
  - split; [reflexivity | constructor].
  - destruct (a r) as [k |] eqn:E; [| discriminate H].
    apply bind_Ok in H. destruct H as [zs [H1 H2]]. inversion H2; subst tis.
    destruct (IH zs H1) as [IH1 IH2]. simpl. rewrite IH1.
    split; [reflexivity |]. constructor; [congruence | exact IH2].
Qed.

(** The rows of an augmented table, as a function of the raw rows in
    sorted order. *)
Lemma augment_rows (ephi : cell -> cell -> cell * cell) (self : Dataloader)
    (src df' : DataFrame) :
  augment ephi self src = Ok df' ->
  exists (m : Q) (nt : nat) (F : Row -> Row),
    np_min (map MJD (rows src)) = Ok m /\
    NUM_TIMES self = Some nt /\
    (forall r, In r (rows src) ->
       objectId (F r) = objectId r /\ filter (F r) = filter r /\
       MJD (F r) = (MJD r - m)%Q /\
       (forall l, l <> "e" -> l <> "phi" -> num (F r) l = num r l) /\
       assoc Z.eqb (ccdVisitId r) (combine (visits src) (seq 0 nt))
       = Some (Z.to_nat (time_index (F r))) /\
       (0 <= time_index (F r))%Z) /\
    rows df'
    = map (fun rv => set_num "d_time" (clip_min 0 (fillna 0 (snd rv)))
                       (set_num "d_time" (fillna 0 (snd rv))
                          (set_num "d_time" (snd rv) (fst rv))))
          (combine (map F (sorted_rows src))
             (map (fun ab => cell_sub (fst ab) (snd ab))
                (combine (map (fun r => Some (MJD r)) (map F (sorted_rows src)))
                   (shift1 (map (fun r => Some (MJD r)) (map F (sorted_rows src))))))).
Proof.
  unfold augment. intros H.
  apply bind_Ok in H. destruct H as [s1 [H1 H]].
  apply bind_Ok in H. destruct H as [s2 [H2 H]].
  apply bind_Ok in H. destruct H as [s3 [H3 H]].
  apply bind_Ok in H. destruct H as [s4 [H4 H]].
  apply drop_rows in H.
  destruct (add_e_phi_Ok _ _ _ H1) as [_ Hr1].
  destruct (rebase_MJD_Ok _ _ H2) as (m & Hm & _ & Hr2).
  destruct (add_time_index_Ok _ _ _ H3) as (nt & tis & Hnt & Hti & _ & Hr3).
  destruct (add_d_time_Ok _ _ _ _ _ H4 eq_refl eq_refl eq_refl) as [_ Hr4].
  assert (Hv : map ccdVisitId (rows s2) = map ccdVisitId (rows src)).
  { rewrite Hr2, Hr1, !map_map. apply map_ext. reflexivity. }
  rewrite Hv in Hti. fold (visits src) in Hti.
  apply astype_int_rows in Hti. destruct Hti as [Hti Hsome].
  rewrite Hti in Hr3. rewrite Hr2, Hr1, !map_map in Hr3.
  rewrite Hr2, Hr1, !map_map in Hsome. rewrite Forall_map in Hsome.
  cbn [ccdVisitId set_MJD set_num] in Hr3, Hsome.
  assert (Hmin : np_min (map MJD (rows src)) = Ok m).
  { rewrite <- Hm, Hr1, map_map. f_equal. }
  exists m, nt.
  exists (fun r =>
    set_time_index
      (Z.of_nat match assoc Z.eqb (ccdVisitId r) (combine (visits src) (seq 0 nt)) with
                | Some k => k
                | None => 0%nat
                end)
      (set_MJD (MJD r - m)
         (set_num "phi" (snd (ephi (num r "e1") (num r "e2")))
            (set_num "e" (fst (ephi (num r "e1") (num r "e2"))) r)))).
  split; [exact Hmin |]. split; [exact Hnt |]. split.
  - intros r Hin. cbn [objectId filter MJD time_index num set_time_index set_MJD set_num].
    rewrite Forall_forall in Hsome. specialize (Hsome r Hin).
    do 3 (split; [reflexivity |]). split.
    + intros l He Hp. apply String.eqb_neq in He, Hp. now rewrite Hp, He.
    + rewrite Nat2Z.id.
      destruct (assoc Z.eqb (ccdVisitId r) (combine (visits src) (seq 0 nt)));
        [split; [reflexivity | lia] | contradiction].
  - rewrite H, Hr4, Hr3. unfold sorted_rows.
    rewrite (sort_stable_map _ by_object_filter_MJD by_object_filter_MJD).
    + reflexivity.
    + intros a b. unfold by_object_filter_MJD.
      cbn [objectId filter MJD set_time_index set_MJD set_num].
      now rewrite Qcompare_minus.
Qed.

Lemma shift1_length (l : list cell) : List.length (shift1 l) = List.length l.
Proof.
  destruct l as [| x l]; [reflexivity |].
  cbn [shift1]. rewrite removelast_firstn_len. cbn [List.length Nat.pred].
  rewrite length_firstn. cbn [List.length]. lia.
Qed.

Lemma diffs_length (mjd : list cell) :
  List.length (map (fun ab => cell_sub (fst ab) (snd ab)) (combine mjd (shift1 mjd)))
  = List.length mjd.
Proof. rewrite length_map, length_combine, shift1_length. apply Nat.min_id. Qed.

Lemma Forall2_map_combine {A B C : Type} (P : C -> A -> Prop) (g : B * cell -> C)
    (F : A -> B) (S : list A) (D : list cell) :
  List.length D = List.length S ->
  (forall r d, In r S -> P (g (F r, d)) r) ->
  Forall2 P (map g (combine (map F S) D)) S.
Proof.
  revert D. induction S as [| r S IH]; intros D Hlen HP.
  - constructor.
  - destruct D as [| d D]; [discriminate Hlen |]. simpl. constructor.
    + apply HP. now left.
    + apply IH; [simpl in Hlen; lia |]. intros r' d' Hin. apply HP. now right.
Qed.

Lemma assoc_combine_seq_nth (ks : list Z) (s n : nat) (x : Z) (k : nat) :
  assoc Z.eqb x (combine ks (seq s n)) = Some k ->
  nth_error ks (k - s) = Some x.
Proof.
  revert s n. induction ks as [| a ks IH]; intros s n; simpl; [discriminate |].
  destruct n as [| n]; simpl; [discriminate |].
  destruct (Z.eqb_spec x a) as [-> | _].
  - intros H; inversion H; subst. now rewrite Nat.sub_diag.
  - intros H. pose proof (assoc_combine_seq_Some _ _ _ _ _ H) as Hk.
    apply IH in H. replace (k - s)%nat with (S (k - S s)) by lia. exact H.
Qed.

(** A returning [set_additional_columns] was given two different tables,
    and has derived each of them from its raw state. *)
Lemma set_additional_columns_tables (ephi : cell -> cell -> cell * cell)
    (self : Dataloader) (lens nonlens : loc) (s s' : store) (r : loc * loc) :
  set_additional_columns ephi self lens nonlens s = Ok (s', r) ->
  lens <> nonlens /\
  forall l, l = lens \/ l = nonlens -> augment ephi self (heap s l) = Ok (heap s' l).
Proof.
  intros H. apply set_additional_columns_Ok in H.
  destruct H as (df1 & df2 & H1 & H2 & -> & _).
  assert (Hneq : lens <> nonlens).
  { intros E. subst nonlens. cbn [heap put] in H2. rewrite Nat.eqb_refl in H2.
    apply augment_columns in H1, H2.
    destruct H1 as (_ & _ & _ & _ & _ & Hno & _). destruct H2 as [Hm _]. congruence. }
  split; [exact Hneq |].
  cbn [heap put] in H2.
  destruct (Nat.eqb_spec nonlens lens) as [E | _]; [congruence |].
  intros l [-> | ->]; cbn [heap put].
  - destruct (Nat.eqb_spec lens nonlens) as [E | _]; [congruence |].
    now rewrite Nat.eqb_refl.
  - now rewrite Nat.eqb_refl.
Qed.

Lemma augment_kept_rows (ephi : cell -> cell -> cell * cell) (self : Dataloader)
    (src df' : DataFrame) :
  augment ephi self src = Ok df' ->
  Forall2 kept_row (rows df') (sorted_rows src).
Proof.
  intros H. destruct (augment_rows _ _ _ _ H) as (m & nt & F & _ & _ & HF & ->).
  apply Forall2_map_combine.
  - rewrite diffs_length, !length_map. reflexivity.
  - intros r d Hin. apply sort_stable_In in Hin.
    destruct (HF r Hin) as (Ho & Hf & _ & Hn & _).
    unfold kept_row. cbn [objectId filter num set_num fst snd].
    split; [exact Ho |]. split; [exact Hf |].
    intros l He Hp Hd. apply String.eqb_neq in Hd. rewrite Hd. now apply Hn.
Qed.

(** X7. [set_additional_columns] loses no observation: on return each of
    the two tables holds the rows of its raw state in the stable order of
    (objectId, filter, MJD), every row with its objectId, its filter and
    every numeric column other than e, phi and d_time unchanged. *)
Theorem set_additional_columns_keeps_rows (ephi : cell -> cell -> cell * cell)
    (self : Dataloader) (lens nonlens : loc) (s s' : store) (r : loc * loc) :
  set_additional_columns ephi self lens nonlens s = Ok (s', r) ->
  forall l, l = lens \/ l = nonlens ->
    Forall2 kept_row (rows (heap s' l)) (sorted_rows (heap s l)).
Proof.
  intros H l Hl. apply set_additional_columns_tables in H.
  destruct H as [_ H]. eapply augment_kept_rows. now apply H.
Qed.

Lemma set_additional_columns_keeps_rows_witness :
  exists s',
    set_additional_columns ephi_sum (loader 1 4 false) 0%nat 1%nat two_tables
    = Ok (s', (0%nat, 1%nat)) /\
    Forall2 kept_row (rows (heap s' 0%nat)) (sorted_rows (heap two_tables 0%nat)).
Proof.
  destruct (set_additional_columns ephi_sum (loader 1 4 false) 0%nat 1%nat two_tables)
    as [[s' r] |] eqn:E; [| vm_compute in E; discriminate E].
  exists s'. split.
  - apply set_additional_columns_Ok in E. destruct E as (_ & _ & _ & _ & _ & ->).
    reflexivity.
  - apply (set_additional_columns_keeps_rows ephi_sum (loader 1 4 false) 0%nat 1%nat
             two_tables s' r E). now left.
Defined.

Lemma Forall2_In_combine {A B : Type} (P : A -> B -> Prop) (l1 : list A) (l2 : list B)
    (a : A) (b : B) :
  Forall2 P l1 l2 -> In (a, b) (combine l1 l2) -> P a b.
Proof.
  induction 1 as [| x y l1 l2 Hxy _ IH]; simpl; [contradiction |].
  intros [E | Hin]; [now inversion E; subst | now apply IH].
Qed.

Lemma StronglySorted_nth_lt (l : list Z) (i j : nat) (a b : Z) :
  StronglySorted (lt_by Z.compare) l ->
  nth_error l i = Some a -> nth_error l j = Some b -> (i < j)%nat -> (a < b)%Z.
Proof.
  intros Hs. revert i j. induction Hs as [| x l Hs IH Hall]; intros i j Ha Hb Hij.
  - destruct i; discriminate Ha.
  - destruct j as [| j]; [lia |]. simpl in Hb. destruct i as [| i]; simpl in Ha.
    + inversion Ha; subst. rewrite Forall_forall in Hall.
      apply (Hall b). eapply nth_error_In; eassumption.
    + apply (IH i j); [assumption | assumption | lia].
Qed.

Lemma StronglySorted_nth_compare (l : list Z) (i j : nat) (a b : Z) :
  StronglySorted (lt_by Z.compare) l ->
  nth_error l i = Some a -> nth_error l j = Some b ->
  (a ?= b)%Z = (i ?= j)%nat.
Proof.
  intros Hs Ha Hb. destruct (Nat.compare_spec i j) as [E | E | E].
  - subst j. rewrite Ha in Hb. inversion Hb. apply Z.compare_refl.
  - apply Z.compare_lt_iff. eapply StronglySorted_nth_lt; eassumption.
  - apply Z.compare_gt_iff. eapply StronglySorted_nth_lt; eassumption.
Qed.

(** The time index of a row is the position of its visit identifier in
    the increasing list of the distinct visit identifiers of its table. *)
Lemma augment_time_rank (ephi : cell -> cell -> cell * cell) (self : Dataloader)
    (src df' : DataFrame) :
  augment ephi self src = Ok df' ->
  Forall2 (fun r' r => (0 <= time_index r')%Z /\
                       nth_error (visits src) (Z.to_nat (time_index r'))
                       = Some (ccdVisitId r))
          (rows df') (sorted_rows src).
Proof.
  intros H. destruct (augment_rows _ _ _ _ H) as (m & nt & F & _ & _ & HF & ->).
  apply Forall2_map_combine.
  - rewrite diffs_length, !length_map. reflexivity.
  - intros r d Hin. apply sort_stable_In in Hin.
    destruct (HF r Hin) as (_ & _ & _ & _ & Ha & H0).
    cbn [time_index set_num fst snd]. split; [exact H0 |].
    apply assoc_combine_seq_nth in Ha. now rewrite Nat.sub_0_r in Ha.
Qed.

(** X8. [set_additional_columns] numbers the visits in increasing order:
    on return, two rows of a table compare by time_index as the raw rows
    they come from compare by ccdVisitId (smaller, equal or larger). *)
Theorem time_index_preserves_visit_order (ephi : cell -> cell -> cell * cell)
    (self : Dataloader) (lens nonlens : loc) (s s' : store) (r : loc * loc) :
  set_additional_columns ephi self lens nonlens s = Ok (s', r) ->
  forall l, l = lens \/ l = nonlens ->
  forall r1' r1 r2' r2,
    In (r1', r1) (combine (rows (heap s' l)) (sorted_rows (heap s l))) ->
    In (r2', r2) (combine (rows (heap s' l)) (sorted_rows (heap s l))) ->
    (time_index r1' ?= time_index r2')%Z = (ccdVisitId r1 ?= ccdVisitId r2)%Z.
Proof.
  intros H l Hl r1' r1 r2' r2 H1 H2. apply set_additional_columns_tables in H.
  destruct H as [_ H]. specialize (H l Hl). apply augment_time_rank in H.
  destruct (Forall2_In_combine _ _ _ _ _ H H1) as [Hp1 Hn1].
  destruct (Forall2_In_combine _ _ _ _ _ H H2) as [Hp2 Hn2].
  rewrite (StronglySorted_nth_compare _ _ _ _ _
             (sort_uniq_sorted Z.compare Z_total_order _) Hn1 Hn2).
  rewrite <- Z2Nat.inj_compare by assumption. reflexivity.
Qed.

Lemma time_index_preserves_visit_order_witness :
  exists s' r,
    set_additional_columns ephi_sum (loader 1 4 false) 0%nat 1%nat two_tables = Ok (s', r) /\
    forall r1' r1 r2' r2,
      In (r1', r1) (combine (rows (heap s' 0%nat)) (sorted_rows (heap two_tables 0%nat))) ->
      In (r2', r2) (combine (rows (heap s' 0%nat)) (sorted_rows (heap two_tables 0%nat))) ->
      (time_index r1' ?= time_index r2')%Z = (ccdVisitId r1 ?= ccdVisitId r2)%Z.
Proof.
  destruct (set_additional_columns ephi_sum (loader 1 4 false) 0%nat 1%nat two_tables)
    as [[s' r] |] eqn:E; [| vm_compute in E; discriminate E].
  exists s', r. split; [reflexivity |].
  apply (time_index_preserves_visit_order ephi_sum (loader 1 4 false) 0%nat 1%nat
           two_tables s' r E). now left.
Defined.

Lemma nth_error_combine_shift1 (l : list cell) (i : nat) (x : cell) :
  nth_error l i = Some x ->
  nth_error (combine l (shift1 l)) i
  = Some (x, match i with O => None | S j => nth j l None end).
Proof.
  assert (G : forall (l : list cell) (d : cell) (i : nat) (x : cell),
            nth_error l i = Some x ->
            nth_error (combine l (removelast (d :: l))) i
            = Some (x, match i with O => d | S j => nth j l None end)).
  { clear. induction l as [| x0 l IH]; intros d i x Hx.
    - destruct i; discriminate Hx.
    - change (removelast (d :: x0 :: l)) with (d :: removelast (x0 :: l)).
      destruct i as [| i]; simpl in Hx; cbn [combine nth_error].
      + now inversion Hx.
      + rewrite (IH x0 i x Hx). destruct i; reflexivity. }
  intros Hx. destruct l as [| x0 l]; [destruct i; discriminate Hx |].
  change (shift1 (x0 :: l)) with (removelast (None :: x0 :: l)).
  now apply G.
Qed.

Lemma nth_error_combine {A B : Type} (l1 : list A) (l2 : list B) (i : nat) (a : A) (b : B) :
  nth_error l1 i = Some a -> nth_error l2 i = Some b ->
  nth_error (combine l1 l2) i = Some (a, b).
Proof.
  revert l2 i. induction l1 as [| x l1 IH]; intros l2 i Ha Hb.
  - destruct i; discriminate Ha.
  - destruct l2 as [| y l2]; [destruct i; discriminate Hb |].
    destruct i as [| i]; simpl in *.
    + inversion Ha; inversion Hb; reflexivity.
    + now apply IH.
Qed.

(** The d_time entry of the row at position [i] of an augmented table. *)
Lemma augment_d_time_nth (ephi : cell -> cell -> cell * cell) (self : Dataloader)
    (src df' : DataFrame) (i : nat) (r r' : Row) :
  augment ephi self src = Ok df' ->
  nth_error (sorted_rows src) i = Some r ->
  nth_error (rows df') i = Some r' ->
  exists m,
    num r' "d_time"
    = clip_min 0 (fillna 0 (match i with
                            | O => None
                            | S j => Some ((MJD r - m) - (MJD (nth j (sorted_rows src) r) - m))%Q
                            end)).
Proof.
  intros H Hr Hr'.
  destruct (augment_rows _ _ _ _ H) as (m & nt & F & _ & _ & HF & Hrows).
  exists m. rewrite Hrows in Hr'. clear Hrows.
  assert (HFr : MJD (F r) = (MJD r - m)%Q).
  { apply HF. apply (sort_stable_In by_object_filter_MJD).
    eapply nth_error_In; exact Hr. }
  assert (Hm : nth_error (map (fun r => Some (MJD r)) (map F (sorted_rows src))) i
               = Some (Some (MJD r - m)%Q)).
  { rewrite map_map. rewrite nth_error_map, Hr. cbn [option_map]. now rewrite HFr. }
  pose proof (nth_error_combine_shift1 _ _ _ Hm) as Hc.
  assert (Hd : nth_error (map (fun ab => cell_sub (fst ab) (snd ab))
                 (combine (map (fun r => Some (MJD r)) (map F (sorted_rows src)))
                    (shift1 (map (fun r => Some (MJD r)) (map F (sorted_rows src)))))) i
               = Some (cell_sub (Some (MJD r - m)%Q)
                         match i with
                         | O => None
                         | S j => nth j (map (fun r => Some (MJD r))
                                           (map F (sorted_rows src))) None
                         end)).
  { rewrite nth_error_map, Hc. reflexivity. }
  assert (HL : nth_error (map F (sorted_rows src)) i = Some (F r)).
  { rewrite nth_error_map, Hr. reflexivity. }
  rewrite nth_error_map, (nth_error_combine _ _ _ _ _ HL Hd) in Hr'.
  cbn [option_map] in Hr'. inversion Hr'; subst r'. clear Hr'.
  cbn [num set_num fst snd String.eqb Ascii.eqb Bool.eqb]. cbn [andb].
  destruct i as [| j]; [reflexivity |].
  assert (Hj : (j < List.length (sorted_rows src))%nat).
  { apply Nat.lt_le_incl. apply nth_error_Some. congruence. }
  rewrite map_map.
  rewrite (nth_indep _ None (Some (MJD (F r)))) by (now rewrite length_map).
  rewrite (map_nth (fun x => Some (MJD (F x)))).
  assert (HFj : MJD (F (nth j (sorted_rows src) r))
                = (MJD (nth j (sorted_rows src) r) - m)%Q).
  { apply HF. apply (sort_stable_In by_object_filter_MJD). now apply nth_In. }
  rewrite HFj. reflexivity.
Qed.

Lemma clip_gap (a b m : Q) :
  exists q, clip_min 0 (fillna 0 (Some ((a - m) - (b - m))%Q)) = Some q /\
            (q == Qmax 0 (a - b))%Q.
Proof.
  assert (E : ((a - m) - (b - m) == a - b)%Q) by ring.
  cbn [fillna clip_min].
  destruct (Qle_bool 0 ((a - m) - (b - m))) eqn:Hle; eexists; (split; [reflexivity |]).
  - apply Qle_bool_iff in Hle. rewrite E in Hle |- *. symmetry. now apply Q.max_r.
  - assert (Hlt : (a - b < 0)%Q).
    { apply Qnot_le_lt. intros Hc. rewrite <- E in Hc. apply Qle_bool_iff in Hc.
      congruence. }
    symmetry. apply Q.max_l. now apply Qlt_le_weak.
Qed.

(** X9. The d_time column on return: the first row of a table has 0, and
    every later row has the MJD gap to the row before it in the order of
    (objectId, filter, MJD), raised to 0 when negative; between two
    consecutive rows of one (objectId, filter) group it is the exact gap. *)
Theorem d_time_is_clipped_gap (ephi : cell -> cell -> cell * cell)
    (self : Dataloader) (lens nonlens : loc) (s s' : store) (r : loc * loc) :
  set_additional_columns ephi self lens nonlens s = Ok (s', r) ->
  forall l, l = lens \/ l = nonlens ->
    (forall r', nth_error (rows (heap s' l)) 0 = Some r' -> num r' "d_time" = Some 0%Q) /\
    (forall i r1 r2 r',
       nth_error (sorted_rows (heap s l)) i = Some r1 ->
       nth_error (sorted_rows (heap s l)) (S i) = Some r2 ->
       nth_error (rows (heap s' l)) (S i) = Some r' ->
       exists q, num r' "d_time" = Some q /\
                 (q == Qmax 0 (MJD r2 - MJD r1))%Q /\
                 (objectId r1 = objectId r2 -> filter r1 = filter r2 ->
                  (q == MJD r2 - MJD r1)%Q)).
Proof.
  intros H l Hl. apply set_additional_columns_tables in H.
  destruct H as [_ H]. specialize (H l Hl).
  pose proof (augment_kept_rows _ _ _ _ H) as Hk. apply Forall2_length in Hk.
  split.
  - intros r' Hr'.
    destruct (nth_error (sorted_rows (heap s l)) 0) as [r0 |] eqn:H0.
    + destruct (augment_d_time_nth _ _ _ _ 0 r0 r' H H0 Hr') as [m ->]. reflexivity.
    + apply nth_error_None in H0.
      assert (Hlt : (0 < List.length (rows (heap s' l)))%nat)
        by (apply nth_error_Some; congruence).
      lia.
  - intros i r1 r2 r' H1 H2 Hr'.
    destruct (augment_d_time_nth _ _ _ _ (S i) r2 r' H H2 Hr') as [m ->].
    rewrite (nth_error_nth _ _ r2 H1).
    destruct (clip_gap (MJD r2) (MJD r1) m) as (q & -> & Hq).
    exists q. split; [reflexivity |]. split; [exact Hq |].
    intros Ho Hf. rewrite Hq. apply Q.max_r.
    pose proof (sorted_rows_time_order _ _ _ _ H1 H2 Ho Hf) as Hle.
    unfold Qminus. rewrite <- (Qplus_opp_r (MJD r1)). now apply Qplus_le_l.
Qed.

Lemma d_time_is_clipped_gap_witness :
  exists s' r,
    set_additional_columns ephi_sum (loader 1 4 false) 0%nat 1%nat two_tables = Ok (s', r) /\
    forall r', nth_error (rows (heap s' 0%nat)) 0 = Some r' -> num r' "d_time" = Some 0%Q.
Proof.
  destruct (set_additional_columns ephi_sum (loader 1 4 false) 0%nat 1%nat two_tables)
    as [[s' r] |] eqn:E; [| vm_compute in E; discriminate E].
  exists s', r. split; [reflexivity |].
  apply (d_time_is_clipped_gap ephi_sum (loader 1 4 false) 0%nat 1%nat
           two_tables s' r E 0%nat). now left.
Defined.

(* ================================================================== *)
(** ** Deriver: columns, repeated calls, empty tables *)

Lemma add_e_phi_mem (ephi : cell -> cell -> cell * cell) (src s1 : DataFrame) :
  add_e_phi ephi src = Ok s1 ->
  mem "e1" (columns src) = true /\ mem "e2" (columns src) = true.
Proof.
  unfold add_e_phi. intros H.
  apply bind_Ok in H. destruct H as [u1 [H1 H]].
  apply bind_Ok in H. destruct H as [u2 [H2 _]].
  split; eapply getitem_Ok; eassumption.
Qed.

(** The labels of an augmented table. *)
Lemma augment_columns_eq (ephi : cell -> cell -> cell * cell) (self : Dataloader)
    (src df' : DataFrame) :
  augment ephi self src = Ok df' ->
  columns df'
  = List.filter (fun c => negb (String.eqb c "ccdVisitId"))
      (List.filter (fun c => negb (String.eqb c "MJD"))
         (add_label "d_time" (add_label "d_time" (add_label "d_time"
            (add_label "time_index" (add_label "phi" (add_label "e" (columns src)))))))).
Proof.
  unfold augment. intros H.
  apply bind_Ok in H. destruct H as [s1 [H1 H]].
  apply bind_Ok in H. destruct H as [s2 [H2 H]].
  apply bind_Ok in H. destruct H as [s3 [H3 H]].
  apply bind_Ok in H. destruct H as [s4 [H4 H]].
  apply drop_MJD_ccdVisitId in H.
  destruct (add_e_phi_Ok _ _ _ H1) as [Hc1 _].
  destruct (rebase_MJD_Ok _ _ H2) as (m & _ & Hc2 & _).
  destruct (add_time_index_Ok _ _ _ H3) as (nt & tis & _ & _ & Hc3 & _).
  destruct (add_d_time_Ok _ _ _ _ _ H4 eq_refl eq_refl eq_refl) as [Hc4 _].
  now rewrite H, Hc4, Hc3, Hc2, Hc1.
Qed.

(** Every column but MJD and ccdVisitId survives the derivation. *)
Lemma augment_mem (ephi : cell -> cell -> cell * cell) (self : Dataloader)
    (src df' : DataFrame) (l : string) :
  augment ephi self src = Ok df' ->
  mem l (columns src) = true -> l <> "MJD" -> l <> "ccdVisitId" ->
  mem l (columns df') = true.
Proof.
  intros H Hm H1 H2. rewrite (augment_columns_eq _ _ _ _ H), !mem_filter_neq.
  apply String.eqb_neq in H1, H2. rewrite H1, H2, !andb_true_r.
  now do 6 apply mem_add_label.
Qed.

Lemma augment_twice (ephi ephi2 : cell -> cell -> cell * cell) (self self2 : Dataloader)
    (src df' : DataFrame) :
  augment ephi self src = Ok df' ->
  augment ephi2 self2 df' = Raise (KeyError "MJD").
Proof.
  intros H.
  assert (He : mem "e1" (columns src) = true /\ mem "e2" (columns src) = true).
  { unfold augment in H. apply bind_Ok in H. destruct H as [s1 [H1 _]].
    eapply add_e_phi_mem; eassumption. }
  destruct He as [He1 He2].
  pose proof (augment_mem _ _ _ _ "e1" H He1 ltac:(discriminate) ltac:(discriminate)) as G1.
  pose proof (augment_mem _ _ _ _ "e2" H He2 ltac:(discriminate) ltac:(discriminate)) as G2.
  destruct (augment_columns _ _ _ _ H) as (_ & _ & _ & _ & _ & Hno & _).
  unfold augment.
  destruct (add_e_phi_total ephi2 df' G1 G2) as [s1 Hs1]. rewrite Hs1. cbn [bind].
  destruct (add_e_phi_Ok _ _ _ Hs1) as [Hc1 _].
  unfold rebase_MJD, getitem. rewrite Hc1, !mem_add_label_neq by reflexivity.
  rewrite Hno. reflexivity.
Qed.

(** X10. [set_additional_columns] cannot be run twice on the same table:
    given one table for both arguments it raises, and called again on the
    tables of a call that returned it raises the KeyError of the MJD
    column it has dropped. *)
Theorem set_additional_columns_not_repeatable (ephi : cell -> cell -> cell * cell)
    (self : Dataloader) (lens nonlens : loc) (s : store) :
  (lens = nonlens ->
   exists e, set_additional_columns ephi self lens nonlens s = Raise e /\
             (forall df, augment ephi self (heap s lens) = Ok df -> e = KeyError "MJD")) /\
  (forall s' r ephi2 self2,
     set_additional_columns ephi self lens nonlens s = Ok (s', r) ->
     set_additional_columns ephi2 self2 lens nonlens s' = Raise (KeyError "MJD")).
Proof.
  split.
  - intros <-. rewrite set_additional_columns_unfold.
    destruct (augment ephi self (heap s lens)) as [df1 | e] eqn:E1; cbn [bind].
    + cbn [heap put]. rewrite Nat.eqb_refl.
      rewrite (augment_twice _ ephi _ self _ _ E1). cbn [bind].
      exists (KeyError "MJD"). split; [reflexivity | trivial].
    + exists e. split; [reflexivity | discriminate].
  - intros s' r ephi2 self2 H. apply set_additional_columns_tables in H.
    destruct H as [_ H]. rewrite set_additional_columns_unfold.
    rewrite (augment_twice _ ephi2 _ self2 _ _ (H lens (or_introl eq_refl))).
    reflexivity.
Qed.

Lemma set_additional_columns_not_repeatable_witness :
  exists s' r,
    set_additional_columns ephi_sum (loader 1 4 false) 0%nat 1%nat two_tables = Ok (s', r) /\
    set_additional_columns ephi_sum (loader 1 4 false) 0%nat 1%nat s'
    = Raise (KeyError "MJD").
Proof.
  destruct (set_additional_columns ephi_sum (loader 1 4 false) 0%nat 1%nat two_tables)
    as [[s' r] |] eqn:E; [| vm_compute in E; discriminate E].
  exists s', r. split; [reflexivity |].
  exact (proj2 (set_additional_columns_not_repeatable ephi_sum (loader 1 4 false)
                  0%nat 1%nat two_tables) s' r ephi_sum (loader 1 4 false) E).
Defined.

Lemma augment_empty_raises (ephi : cell -> cell -> cell * cell) (self : Dataloader)
    (src : DataFrame) :
  mem "e1" (columns src) = true -> mem "e2" (columns src) = true ->
  mem "MJD" (columns src) = true -> rows src = [] ->
  augment ephi self src = Raise ValueError.
Proof.
  intros H1 H2 H3 Hr. unfold augment.
  destruct (add_e_phi_total ephi src H1 H2) as [s1 Hs1]. rewrite Hs1. cbn [bind].
  destruct (add_e_phi_Ok _ _ _ Hs1) as [Hc1 Hr1].
  unfold rebase_MJD, getitem. rewrite Hc1, !mem_add_label_neq by reflexivity.
  rewrite H3, Hr1, Hr. reflexivity.
Qed.

(** X11. A cutoff below every lens observation is not caught by
    [set_balance]: when it returns, the lens table it returns is empty,
    and [set_additional_columns] on the returned tables raises the
    ValueError of the minimum of an empty array (the e1 and e2 columns
    being there). *)
Theorem cutoff_below_all_observations (ephi : cell -> cell -> cell * cell)
    (self self' : Dataloader) (lens nonlens rl rn : loc) (cutoff : option Q)
    (s s' : store) :
  (lens < next s)%nat ->
  mem "e1" (columns (heap s lens)) = true -> mem "e2" (columns (heap s lens)) = true ->
  Forall (fun r => below cutoff (MJD r) = false) (rows (heap s lens)) ->
  set_balance self lens nonlens cutoff s = Ok (self', s', (rl, rn)) ->
  rows (heap s' rl) = [] /\
  set_additional_columns ephi self' rl rn s' = Raise ValueError.
Proof.
  intros Hl He1 He2 Hall H.
  destruct (set_balance_MJD _ _ _ _ _ _ H) as [HM _].
  destruct (set_balance_Ok _ _ _ _ _ _ _ _ _ Hl H) as (_ & _ & -> & -> & _ & HL & _).
  assert (Hr : rows (heap s' lens) = []).
  { rewrite HL. cbn [cut rows]. apply filter_none.
    intros r Hin. rewrite Forall_forall in Hall. now apply Hall. }
  split; [exact Hr |].
  rewrite set_additional_columns_unfold.
  rewrite augment_empty_raises; [reflexivity | | | | exact Hr];
    rewrite HL; cbn [cut columns]; assumption.
Qed.

Lemma cutoff_below_all_observations_witness :
  exists self' s' rl rn,
    set_balance (loader 1 0 false) 0%nat 1%nat (Some 0%Q) two_tables
    = Ok (self', s', (rl, rn)) /\
    rows (heap s' rl) = [] /\
    set_additional_columns ephi_sum self' rl rn s' = Raise ValueError.
Proof.
  destruct (set_balance (loader 1 0 false) 0%nat 1%nat (Some 0%Q) two_tables)
    as [[[self' s'] [rl rn]] | e] eqn:E; [| vm_compute in E; discriminate E].
  exists self', s', rl, rn. split; [reflexivity |].
  apply (cutoff_below_all_observations ephi_sum (loader 1 0 false) self' 0%nat 1%nat rl rn
           (Some 0%Q) two_tables s').
  - simpl; lia.
  - reflexivity.
  - reflexivity.
  - repeat constructor.
  - exact E.
Defined.

Lemma getitems_all (df : DataFrame) (ls : list string) :
  (forall l, In l ls -> mem l (columns df) = true) -> getitems df ls = Ok tt.
Proof.
  induction ls as [| l ls IH]; simpl; intros H; [reflexivity |].
  rewrite (getitem_mem df l) by (apply H; now left). cbn [bind].
  apply IH. intros l' Hl'. apply H. now right.
Qed.

Lemma augment_keys (ephi : cell -> cell -> cell * cell) (self : Dataloader)
    (src df' : DataFrame) :
  augment ephi self src = Ok df' ->
  mem "objectId" (columns src) = true /\ mem "filter" (columns src) = true.
Proof.
  unfold augment. intros H.
  apply bind_Ok in H. destruct H as [s1 [H1 H]].
  apply bind_Ok in H. destruct H as [s2 [H2 H]].
  apply bind_Ok in H. destruct H as [s3 [H3 H]].
  apply bind_Ok in H. destruct H as [s4 [H4 _]].
  destruct (add_e_phi_Ok _ _ _ H1) as [Hc1 _].
  destruct (rebase_MJD_Ok _ _ H2) as (m & _ & Hc2 & _).
  destruct (add_time_index_Ok _ _ _ H3) as (nt & tis & _ & _ & Hc3 & _).
  unfold add_d_time in H4. apply bind_Ok in H4. destruct H4 as [[] [H4 _]].
  pose proof (getitems_Ok_In _ _ "objectId" H4 ltac:(simpl; tauto)) as Ho.
  pose proof (getitems_Ok_In _ _ "filter" H4 ltac:(simpl; tauto)) as Hf.
  rewrite Hc3, Hc2, Hc1 in Ho, Hf.
  rewrite !mem_add_label_neq in Ho, Hf by reflexivity. now split.
Qed.

(** X12. The tables [set_additional_columns] returns have every column
    [make_data_array] selects, whenever the raw table had the attribute
    columns that are not derived (all but e, phi and d_time): the
    selection returns, with the rows of the table. *)
Theorem derived_table_selectable (ephi : cell -> cell -> cell * cell)
    (self : Dataloader) (lens nonlens : loc) (s s' : store) (r : loc * loc) (l : loc) :
  set_additional_columns ephi self lens nonlens s = Ok (s', r) ->
  l = lens \/ l = nonlens ->
  (forall a, In a (attributes self) -> a <> "e" -> a <> "phi" -> a <> "d_time" ->
             mem a (columns (heap s l)) = true) ->
  select (heap s' l) (attributes self ++ ["time_index"; "objectId"; "filter"])%list
  = Ok {| columns := (attributes self ++ ["time_index"; "objectId"; "filter"])%list;
          rows := rows (heap s' l) |}.
Proof.
  intros H Hl Hraw. apply set_additional_columns_tables in H.
  destruct H as [_ H]. specialize (H l Hl).
  destruct (augment_columns _ _ _ _ H) as (_ & He & Hp & Ht & Hd & _).
  destruct (augment_keys _ _ _ _ H) as [Ho Hf].
  apply select_Ok, getitems_all. intros a Ha. apply in_app_or in Ha.
  destruct Ha as [Ha | Ha].
  - destruct (String.eqb_spec a "e") as [-> | Ne]; [exact He |].
    destruct (String.eqb_spec a "phi") as [-> | Np]; [exact Hp |].
    destruct (String.eqb_spec a "d_time") as [-> | Nd]; [exact Hd |].
    apply (augment_mem _ _ _ _ a H); [now apply Hraw | |].
    + intros ->. revert Ha. unfold attributes.
      destruct (lightcurve_only self); simpl; intuition discriminate.
    + intros ->. revert Ha. unfold attributes.
      destruct (lightcurve_only self); simpl; intuition discriminate.
  - simpl in Ha. destruct Ha as [<- | [<- | [<- | []]]].
    + exact Ht.
    + apply (augment_mem _ _ _ _ _ H Ho); discriminate.
    + apply (augment_mem _ _ _ _ _ H Hf); discriminate.
Qed.

Lemma derived_table_selectable_witness :
  exists s' r,
    set_additional_columns ephi_sum (loader 1 4 false) 0%nat 1%nat two_tables = Ok (s', r) /\
    select (heap s' 0%nat)
      (attributes (loader 1 4 false) ++ ["time_index"; "objectId"; "filter"])%list
    = Ok {| columns := (attributes (loader 1 4 false)
                        ++ ["time_index"; "objectId"; "filter"])%list;
            rows := rows (heap s' 0%nat) |}.
Proof.
  destruct (set_additional_columns ephi_sum (loader 1 4 false) 0%nat 1%nat two_tables)
    as [[s' r] |] eqn:E; [| vm_compute in E; discriminate E].
  exists s', r. split; [reflexivity |].
  apply (derived_table_selectable ephi_sum (loader 1 4 false) 0%nat 1%nat two_tables s' r
           0%nat E).
  - now left.
  - intros a Ha _ _ Hd. simpl in Ha.
    destruct Ha as [<- | [<- | [<- | []]]]; try reflexivity. now contradiction Hd.
Defined.

(* ================================================================== *)
(** ** Tensor builder: how it ends *)

Lemma getitems_missing (df : DataFrame) (ls : list string) (l : string) :
  In l ls -> mem l (columns df) = false ->
  exists k, getitems df ls = Raise (KeyError k) /\ In k ls /\ mem k (columns df) = false.
Proof.
  intros Hin Hm. destruct (getitems df ls) as [[] | e] eqn:E.
  - rewrite (getitems_Ok_In _ _ _ E Hin) in Hm. discriminate Hm.
  - destruct (getitems_raises_KeyError _ _ _ E) as (k & -> & Hk). exists k. tauto.
Qed.

(** X13. A table that lacks one of the columns [make_data_array] selects
    makes it raise the KeyError of a missing column, before any table
    operation. *)
Theorem make_data_array_missing_column (self : Dataloader) (src : DataFrame) (tv : Q)
    (l : string) :
  In l (attributes self ++ ["time_index"; "objectId"; "filter"])%list ->
  mem l (columns src) = false ->
  exists k, make_data_array self src tv = ([], Raise (KeyError k)) /\
            In k (attributes self ++ ["time_index"; "objectId"; "filter"])%list /\
            mem k (columns src) = false.
Proof.
  intros Hin Hm. destruct (getitems_missing src _ l Hin Hm) as (k & Hk & Hkin & Hkm).
  exists k. split; [| now split].
  unfold make_data_array, select. rewrite Hk. reflexivity.
Qed.

Lemma make_data_array_missing_column_witness :
  exists k, make_data_array (loader 1 1 false) g_then_r 1 = ([], Raise (KeyError k)).
Proof.
  destruct (make_data_array_missing_column (loader 1 1 false) g_then_r 1 "d_time")
    as (k & Hk & _).
  - simpl; tauto.
  - reflexivity.
  - exists k. exact Hk.
Defined.

Lemma clean_bind {A B : Type} (m : M A) (k : A -> M B) :
  clean m -> (forall a, clean (k a)) -> clean (bindM m k).
Proof.
  unfold clean, bindM. destruct m as [log [a | e]]; cbn [fst snd].
  - intros [[Hf Hr] _] Hk. specialize (Hk a). destruct (k a) as [log' r].
    cbn [fst snd] in *. destruct Hk as [[Hf' Hr'] He]. split; [| exact He].
    split; intros Hin; apply in_app_or in Hin; tauto.
  - intros [Hq He] _. split; [exact Hq |].
    intros e0 H. inversion H; subst. now apply He.
Qed.

Lemma clean_assert (b : bool) : clean (lift (assert b)).
Proof.
  unfold clean, lift, assert. cbn [fst snd]. split; [simpl; tauto |].
  destruct b; intros e H; inversion H. now left.
Qed.

Lemma clean_retM {A : Type} (a : A) : clean (retM a).
Proof. unfold clean, retM. cbn [fst snd]. split; [simpl; tauto | discriminate]. Qed.

Lemma clean_call {A : Type} (o : op) (r : result A) :
  o <> FillNull -> o <> Reshape ->
  (forall e, r = Raise e -> builder_exception e) -> clean (call o r).
Proof.
  intros H1 H2 He. unfold clean, call. cbn [fst snd]. split; [| exact He].
  simpl. split; intros [E | []]; congruence.
Qed.

Lemma getitems_builder_exception (df : DataFrame) (ls : list string) (e : exn) :
  getitems df ls = Raise e -> builder_exception e.
Proof.
  intros H. destruct (getitems_raises_KeyError _ _ _ H) as (k & -> & _).
  right. right. now exists k.
Qed.

Lemma pivot_filters_exception (src : DataFrame) (vals : list string) (e : exn) :
  pivot_filters src vals = Raise e -> builder_exception e.
Proof.
  unfold pivot_filters.
  destruct (getitems src _) as [u | e0] eqn:E; cbn [bind]; [discriminate |].
  intros H; inversion H; subst. eapply getitems_builder_exception; eassumption.
Qed.

Lemma pivot_times_exception (src : DataFrame) (vals : list string) (e : exn) :
  pivot_times src vals = Raise e -> builder_exception e.
Proof.
  unfold pivot_times.
  destruct (getitems src _) as [u | e0] eqn:E; cbn [bind]; [discriminate |].
  intros H; inversion H; subst. eapply getitems_builder_exception; eassumption.
Qed.

Lemma get_dummies_exception (src : DataFrame) (e : exn) :
  get_dummies src = Raise e -> builder_exception e.
Proof.
  unfold get_dummies, getitem. destruct (mem "filter" (columns src)); cbn [bind];
    [discriminate |].
  intros H; inversion H. right. right. now eexists.
Qed.

Lemma per_filter_layout_clean (self : Dataloader) (nt : nat) (src : DataFrame) :
  clean (per_filter_layout self nt src).
Proof.
  unfold per_filter_layout.
  apply clean_bind; [apply clean_call; try discriminate; apply pivot_filters_exception |].
  intros p1. cbv zeta.
  do 3 (apply clean_bind; [apply clean_assert | intros _]).
  apply clean_bind; [apply clean_call; try discriminate; apply pivot_times_exception |].
  intros p2.
  do 2 (apply clean_bind; [apply clean_assert | intros _]).
  apply clean_retM.
Qed.

Lemma onehot_layout_clean (self : Dataloader) (nt : nat) (src : DataFrame) :
  clean (onehot_layout self nt src).
Proof.
  unfold onehot_layout.
  apply clean_bind; [apply clean_call; try discriminate; apply get_dummies_exception |].
  intros d.
  apply clean_bind; [apply clean_assert | intros _]. cbv zeta.
  apply clean_bind; [apply clean_call; try discriminate; apply pivot_times_exception |].
  intros p.
  apply clean_bind; [apply clean_assert | intros _].
  apply clean_retM.
Qed.

Lemma bindM_Raise {A B : Type} (m : M A) (k : A -> M B) (log : list op) (e : exn) :
  bindM m k = (log, Raise e) ->
  m = (log, Raise e) \/
  exists l1 a l2, m = (l1, Ok a) /\ k a = (l2, Raise e) /\ log = (l1 ++ l2)%list.
Proof.
  destruct m as [l1 [a | e0]]; simpl.
  - destruct (k a) as [l2 r] eqn:Hk. intros H. inversion H; subst.
    right. exists l1, a, l2. repeat split; auto.
  - intros H; inversion H; subst. now left.
Qed.

Lemma lift_Raise {A : Type} (r : result A) (log : list op) (e : exn) :
  lift r = (log, Raise e) -> r = Raise e /\ log = [].
Proof. unfold lift. intros H; inversion H; split; reflexivity. Qed.

(** X14. How [make_data_array] ends.  A run that returns has done, in
    this order, the two table operations of its layout (two pivots, or
    the one-hot encoding and one pivot), the sentinel fill and the
    reshape.  A run that aborts ends with an AssertionError, a TypeError
    or a KeyError, and has neither filled nor reshaped anything: the
    reshape itself never fails. *)
Theorem make_data_array_outcomes (self : Dataloader) (src : DataFrame) (tv : Q) :
  match make_data_array self src tv with
  | (log, Ok _) =>
      log = if onehot_filters self
            then [GetDummies; PivotTable; FillNull; Reshape]
            else [PivotTable; PivotTable; FillNull; Reshape]
  | (log, Raise e) =>
      builder_exception e /\ ~ In FillNull log /\ ~ In Reshape log
  end.
Proof.
  destruct (make_data_array self src tv) as [log [[X y] | e]] eqn:E.
  - destruct (make_data_array_returns_balanced _ _ _ _ _ _ E) as [nt Hb].
    destruct (onehot_filters self) eqn:Ho.
    + destruct (make_data_array_onehot_cells self nt src tv Ho Hb) as (X' & HX & _).
      rewrite HX in E. now inversion E.
    + destruct (make_data_array_cells self nt src tv Ho Hb) as (X' & HX & _).
      rewrite HX in E. now inversion E.
  - assert (Hnb : forall nt, ~ balanced_table self nt src).
    { intros nt Hb. destruct (onehot_filters self) eqn:Ho.
      - destruct (make_data_array_onehot_cells self nt src tv Ho Hb) as (X' & HX & _).
        rewrite HX in E. discriminate E.
      - destruct (make_data_array_cells self nt src tv Ho Hb) as (X' & HX & _).
        rewrite HX in E. discriminate E. }
    unfold make_data_array in E.
    apply bindM_Raise in E. destruct E as [E | (l1 & src' & l2 & E1 & E & ->)].
    { apply lift_Raise in E. destruct E as [E ->]. split; [| simpl; tauto].
      unfold select in E. destruct (getitems src _) as [u | e0] eqn:Hg; [discriminate E |].
      inversion E; subst. eapply getitems_builder_exception; eassumption. }
    apply lift_Ok in E1. destruct E1 as [E1 ->].
    unfold select in E1. apply bind_Ok in E1. destruct E1 as [[] [Hget E1]].
    inversion E1; subst src'; clear E1.
    apply bindM_Raise in E. destruct E as [E | (l1 & nt & l3 & E1 & E & ->)].
    { apply lift_Raise in E. destruct E as [E ->]. split; [| simpl; tauto].
      destruct (NUM_TIMES self); inversion E. right. now left. }
    apply lift_Ok in E1. destruct E1 as [Hnt ->].
    assert (Hnt' : NUM_TIMES self = Some nt) by (destruct (NUM_TIMES self); congruence).
    apply bindM_Raise in E. destruct E as [E | (l1 & u & l4 & E1 & E & ->)].
    { apply lift_Raise in E. destruct E as [E ->]. split; [| simpl; tauto].
      unfold assert in E. destruct (_ =? _)%nat; inversion E. now left. }
    apply lift_Ok in E1. destruct E1 as [Hrows ->]. apply assert_Ok in Hrows.
    apply Nat.eqb_eq in Hrows. cbn [rows] in Hrows.
    apply bindM_Raise in E. destruct E as [E | (l1 & T & l5 & E1 & E & ->)].
    { cbn [app].
      assert (Hc : clean (if onehot_filters self
                          then onehot_layout self nt
                                 {| columns := (attributes self
                                       ++ ["time_index"; "objectId"; "filter"])%list;
                                    rows := rows src |}
                          else per_filter_layout self nt
                                 {| columns := (attributes self
                                       ++ ["time_index"; "objectId"; "filter"])%list;
                                    rows := rows src |}))
        by (destruct (onehot_filters self);
            [apply onehot_layout_clean | apply per_filter_layout_clean]).
      rewrite E in Hc. destruct Hc as [[Hf Hr] He]. cbn [fst snd] in *.
      split; [now apply He | now split]. }
    exfalso. apply (Hnb nt).
    assert (Hb : List.length (sort_uniq Z.compare (map objectId (rows src)))
                 = NUM_POSITIVES self /\
                 List.length (sort_uniq Z.compare (map time_index (rows src))) = nt /\
                 (forall f, In f (map filter (rows src)) <-> In f ugriz)).
    { destruct (onehot_filters self).
      - eapply onehot_returns_balanced; eassumption.
      - eapply per_filter_returns_balanced; eassumption. }
    destruct Hb as (Hbo & Hbt & Hbf).
    constructor; assumption.
Qed.

(** X15. The one-hot layout orders its channels by label, attributes and
    filter names together, so the five indicator channels are not the
    last five.  In a cell with a single row behind it, the channel
    labelled by a filter name holds 1 if it is the filter of that row and
    0 otherwise. *)
Theorem onehot_indicator_cells (self : Dataloader) (nt : nat) (src : DataFrame) (tv : Q)
    (o t c : nat) (r : Row) :
  onehot_filters self = true ->
  balanced_table self nt src ->
  (o < NUM_POSITIVES self)%nat -> (t < nt)%nat ->
  (c < NUM_ATTRIBUTES self + NUM_FILTERS)%nat ->
  In (nth c (onehot_channels self) "") ugriz ->
  onehot_group src o t = [r] ->
  onehot_channels self
  = (if lightcurve_only self
     then ["apMag"; "apMagErr"; "d_time"; "g"; "i"; "r"; "u"; "z"]
     else ["apFlux"; "apFluxErr"; "apMag"; "apMagErr"; "d_time"; "e"; "e1"; "e2";
           "g"; "i"; "phi"; "psf_fwhm"; "r"; "trace"; "u"; "x"; "y"; "z"]) /\
  exists X y,
    snd (make_data_array self src tv) = Ok (X, y) /\
    entry X o t c
    = Some (if String.eqb (nth c (onehot_channels self) "") (filter r) then 1 else 0)%Q.
Proof.
  intros Ho Hb Hlo Hlt Hlc Hin Hg. split.
  - unfold onehot_channels, attributes. destruct (lightcurve_only self); reflexivity.
  - destruct (make_data_array_onehot_cells self nt src tv Ho Hb) as (X & HX & _ & Hcell).
    exists X, (ones_times (NUM_POSITIVES self) tv). rewrite HX. split; [reflexivity |].
    rewrite (Hcell o t c Hlo Hlt Hlc). unfold onehot_values. rewrite Hg.
    cbn [map]. rewrite nanmean_single. cbn [num add_dummies].
    assert (Hm : mem (nth c (onehot_channels self) "") (sort_uniq String.compare ugriz)
                 = true).
    { apply mem_In. apply (sort_uniq_In String.compare string_total_order). exact Hin. }
    rewrite Hm. reflexivity.
Qed.

Lemma onehot_indicator_cells_witness :
  exists X y,
    snd (make_data_array (loader 2 5 true) duplicated_visit 1) = Ok (X, y) /\
    entry X 1 0 6 = Some 1%Q.
Proof.
  destruct (onehot_indicator_cells (loader 2 5 true) 5 duplicated_visit 1 1 0 6
              (obs 2 "u" 0 0 0 (lc 7 (1#10) 0)))
    as (_ & X & y & Hrun & Hcell).
  - reflexivity.
  - exact duplicated_visit_balanced_onehot.
  - simpl; lia.
  - lia.
  - unfold NUM_FILTERS; simpl; lia.
  - simpl; tauto.
  - reflexivity.
  - exists X, y. split; [exact Hrun | exact Hcell].
Defined.

(* ================================================================== *)
(** ** Assembler and pipeline *)

Lemma make_data_array_Ok_shape (self : Dataloader) (src : DataFrame) (tv : Q)
    (log : list op) (X : ndarray) (y : list Q) :
  make_data_array self src tv = (log, Ok (X, y)) ->
  exists nt,
    NUM_TIMES self = Some nt /\
    dims X = (NUM_POSITIVES self, nt, channel_count self) /\
    well_shaped X /\
    y = repeat tv (NUM_POSITIVES self).
Proof.
  intros H. apply make_data_array_inv in H.
  destruct H as (nt & log' & T & R & _ & Hnt & _ & _ & Hre & -> & ->).
  exists nt. split; [exact Hnt |].
  assert (Hch : (if onehot_filters self
                 then (NUM_ATTRIBUTES self + NUM_FILTERS)%nat
                 else (NUM_FILTERS * NUM_ATTRIBUTES self)%nat) = channel_count self).
  { unfold channel_count. destruct (onehot_filters self); [reflexivity | apply Nat.mul_comm]. }
  rewrite Hch in *.
  split; [reflexivity |]. split; [| apply ones_times_spec].
  unfold well_shaped; simpl.
  apply swapaxes12_shape. eapply reshape_shape; eassumption.
Qed.

Lemma well_shaped_concat (X X1 X2 : ndarray) (d0 d1 d2 : nat) :
  dims X1 = (d0, d1, d2) -> dims X2 = (d0, d1, d2) ->
  dims X = ((2 * d0)%nat, d1, d2) -> items X = (items X1 ++ items X2)%list ->
  well_shaped X1 -> well_shaped X2 -> well_shaped X.
Proof.
  unfold well_shaped. intros E1 E2 E Hi. rewrite E1, E2, E, Hi.
  intros [L1 F1] [L2 F2]. split.
  - rewrite length_app. lia.
  - apply Forall_app. now split.
Qed.

(** [combine_lens_nonlens] on two arrays of the loader's shape. *)
Lemma combine_lens_nonlens_run {G : Type} (np_seed : Z -> G) (self : Dataloader)
    (X1 X2 : ndarray) (y1 y2 : list Q) (g : G) (d1 d2 : nat) :
  dims X1 = (NUM_POSITIVES self, d1, d2) ->
  dims X2 = (NUM_POSITIVES self, d1, d2) ->
  List.length y1 = List.length y2 ->
  exists X,
    combine_lens_nonlens np_seed self (X1, y1) (X2, y2) g
    = Ok (np_seed seed, (X, (y1 ++ y2)%list)) /\
    dims X = ((2 * NUM_POSITIVES self)%nat, d1, d2) /\
    items X = (items X1 ++ items X2)%list.
Proof.
  intros Hd1 Hd2 Hy. eexists. unfold combine_lens_nonlens.
  assert (Hdims : dims_eqb (dims X1) (dims X2) = true).
  { rewrite Hd1, Hd2. unfold dims_eqb. cbn [fst snd]. now rewrite !Nat.eqb_refl. }
  rewrite Hdims. cbn [assert bind]. rewrite Hy, Nat.eqb_refl.
  cbn [assert bind dims fst snd].
  assert (H0 : (fst (fst (dims X1)) + fst (fst (dims X2)) =? 2 * NUM_POSITIVES self)%nat
               = true).
  { rewrite Hd1, Hd2. cbn [fst snd]. apply Nat.eqb_eq. lia. }
  rewrite H0. cbn [assert bind]. split; [reflexivity |]. split; [| reflexivity].
  cbn [dims]. rewrite Hd1, Hd2. cbn [fst snd]. f_equal. f_equal. lia.
Qed.

(** X16. The assertions of [combine_lens_nonlens] cannot fail on two
    results of [make_data_array] of one loader: it returns the lens
    objects followed by the non-lens objects, in an array of
    2 x NUM_POSITIVES objects with the shape of its parts otherwise, the
    labels NUM_POSITIVES ones followed by NUM_POSITIVES zeros, and the
    generator seeded with the loader's seed. *)
Theorem combine_lens_nonlens_after_builder {G : Type} (np_seed : Z -> G)
    (self : Dataloader) (lens nonlens : DataFrame) (g : G)
    (log1 log2 : list op) (X1 X2 : ndarray) (y1 y2 : list Q) :
  make_data_array self lens 1 = (log1, Ok (X1, y1)) ->
  make_data_array self nonlens 0 = (log2, Ok (X2, y2)) ->
  exists nt X,
    NUM_TIMES self = Some nt /\
    combine_lens_nonlens np_seed self (X1, y1) (X2, y2) g
    = Ok (np_seed seed,
          (X, (repeat 1%Q (NUM_POSITIVES self) ++ repeat 0%Q (NUM_POSITIVES self))%list)) /\
    dims X = ((2 * NUM_POSITIVES self)%nat, nt, channel_count self) /\
    items X = (items X1 ++ items X2)%list /\
    well_shaped X.
Proof.
  intros H1 H2.
  destruct (make_data_array_Ok_shape _ _ _ _ _ _ H1) as (nt & Hnt & Hd1 & Hw1 & ->).
  destruct (make_data_array_Ok_shape _ _ _ _ _ _ H2) as (nt' & Hnt' & Hd2 & Hw2 & ->).
  rewrite Hnt in Hnt'. injection Hnt' as <-.
  destruct (combine_lens_nonlens_run np_seed self X1 X2
              (repeat 1%Q (NUM_POSITIVES self)) (repeat 0%Q (NUM_POSITIVES self)) g
              nt (channel_count self) Hd1 Hd2) as (X & Hrun & Hd & Hi).
  { now rewrite !repeat_length. }
  exists nt, X. split; [exact Hnt |]. split; [exact Hrun |].
  split; [exact Hd |]. split; [exact Hi |].
  exact (well_shaped_concat X X1 X2 _ _ _ Hd1 Hd2 Hd Hi Hw1 Hw2).
Qed.

Lemma combine_lens_nonlens_after_builder_witness :
  exists X,
    combine_lens_nonlens toy_seed (loader 1 5 false)
      (fst (match snd (make_data_array (loader 1 5 false) one_object 1) with
            | Ok d => d
            | Raise _ => (two_planes, [])
            end),
       [1%Q])
      (fst (match snd (make_data_array (loader 1 5 false) one_object 0) with
            | Ok d => d
            | Raise _ => (two_planes, [])
            end),
       [0%Q]) 0%nat
    = Ok (toy_seed seed, (X, [1%Q; 0%Q])) /\
    dims X = (2, 5, 15)%nat.
Proof.
  destruct (make_data_array (loader 1 5 false) one_object 1) as [log1 [[X1 y1] | e1]] eqn:E1;
    [| vm_compute in E1; discriminate E1].
  destruct (make_data_array (loader 1 5 false) one_object 0) as [log2 [[X2 y2] | e2]] eqn:E2;
    [| vm_compute in E2; discriminate E2].
  destruct (combine_lens_nonlens_after_builder toy_seed (loader 1 5 false)
              one_object one_object 0%nat log1 log2 X1 X2 y1 y2 E1 E2)
    as (nt & X & Hnt & Hrun & Hd & _).
  injection Hnt as <-.
  assert (Hy1 : y1 = [1%Q]) by (vm_compute in E1; now inversion E1).
  assert (Hy2 : y2 = [0%Q]) by (vm_compute in E2; now inversion E2).
  subst y1 y2. exists X. split; [exact Hrun | exact Hd].
Defined.

Lemma take_out_of_range {A : Type} (a : list A) (p : list nat) (j : nat) :
  In j p -> (List.length a <= j)%nat -> take a p = Raise IndexError.
Proof.
  intros Hin Hj. induction p as [| i p IH]; [contradiction |].
  simpl. destruct (nth_error a i) as [x |] eqn:E; [| reflexivity].
  destruct Hin as [-> | Hin].
  - apply nth_error_None in Hj. congruence.
  - now rewrite (IH Hin).
Qed.

Lemma map_snd_combine {A B : Type} (l1 : list A) (l2 : list B) :
  List.length l1 = List.length l2 -> map snd (combine l1 l2) = l2.
Proof.
  revert l2. induction l1 as [| a l1 IH]; intros [| b l2] H; simpl in *;
    try reflexivity; try discriminate.
  f_equal. apply IH. lia.
Qed.

Section Assemble.
Context {G : Type} (np_seed : Z -> G) (np_permutation : G -> nat -> list nat * G).
Hypothesis np_permutation_spec :
  forall g n, Permutation (fst (np_permutation g n)) (seq 0 n).

Lemma permutation_indices (g : G) (n : nat) :
  List.length (fst (np_permutation g n)) = n /\
  forall j, In j (fst (np_permutation g n)) <-> (j < n)%nat.
Proof.
  pose proof (np_permutation_spec g n) as Hp. split.
  - rewrite (Permutation_length Hp). apply length_seq.
  - intros j. split; intros H.
    + apply (Permutation_in _ Hp) in H. apply in_seq in H. lia.
    + apply (Permutation_in _ (Permutation_sym Hp)). apply in_seq. lia.
Qed.

(** [shuffle_data] on arrays with enough entries. *)
Lemma shuffle_data_run (self : Dataloader) (X : ndarray) (y : list Q) (g : G) :
  (2 * NUM_POSITIVES self <= List.length (items X))%nat ->
  (2 * NUM_POSITIVES self <= List.length y)%nat ->
  exists g' X' y',
    shuffle_data np_permutation self X y g = Ok (g', (X', y')) /\
    dims X' = ((2 * NUM_POSITIVES self)%nat, snd (fst (dims X)), snd (dims X)) /\
    List.length (items X') = (2 * NUM_POSITIVES self)%nat /\
    List.length y' = (2 * NUM_POSITIVES self)%nat /\
    Permutation (combine (items X') y')
                (combine (firstn (2 * NUM_POSITIVES self) (items X))
                         (firstn (2 * NUM_POSITIVES self) y)).
Proof.
  destruct (permutation_indices g (2 * NUM_POSITIVES self)) as [Hlen Hin].
  pose proof (np_permutation_spec g (2 * NUM_POSITIVES self)) as Hp.
  unfold shuffle_data.
  destruct (np_permutation g (2 * NUM_POSITIVES self)) as [p g'].
  cbn [fst] in Hlen, Hin, Hp. set (n := (2 * NUM_POSITIVES self)%nat) in *.
  intros HX Hy.
  assert (HpX : Forall (fun j => j < List.length (items X))%nat p).
  { apply Forall_forall. intros j Hj. apply Hin in Hj. lia. }
  assert (Hpy : Forall (fun j => j < List.length y)%nat p).
  { apply Forall_forall. intros j Hj. apply Hin in Hj. lia. }
  rewrite (take_map (items X) p [] HpX). cbn [bind].
  rewrite (take_map y p 0%Q Hpy). cbn [bind].
  eexists _, _, _. split; [reflexivity |]. cbn [items dims].
  split; [now rewrite Hlen |].
  split; [now rewrite length_map |]. split; [now rewrite length_map |].
  assert (E : forall (A : Type) (a : list A) (d : A),
            (n <= List.length a)%nat ->
            map (fun j => nth j a d) p = map (fun j => nth j (firstn n a) d) p).
  { intros A a d Ha. apply map_ext_in. intros j Hj. apply Hin in Hj.
    rewrite <- (firstn_skipn n a) at 1. rewrite app_nth1; [reflexivity |].
    rewrite length_firstn. lia. }
  rewrite (E _ (items X) [] HX), (E _ y 0%Q Hy).
  rewrite (map_nth_combine (firstn n (items X)) (firstn n y) p [] 0%Q)
    by (rewrite !length_firstn; lia).
  transitivity (map (fun j => nth j (combine (firstn n (items X)) (firstn n y)) ([], 0%Q))
                    (seq 0 (List.length (combine (firstn n (items X)) (firstn n y))))).
  - apply Permutation_map.
    rewrite length_combine, !length_firstn.
    replace (Nat.min (Nat.min n (List.length (items X))) (Nat.min n (List.length y)))
      with n by lia.
    exact Hp.
  - now rewrite map_nth_seq.
Qed.

(** X17. [shuffle_data] on arrays of any length: with at least
    2 x NUM_POSITIVES objects and labels it returns exactly
    2 x NUM_POSITIVES of each, all taken from the first 2 x NUM_POSITIVES
    entries, so that later entries are dropped without notice; with fewer
    objects or fewer labels it raises IndexError. *)
Theorem shuffle_data_bounds (self : Dataloader) (X : ndarray) (y : list Q) (g : G) :
  ((2 * NUM_POSITIVES self <= List.length (items X))%nat ->
   (2 * NUM_POSITIVES self <= List.length y)%nat ->
   exists g' X' y',
     shuffle_data np_permutation self X y g = Ok (g', (X', y')) /\
     List.length (items X') = (2 * NUM_POSITIVES self)%nat /\
     List.length y' = (2 * NUM_POSITIVES self)%nat /\
     Permutation (combine (items X') y')
                 (combine (firstn (2 * NUM_POSITIVES self) (items X))
                          (firstn (2 * NUM_POSITIVES self) y))) /\
  ((List.length (items X) < 2 * NUM_POSITIVES self)%nat \/
   (List.length y < 2 * NUM_POSITIVES self)%nat ->
   shuffle_data np_permutation self X y g = Raise IndexError).
Proof.
  split.
  - intros HX Hy.
    destruct (shuffle_data_run self X y g HX Hy) as (g' & X' & y' & Hrun & _ & H).
    exists g', X', y'. split; [exact Hrun | exact H].
  - destruct (permutation_indices g (2 * NUM_POSITIVES self)) as [_ Hin].
    unfold shuffle_data.
    destruct (np_permutation g (2 * NUM_POSITIVES self)) as [p g'].
    cbn [fst] in Hin. set (n := (2 * NUM_POSITIVES self)%nat) in *.
    intros Hshort.
    destruct (Nat.lt_ge_cases (List.length (items X)) n) as [HX | HX].
    + rewrite (take_out_of_range (items X) p (List.length (items X)));
        [reflexivity | now apply Hin | lia].
    + destruct Hshort as [HX' | Hy]; [lia |].
      assert (HpX : Forall (fun j => j < List.length (items X))%nat p).
      { apply Forall_forall. intros j Hj. apply Hin in Hj. lia. }
      rewrite (take_map (items X) p [] HpX). cbn [bind].
      rewrite (take_out_of_range y p (List.length y));
        [reflexivity | now apply Hin | lia].
Qed.

(** X18. What [source_to_data] saves when it returns: a well-shaped
    tensor of 2 x NUM_POSITIVES objects, as many time slots as the
    non-lens table has distinct MJD values below the cutoff, and the
    channels of the layout; and a label vector holding NUM_POSITIVES ones
    and NUM_POSITIVES zeros. *)
Theorem source_to_data_returns (ephi : cell -> cell -> cell * cell) (self : Dataloader)
    (lens nonlens : loc) (s : store) (g : G) (X : ndarray) (y : list Q) :
  (lens < next s)%nat ->
  source_to_data np_seed np_permutation ephi self lens nonlens s g = Ok (X, y) ->
  dims X = ((2 * NUM_POSITIVES self)%nat,
            distinct_MJD (cut (observation_cutoff self) (heap s nonlens)),
            channel_count self) /\
  well_shaped X /\
  Permutation y (repeat 1%Q (NUM_POSITIVES self) ++ repeat 0%Q (NUM_POSITIVES self))%list.
Proof.
  intros Hl H. unfold source_to_data in H.
  apply bind_Ok in H. destruct H as [[[self' s1] [l1 n1]] [Hb H]].
  apply bind_Ok in H. destruct H as [[s2 [l2 n2]] [Ha H]].
  apply bind_Ok in H. destruct H as [[X1 y1] [H1 H]].
  apply bind_Ok in H. destruct H as [[X2 y2] [H2 H]].
  apply bind_Ok in H. destruct H as [[g1 [Xc yc]] [Hc H]].
  apply bind_Ok in H. destruct H as [[g2 [Xs ys]] [Hs H]].
  inversion H; subst Xs ys; clear H.
  destruct (set_balance_Ok _ _ _ _ _ _ _ _ _ Hl Hb) as (Hself & _).
  destruct (make_data_array self' (heap s2 l2) 1) as [log1 r1] eqn:E1.
  destruct (make_data_array self' (heap s2 n2) 0) as [log2 r2] eqn:E2.
  cbn [snd] in H1, H2. subst r1 r2.
  destruct (make_data_array_Ok_shape _ _ _ _ _ _ E1) as (nt & Hnt & Hd1 & Hw1 & ->).
  destruct (make_data_array_Ok_shape _ _ _ _ _ _ E2) as (nt' & Hnt' & Hd2 & Hw2 & ->).
  rewrite Hnt in Hnt'. injection Hnt' as <-.
  destruct (combine_lens_nonlens_run np_seed self' X1 X2
              (repeat 1%Q (NUM_POSITIVES self')) (repeat 0%Q (NUM_POSITIVES self')) g
              nt (channel_count self') Hd1 Hd2) as (Xc' & Hrun & Hd & Hi).
  { now rewrite !repeat_length. }
  rewrite Hrun in Hc. inversion Hc; subst g1 Xc yc; clear Hc.
  assert (Hw : well_shaped Xc')
    by exact (well_shaped_concat Xc' X1 X2 _ _ _ Hd1 Hd2 Hd Hi Hw1 Hw2).
  assert (Hch : channel_count self' = channel_count self) by (now subst self').
  assert (Hnp : NUM_POSITIVES self' = NUM_POSITIVES self) by (now subst self').
  assert (Hnt' : nt = distinct_MJD (cut (observation_cutoff self) (heap s nonlens))).
  { subst self'. cbn [NUM_TIMES set_NUM_TIMES] in Hnt. now injection Hnt as <-. }
  rewrite Hch, Hnp in *. clear Hself Hnt Hd1 Hd2 Hw1 Hw2 E1 E2 Hrun Hb Ha.
  set (n := (2 * NUM_POSITIVES self)%nat) in *.
  assert (HlenX : List.length (items Xc') = n).
  { unfold well_shaped in Hw. rewrite Hd in Hw. apply Hw. }
  assert (Hleny : List.length (repeat 1%Q (NUM_POSITIVES self)
                               ++ repeat 0%Q (NUM_POSITIVES self))%list = n).
  { rewrite length_app, !repeat_length. unfold n. lia. }
  destruct (shuffle_data_run self' Xc'
              (repeat 1%Q (NUM_POSITIVES self) ++ repeat 0%Q (NUM_POSITIVES self))%list
              (np_seed seed))
    as (g' & X' & y' & Hrun' & HdX & HlX & Hly & Hperm).
  { rewrite Hnp. fold n. lia. }
  { rewrite Hnp. fold n. lia. }
  rewrite Hrun' in Hs. inversion Hs; subst g2 X y; clear Hs.
  rewrite Hnp in HdX, HlX, Hly, Hperm. fold n in HdX, HlX, Hly, Hperm.
  rewrite <- HlenX in Hperm at 1. rewrite firstn_all in Hperm.
  rewrite <- Hleny in Hperm at 1. rewrite firstn_all in Hperm.
  rewrite Hd in HdX. cbn [fst snd] in HdX.
  split; [| split].
  - rewrite HdX, Hnt'. reflexivity.
  - unfold well_shaped. rewrite HdX. split; [exact HlX |].
    apply Forall_forall. intros plane Hplane.
    assert (Hin : In plane (items Xc')).
    { assert (Hm : In plane (map fst (combine (items X') y'))).
      { rewrite map_fst_combine; [exact Hplane | lia]. }
      apply in_map_iff in Hm. destruct Hm as [[pl lb] [<- Hm]].
      apply (Permutation_in _ Hperm) in Hm. now apply in_combine_l in Hm. }
    unfold well_shaped in Hw. rewrite Hd in Hw. destruct Hw as [_ Hw].
    rewrite Forall_forall in Hw. now apply Hw.
  - assert (Hs2 : Permutation (map snd (combine (items X') y'))
                    (map snd (combine (items Xc')
                       (repeat 1%Q (NUM_POSITIVES self)
                        ++ repeat 0%Q (NUM_POSITIVES self))%list)))
      by (now apply Permutation_map).
    rewrite !map_snd_combine in Hs2 by lia. exact Hs2.
Qed.

End Assemble.

Lemma shuffle_data_bounds_witness :
  shuffle_data toy_permutation (loader 2 5 false) two_planes [1%Q; 0%Q] 0%nat
  = Raise IndexError.
Proof.
  apply (shuffle_data_bounds toy_permutation
           (fun g n => Permutation_sym (Permutation_rev (seq 0 n)))
           (loader 2 5 false) two_planes [1%Q; 0%Q] 0%nat).
  left. simpl. lia.
Defined.

Lemma source_to_data_returns_witness :
  exists X y,
    source_to_data toy_seed toy_permutation ephi_sum
      (mkDataloader None 1 true false None) 0%nat 1%nat raw_store 0%nat = Ok (X, y) /\
    dims X = (2, 5, 15)%nat /\ well_shaped X /\ Permutation y [1%Q; 0%Q].
Proof.
  destruct (source_to_data toy_seed toy_permutation ephi_sum
              (mkDataloader None 1 true false None) 0%nat 1%nat raw_store 0%nat)
    as [[X y] | e] eqn:E; [| vm_compute in E; discriminate E].
  exists X, y. split; [reflexivity |].
  apply (source_to_data_returns toy_seed toy_permutation
           (fun g n => Permutation_sym (Permutation_rev (seq 0 n)))
           ephi_sum (mkDataloader None 1 true false None) 0%nat 1%nat raw_store 0%nat X y).
  - simpl; lia.
  - exact E.
Defined.

(* ================================================================== *)
(** ** Tensor builder: the order of the rows does not matter *)

Lemma Qplus_swap (x y z : Q) : Qplus x (Qplus y z) = Qplus y (Qplus x z).
Proof.
  destruct x as [xn xd], y as [yn yd], z as [zn zd]. unfold Qplus. cbn [Qnum Qden].
  f_equal.
  - rewrite !Pos2Z.inj_mul. ring.
  - rewrite !Pos.mul_assoc. f_equal. apply Pos.mul_comm.
Qed.

Lemma Qsum_perm (l l' : list Q) : Permutation l l' -> Qsum l = Qsum l'.
Proof.
  unfold Qsum. induction 1 as [| x l l' _ IH | x y l | l l' l'' _ IH1 _ IH2]; simpl.
  - reflexivity.
  - now rewrite IH.
  - apply Qplus_swap.
  - now rewrite IH1.
Qed.

Lemma somes_perm (l l' : list cell) : Permutation l l' -> Permutation (somes l) (somes l').
Proof.
  induction 1 as [| x l l' _ IH | x y l | l l' l'' _ IH1 _ IH2].
  - reflexivity.
  - destruct x; simpl; [now constructor | assumption].
  - destruct x, y; simpl; try reflexivity. apply perm_swap.
  - now transitivity (somes l').
Qed.

Lemma nanmean_perm (l l' : list cell) : Permutation l l' -> nanmean l = nanmean l'.
Proof.
  intros H. apply somes_perm in H. unfold nanmean.
  destruct (somes l) as [| q qs] eqn:E1.
  - apply Permutation_nil in H. now rewrite H.
  - destruct (somes l') as [| q' qs'] eqn:E2.
    + apply Permutation_sym, Permutation_nil in H. discriminate H.
    + unfold Qmean. now rewrite (Qsum_perm _ _ H), (Permutation_length H).
Qed.

Lemma filter_perm {A : Type} (p : A -> bool) (l l' : list A) :
  Permutation l l' -> Permutation (List.filter p l) (List.filter p l').
Proof.
  induction 1 as [| x l l' _ IH | x y l | l l' l'' _ IH1 _ IH2]; simpl.
  - reflexivity.
  - destruct (p x); [now constructor | assumption].
  - destruct (p x), (p y); try reflexivity. apply perm_swap.
  - now transitivity (List.filter p l').
Qed.

Lemma pivot_table_perm {I C : Type} (eqI : I -> I -> bool) (eqC : C -> C -> bool)
    (ikey : Row -> I) (ckey : Row -> C) (idx : list I) (keys : list C)
    (vals : list string) (rws rws' : list Row) :
  Permutation rws rws' ->
  pivot_table eqI eqC ikey ckey idx keys vals rws
  = pivot_table eqI eqC ikey ckey idx keys vals rws'.
Proof.
  intros H. unfold pivot_table. f_equal.
  apply map_ext. intros i. apply map_ext. intros vc.
  apply nanmean_perm. apply Permutation_map. now apply filter_perm.
Qed.

Lemma sort_uniq_perm {A B : Type} (cmp : B -> B -> comparison) (O : total_order cmp)
    (f : A -> B) (l l' : list A) :
  Permutation l l' -> sort_uniq cmp (map f l) = sort_uniq cmp (map f l').
Proof.
  intros H. apply (sort_uniq_ext cmp O). intros x.
  split; apply Permutation_in; [| apply Permutation_sym]; now apply Permutation_map.
Qed.

Lemma pivot_filters_perm (src src' : DataFrame) (vals : list string) :
  columns src = columns src' -> Permutation (rows src) (rows src') ->
  pivot_filters src vals = pivot_filters src' vals.
Proof.
  intros Hc Hp. unfold pivot_filters.
  rewrite (getitems_columns src src' _ Hc).
  rewrite (sort_uniq_perm Z.compare Z_total_order objectId _ _ Hp).
  rewrite (sort_uniq_perm Z.compare Z_total_order time_index _ _ Hp).
  rewrite (sort_uniq_perm String.compare string_total_order filter _ _ Hp).
  now rewrite (pivot_table_perm _ _ _ _ _ _ _ _ _ Hp).
Qed.

Lemma pivot_times_perm (src src' : DataFrame) (vals : list string) :
  columns src = columns src' -> Permutation (rows src) (rows src') ->
  pivot_times src vals = pivot_times src' vals.
Proof.
  intros Hc Hp. unfold pivot_times.
  rewrite (getitems_columns src src' _ Hc).
  rewrite (sort_uniq_perm Z.compare Z_total_order objectId _ _ Hp).
  rewrite (sort_uniq_perm Z.compare Z_total_order time_index _ _ Hp).
  now rewrite (pivot_table_perm _ _ _ _ _ _ _ _ _ Hp).
Qed.

Lemma per_filter_layout_perm (self : Dataloader) (nt : nat) (src src' : DataFrame) :
  columns src = columns src' -> Permutation (rows src) (rows src') ->
  per_filter_layout self nt src = per_filter_layout self nt src'.
Proof.
  intros Hc Hp. unfold per_filter_layout.
  now rewrite (pivot_filters_perm src src' _ Hc Hp).
Qed.

Lemma onehot_layout_perm (self : Dataloader) (nt : nat) (src src' : DataFrame) :
  columns src = columns src' -> Permutation (rows src) (rows src') ->
  onehot_layout self nt src = onehot_layout self nt src'.
Proof.
  intros Hc Hp. unfold onehot_layout, get_dummies, getitem. rewrite <- Hc.
  destruct (mem "filter" (columns src)); cbn [bind]; [| reflexivity].
  rewrite <- (sort_uniq_perm String.compare string_total_order filter _ _ Hp).
  set (cats := sort_uniq String.compare (map filter (rows src))).
  set (cols := (List.filter (fun c => negb (String.eqb c "filter")) (columns src)
                ++ cats)%list).
  assert (Hp' : Permutation (map (add_dummies cats) (rows src))
                            (map (add_dummies cats) (rows src')))
    by (now apply Permutation_map).
  cbv beta iota zeta delta [bindM call].
  assert (Hs : shape {| columns := cols; rows := map (add_dummies cats) (rows src) |}
               = shape {| columns := cols; rows := map (add_dummies cats) (rows src') |}).
  { unfold shape. cbn [rows columns]. now rewrite (Permutation_length Hp'). }
  rewrite Hs.
  rewrite (pivot_times_perm
             {| columns := cols; rows := map (add_dummies cats) (rows src) |}
             {| columns := cols; rows := map (add_dummies cats) (rows src') |}
             _ eq_refl Hp').
  reflexivity.
Qed.

(** X19. [make_data_array] does not depend on the order of the rows of
    its table, nor on columns it does not select: two tables that both
    have the selected columns and whose rows are rearrangements of each
    other give the same result, log included. *)
Theorem make_data_array_row_order (self : Dataloader) (src src' : DataFrame) (tv : Q) :
  getitems src (attributes self ++ ["time_index"; "objectId"; "filter"])%list = Ok tt ->
  getitems src' (attributes self ++ ["time_index"; "objectId"; "filter"])%list = Ok tt ->
  Permutation (rows src) (rows src') ->
  make_data_array self src tv = make_data_array self src' tv.
Proof.
  intros H1 H2 Hp. unfold make_data_array, select. rewrite H1, H2. cbn [bind].
  destruct (NUM_TIMES self) as [nt |]; [| reflexivity].
  cbv beta iota zeta delta [bindM lift]. cbn [rows].
  rewrite (Permutation_length Hp).
  assert (Hlay : (if onehot_filters self
                  then onehot_layout self nt
                         {| columns := (attributes self
                               ++ ["time_index"; "objectId"; "filter"])%list;
                            rows := rows src |}
                  else per_filter_layout self nt
                         {| columns := (attributes self
                               ++ ["time_index"; "objectId"; "filter"])%list;
                            rows := rows src |})
                 = (if onehot_filters self
                    then onehot_layout self nt
                           {| columns := (attributes self
                                 ++ ["time_index"; "objectId"; "filter"])%list;
                              rows := rows src' |}
                    else per_filter_layout self nt
                           {| columns := (attributes self
                                 ++ ["time_index"; "objectId"; "filter"])%list;
                              rows := rows src' |})).
  { destruct (onehot_filters self);
      [apply onehot_layout_perm | apply per_filter_layout_perm];
      (reflexivity || exact Hp). }
  rewrite Hlay. reflexivity.
Qed.

Lemma make_data_array_row_order_witness :
  make_data_array (loader 1 5 false) one_object 1
  = make_data_array (loader 1 5 false)
      {| columns := ["filter"; "objectId"; "time_index"; "d_time"; "apMagErr"; "apMag"];
         rows := rev (rows one_object) |} 1.
Proof.
  apply (make_data_array_row_order (loader 1 5 false) one_object
           {| columns := ["filter"; "objectId"; "time_index"; "d_time"; "apMagErr"; "apMag"];
              rows := rev (rows one_object) |} 1).
  - reflexivity.
  - reflexivity.
  - apply Permutation_rev.
Defined.

(* ================================================================== *)
(** ** Balancer: the default cutoff *)



